(** * A shallow embedding of the Orthanc worklist / MPPS plugin

    Sources embedded here:
    - [plugins/worklist_model.py]   (persistent store, synchronization,
                                     name transliteration, MPPS recording)
    - [plugins/emr_api.py]          (the external order source)
    - [plugins/worklist-with-mpps.py] (the DICOM handlers: C-FIND, N-CREATE,
                                     N-SET)

    Python state is threaded explicitly through a state-and-exception monad.
    The SQLite database is a record of row lists, an SQLAlchemy session is a
    private view of it together with the objects added but not yet flushed,
    the module-level dictionary [managed_instances] is a [gmap]. *)

From Stdlib Require Import ZArith String Ascii List Lia DecimalString.
From Stdlib Require Import DecimalPos DecimalZ Sorted Permutation.
From stdpp Require Import base option list gmap strings.

Local Open Scope string_scope.
Local Open Scope Z_scope.

(** ** Python strings *)

(** Text that the code only compares, stores and concatenates is a [string]:
    a sequence of characters with code points below 256.  Patient names are
    inspected code point by code point ([ord(char)]) and hold any character,
    so they are sequences of Unicode code points. *)
Definition ustr := list N.

Definition ustr_of_string (s : string) : ustr :=
  map N_of_ascii (list_ascii_of_string s).

(** Python truthiness of a [str]: the empty string is false. *)
Definition nonempty (s : string) : bool := negb (String.eqb s "").

(** Truthiness of a value that may be [None]. *)
Definition truthy (o : option string) : bool :=
  match o with Some s => nonempty s | None => false end.

Definition truthy_int (o : option Z) : bool :=
  match o with Some z => negb (z =? 0) | None => false end.

Definition truthy_ustr (o : option ustr) : bool :=
  match o with Some (_ :: _) => true | _ => false end.

(** [chr(c).upper()] for a code point below 256, the full uppercase mapping
    of Unicode: the letters a..z and the accented letters U+E0..U+FE but the
    division sign move down by 32, the sharp s U+DF becomes the two letters
    SS, and the micro sign U+B5 and the y with diaeresis U+FF leave the
    range. *)
Definition upper_latin1 (c : N) : list N :=
  if ((97 <=? c) && (c <=? 122))%N then [(c - 32)%N]
  else if (c =? 181)%N then [924%N]
  else if (c =? 223)%N then [83%N; 83%N]
  else if ((224 <=? c) && (c <=? 254) && negb (c =? 247))%N
       then [(c - 32)%N]
  else if (c =? 255)%N then [376%N]
  else [c].

(** [s.upper()] for a [string]: character by character, without context.
    The result is a sequence of code points. *)
Definition upper (s : string) : ustr :=
  flat_map upper_latin1 (ustr_of_string s).

(** The characters [str.strip()] removes. *)
Definition is_space (c : N) : bool :=
  (((9 <=? c) && (c <=? 13)) || ((28 <=? c) && (c <=? 32))
   || (c =? 133) || (c =? 160) || (c =? 5760)
   || ((8192 <=? c) && (c <=? 8202)) || (c =? 8232) || (c =? 8233)
   || (c =? 8239) || (c =? 8287) || (c =? 12288))%N.

(** [s.strip()] on a [string]. *)
Fixpoint lstrip_ascii (l : list ascii) : list ascii :=
  match l with
  | c :: r => if is_space (N_of_ascii c) then lstrip_ascii r else l
  | [] => []
  end.

Definition strip_ascii (l : list ascii) : list ascii :=
  rev (lstrip_ascii (rev (lstrip_ascii l))).

Definition str_strip (s : string) : string :=
  string_of_list_ascii (strip_ascii (list_ascii_of_string s)).

(** [str(n)] for a Python [int]. *)
Definition str_of_int (z : Z) : string := NilZero.string_of_int (Z.to_int z).

Fixpoint zeros (n : nat) : string :=
  match n with O => EmptyString | S k => String "0" (zeros k) end.

(** [s.zfill(width)]: pad with zeros on the left, after a leading sign. *)
Definition zfill (width : nat) (s : string) : string :=
  let fill := zeros (width - String.length s) in
  match s with
  | String c r =>
      if (Ascii.eqb c "-" || Ascii.eqb c "+")%bool
      then String c (fill ++ r) else fill ++ s
  | EmptyString => fill
  end.

(** ** datetime *)

Record datetime := {
  year : nat; month : nat; day : nat;
  hour : nat; minute : nat; second : nat
}.

Definition digits (width n : nat) : string :=
  zfill width (str_of_int (Z.of_nat n)).

(** [d.strftime('%Y%m%d')] and [d.strftime('%H%M%S')], as the C library of
    the Linux host of the plugin formats them: [%Y] is the year without
    padding, the other fields have two digits. *)
Definition strftime_Ymd (d : datetime) : string :=
  str_of_int (Z.of_nat (year d)) ++ digits 2 (month d) ++ digits 2 (day d).

Definition strftime_HMS (d : datetime) : string :=
  digits 2 (hour d) ++ digits 2 (minute d) ++ digits 2 (second d).

(** ** The persistent store (the SQLAlchemy models) *)

Record Patient := {
  patient_id : string;
  patient_name : ustr;
  patient_eng_name : option ustr;
  birth_date : option string;
  sex : option string
}.

Record WorklistItem := {
  wl_patient_id : string;
  accession_number : string;
  appointment_date : string;
  appointment_time : string;
  modality : option string;          (* NOT NULL, checked when inserted *)
  aet : option string;
  study_instance_uid : option string;
  status : string;
  emr_order_seq : option Z
}.

Record MPPSTracking := {
  sop_instance_uid : string;
  mpps_accession_number : string;
  mpps_study_instance_uid : string;
  mpps_modality : string;
  mpps_status : string;
  start_time : datetime;
  end_time : option datetime
}.

Record ModalityAET := {
  ma_modality : string;
  ma_aet : string
}.

Record Store := {
  patients : list Patient;
  worklist_items : list WorklistItem;
  mpps_tracking : list MPPSTracking;
  modality_aets : list ModalityAET
}.

(** The three values the [status] column of a worklist item takes.  The code
    writes the in-progress state with a blank. *)
Definition SCHEDULED : string := "SCHEDULED".
Definition IN_PROGRESS : string := "IN PROGRESS".
Definition COMPLETED : string := "COMPLETED".

(** ** The external order source (table [PcsInf] read by emr_api.py) *)

Inductive dtm_value :=
| DtmDatetime (d : datetime)
| DtmString (s : string).

(** One fetched order: the dictionary [fetch_new_orders] builds from the
    eight selected columns.  Every key is present; [None] is SQL NULL.  The
    columns are typed as the synchronization reads them: a sequence number,
    two timestamps (a [datetime] or a string) and text. *)
Record Order := {
  PcsOdrSeq : option Z;
  PcsOdrDtm : option dtm_value;
  PcsOrgDtm : option dtm_value;
  PcsUntCod : option string;
  PcsPatNam : option ustr;
  PcsChtNum : option string;
  PcsBirDte : option string;
  PcsSexTyp : option string
}.

Record EmrRow := {
  row_order : Order;
  PcsDelFlg : string;
  PcsStatus : option string
}.

(** ** DICOM datasets *)

(** An item of [ScheduledStepAttributesSequence]. *)
Record StepAttributes := {
  sa_AccessionNumber : option string;
  sa_StudyInstanceUID : option string
}.

(** The attributes of an MPPS dataset that the handlers read or write, by
    keyword; [None] means the attribute is not in the dataset.  [ds_other]
    holds every other attribute. *)
Record Dataset := {
  SOPClassUID : option string;
  SOPInstanceUID : option string;
  PerformedProcedureStepStatus : option string;
  ds_Modality : option string;
  ScheduledStepAttributesSequence : option (list StepAttributes);
  ds_other : gmap string string
}.

Definition empty_dataset : Dataset :=
  {| SOPClassUID := None; SOPInstanceUID := None;
     PerformedProcedureStepStatus := None; ds_Modality := None;
     ScheduledStepAttributesSequence := None; ds_other := ∅ |}.

Definition override {A} (new old : option A) : option A :=
  match new with Some x => Some x | None => old end.

(** [ds.update(other)]: every attribute of [other] replaces that of [ds]. *)
Definition ds_update (ds other : Dataset) : Dataset :=
  {| SOPClassUID := override (SOPClassUID other) (SOPClassUID ds);
     SOPInstanceUID := override (SOPInstanceUID other) (SOPInstanceUID ds);
     PerformedProcedureStepStatus :=
       override (PerformedProcedureStepStatus other)
                (PerformedProcedureStepStatus ds);
     ds_Modality := override (ds_Modality other) (ds_Modality ds);
     ScheduledStepAttributesSequence :=
       override (ScheduledStepAttributesSequence other)
                (ScheduledStepAttributesSequence ds);
     ds_other := ds_other other ∪ ds_other ds |}.

(** The UID of the Modality Performed Procedure Step SOP class. *)
Definition ModalityPerformedProcedureStep : string := "1.2.840.10008.3.1.2.3.3".

(** The identifier of a C-FIND request. *)
Record StepQuery := {
  q_ScheduledProcedureStepStartDate : option string;
  q_Modality : option string
}.

Record Identifier := {
  q_ScheduledProcedureStepSequence : option (list StepQuery);
  q_AccessionNumber : option string
}.

(** The scheduled procedure step of a worklist answer. *)
Record ScheduledStep := {
  sps_Modality : option string;
  ScheduledStationAETitle : option string;
  ScheduledProcedureStepStartDate : string;
  ScheduledProcedureStepStartTime : string;
  ScheduledPerformingPhysicianName : string;
  ScheduledProcedureStepDescription : string
}.

(** A worklist answer built by [find_worklist]. *)
Record WorklistDataset := {
  PatientName : option ustr;
  PatientID : string;
  SpecificCharacterSet : string;
  PatientBirthDate : option string;
  PatientSex : option string;
  ScheduledProcedureStepSequence : list ScheduledStep;
  AccessionNumber : string;
  StudyInstanceUID : string;
  StudyID : string
}.

(** ** The world and the monad *)

Inductive level := Info | Warning | Error.

(** Everything the plugin reads or writes outside its local variables. *)
Record World := {
  store : Store;                                   (* committed database *)
  managed_instances : gmap string Dataset;         (* module-level dict *)
  emr : option (list EmrRow);                      (* None: unreachable *)
  uid_counter : nat;                               (* generate_uid calls *)
  clock : nat;                                     (* datetime.now calls *)
  log : list (level * string)                      (* orthanc.Log* calls *)
}.

Inductive exn :=
| AttributeError | IndexError | IntegrityError | PendingRollbackError
| LibraryError.

Inductive result (A : Type) :=
| Ok (a : A)
| Raise (e : exn).
Arguments Ok {A} a.
Arguments Raise {A} e.

(** A computation over a state [S] that returns or raises.  A raise keeps
    the state reached so far, as Python does. *)
Definition M (S A : Type) : Type := S -> result A * S.

Definition ret {S A} (a : A) : M S A := fun s => (Ok a, s).

Definition raise {S A} (e : exn) : M S A := fun s => (Raise e, s).

Definition bind {S A B} (m : M S A) (k : A -> M S B) : M S B :=
  fun s => match m s with
           | (Ok a, s') => k a s'
           | (Raise e, s') => (Raise e, s')
           end.

(** [try: m  except Exception as e: h e]. *)
Definition try_except {S A} (m : M S A) (h : exn -> M S A) : M S A :=
  fun s => match m s with
           | (Ok a, s') => (Ok a, s')
           | (Raise e, s') => h e s'
           end.

Definition gets {S A} (f : S -> A) : M S A := fun s => (Ok (f s), s).

Definition modify {S} (f : S -> S) : M S unit := fun s => (Ok tt, f s).

Declare Scope py_scope.
Delimit Scope py_scope with py.
Notation "'let!' x ':=' m 'in' k" := (bind m (fun x => k))
  (at level 10, x name, m at level 100, k at level 200) : py_scope.
Notation "'let!' ( x , y ) ':=' m 'in' k" := (bind m (fun '(x, y) => k))
  (at level 10, x name, y name, m at level 100, k at level 200) : py_scope.
Notation "m ;; k" := (bind m (fun _ => k))
  (at level 100, k at level 200, right associativity) : py_scope.
Local Open Scope py_scope.

(** Run a computation on the world inside one that also carries a local
    state (a session, a dataset under construction). *)
Definition liftW {L A} (m : M World A) : M (L * World) A :=
  fun '(l, w) => let '(r, w') := m w in (r, (l, w')).

(** Run a computation with a fresh local state and drop that state at the
    end, whether it returned or raised. *)
Definition with_local {L A} (init : World -> L) (m : M (L * World) A)
  : M World A :=
  fun w => let '(r, (_, w')) := m (init w, w) in (r, w').

Definition set_store (s : Store) (w : World) : World :=
  {| store := s; managed_instances := managed_instances w; emr := emr w;
     uid_counter := uid_counter w; clock := clock w; log := log w |}.

Definition set_managed (m : gmap string Dataset) (w : World) : World :=
  {| store := store w; managed_instances := m; emr := emr w;
     uid_counter := uid_counter w; clock := clock w; log := log w |}.

Definition set_emr (e : option (list EmrRow)) (w : World) : World :=
  {| store := store w; managed_instances := managed_instances w; emr := e;
     uid_counter := uid_counter w; clock := clock w; log := log w |}.

Definition add_log (l : level) (msg : string) (w : World) : World :=
  {| store := store w; managed_instances := managed_instances w;
     emr := emr w; uid_counter := uid_counter w; clock := clock w;
     log := log w ++ [(l, msg)] |}.

Definition orthanc_Log (l : level) (msg : string) : M World unit :=
  modify (add_log l msg).

Definition LogInfo := orthanc_Log Info.
Definition LogWarning := orthanc_Log Warning.
Definition LogError := orthanc_Log Error.

(** ** External collaborators

    Library code the plugin calls and that is not part of the repository. *)
Record Env := {
  (* Romanizer(s).romanize(); None when it raises *)
  romanize : ustr -> option ustr;
  (* datetime.strptime(s, '%Y%m%d%H%M'); None when it raises ValueError *)
  strptime : string -> option datetime;
  (* the n-th identifier pydicom's generate_uid() hands out *)
  generate_uid : nat -> string;
  (* the n-th reading of datetime.now() *)
  now : nat -> datetime;
  (* chr(c).upper() for a code point c above 255, by the Unicode database
     of the Python runtime *)
  toupper : N -> list N
}.

(** ** SQLAlchemy sessions

    [sessionmaker(autocommit=False, autoflush=False)]: a query runs against
    the rows already written in this transaction ([view]); objects passed to
    [db.add] stay pending until [db.flush()] or [db.commit()], and no query
    sees them before that. *)
Record Session := {
  view : Store;
  new_patients : list Patient;
  new_items : list WorklistItem;
  new_mpps : list MPPSTracking;
  active : bool      (* false once a flush has failed *)
}.

Definition session_begin (s : Store) : Session :=
  {| view := s; new_patients := []; new_items := []; new_mpps := [];
     active := true |}.

Definition set_patients (l : list Patient) (s : Store) : Store :=
  {| patients := l; worklist_items := worklist_items s;
     mpps_tracking := mpps_tracking s; modality_aets := modality_aets s |}.

Definition set_items (l : list WorklistItem) (s : Store) : Store :=
  {| patients := patients s; worklist_items := l;
     mpps_tracking := mpps_tracking s; modality_aets := modality_aets s |}.

Definition set_mpps (l : list MPPSTracking) (s : Store) : Store :=
  {| patients := patients s; worklist_items := worklist_items s;
     mpps_tracking := l; modality_aets := modality_aets s |}.

Definition has_patient (pid : string) (s : Store) : bool :=
  existsb (fun p => String.eqb (patient_id p) pid) (patients s).

Definition has_accession (acc : string) (s : Store) : bool :=
  existsb (fun it => String.eqb (accession_number it) acc) (worklist_items s).

Definition has_sop (uid : string) (s : Store) : bool :=
  existsb (fun m => String.eqb (sop_instance_uid m) uid) (mpps_tracking s).

(** INSERT of one row; [None] when a UNIQUE or NOT NULL constraint of the
    table rejects it. *)
Definition insert_patient (p : Patient) (s : Store) : option Store :=
  if has_patient (patient_id p) s then None
  else Some (set_patients (patients s ++ [p]) s).

Definition insert_item (it : WorklistItem) (s : Store) : option Store :=
  match modality it with
  | None => None
  | Some _ =>
      if has_accession (accession_number it) s then None
      else Some (set_items (worklist_items s ++ [it]) s)
  end.

Definition insert_mpps (m : MPPSTracking) (s : Store) : option Store :=
  if has_sop (sop_instance_uid m) s then None
  else Some (set_mpps (mpps_tracking s ++ [m]) s).

Fixpoint insert_all {A} (ins : A -> Store -> option Store) (l : list A)
  (s : Store) : option Store :=
  match l with
  | [] => Some s
  | x :: r =>
      match ins x s with
      | Some s' => insert_all ins r s'
      | None => None
      end
  end.

Definition flush_rows (d : Session) : option Store :=
  match insert_all insert_patient (new_patients d) (view d) with
  | Some s1 =>
      match insert_all insert_item (new_items d) s1 with
      | Some s2 => insert_all insert_mpps (new_mpps d) s2
      | None => None
      end
  | None => None
  end.

(** [db.flush()]: write every pending object.  A rejected row raises and
    leaves the transaction unusable. *)
Definition deactivate (d : Session) : Session :=
  {| view := view d; new_patients := new_patients d;
     new_items := new_items d; new_mpps := new_mpps d; active := false |}.

Definition flush : M Session unit :=
  fun d =>
    if active d then
      match flush_rows d with
      | Some s => (Ok tt, session_begin s)
      | None => (Raise IntegrityError, deactivate d)
      end
    else (Raise PendingRollbackError, d).

(** A SELECT in the session. *)
Definition query {A} (f : Store -> A) : M Session A :=
  fun d => if active d then (Ok (f (view d)), d)
           else (Raise PendingRollbackError, d).

(** Attribute assignment on objects loaded in the session. *)
Definition on_view (f : Store -> Store) (d : Session) : Session :=
  {| view := f (view d); new_patients := new_patients d;
     new_items := new_items d; new_mpps := new_mpps d;
     active := active d |}.

Definition pend_patient (p : Patient) (d : Session) : Session :=
  {| view := view d; new_patients := new_patients d ++ [p];
     new_items := new_items d; new_mpps := new_mpps d;
     active := active d |}.

Definition pend_item (it : WorklistItem) (d : Session) : Session :=
  {| view := view d; new_patients := new_patients d;
     new_items := new_items d ++ [it]; new_mpps := new_mpps d;
     active := active d |}.

Definition pend_mpps (m : MPPSTracking) (d : Session) : Session :=
  {| view := view d; new_patients := new_patients d;
     new_items := new_items d; new_mpps := new_mpps d ++ [m];
     active := active d |}.

Definition mutate (f : Store -> Store) : M Session unit :=
  modify (on_view f).

(** [db.add(obj)]. *)
Definition add_patient (p : Patient) : M Session unit :=
  modify (pend_patient p).

Definition add_item (it : WorklistItem) : M Session unit :=
  modify (pend_item it).

Definition add_mpps (m : MPPSTracking) : M Session unit :=
  modify (pend_mpps m).

Definition liftS {A} (m : M Session A) : M (Session * World) A :=
  fun '(d, w) => let '(r, d') := m d in (r, (d', w)).

(** [db.commit()]: flush, then make the view the committed database. *)
Definition publish (x : Session * World) : Session * World :=
  (fst x, set_store (view (fst x)) (snd x)).

Definition commit : M (Session * World) unit :=
  liftS flush ;; modify publish.

(** [with get_db() as db: body]. *)
Definition with_db {A} (body : M (Session * World) A) : M World A :=
  with_local (fun w => session_begin (store w)) body.

(** [Query.first()] on a filter. *)
Definition first_item (acc : string) (s : Store) : option WorklistItem :=
  List.find (fun it => String.eqb (accession_number it) acc)
            (worklist_items s).

Definition first_patient (pid : string) (s : Store) : option Patient :=
  List.find (fun p => String.eqb (patient_id p) pid) (patients s).

Definition first_mpps (uid : string) (s : Store) : option MPPSTracking :=
  List.find (fun m => String.eqb (sop_instance_uid m) uid) (mpps_tracking s).

(** Apply [f] to the first element that satisfies [p]. *)
Fixpoint update_first {A} (p : A -> bool) (f : A -> A) (l : list A) : list A :=
  match l with
  | [] => []
  | x :: r => if p x then f x :: r else x :: update_first p f r
  end.

Definition with_status (st : string) (it : WorklistItem) : WorklistItem :=
  {| wl_patient_id := wl_patient_id it;
     accession_number := accession_number it;
     appointment_date := appointment_date it;
     appointment_time := appointment_time it;
     modality := modality it; aet := aet it;
     study_instance_uid := study_instance_uid it;
     status := st; emr_order_seq := emr_order_seq it |}.

Definition with_study_uid (uid : string) (it : WorklistItem) : WorklistItem :=
  {| wl_patient_id := wl_patient_id it;
     accession_number := accession_number it;
     appointment_date := appointment_date it;
     appointment_time := appointment_time it;
     modality := modality it; aet := aet it;
     study_instance_uid := Some uid;
     status := status it; emr_order_seq := emr_order_seq it |}.

Definition set_item_status (acc st : string) (s : Store) : Store :=
  set_items
    (update_first (fun it => String.eqb (accession_number it) acc)
                  (with_status st) (worklist_items s)) s.

Definition set_item_study_uid (acc uid : string) (s : Store) : Store :=
  set_items
    (update_first (fun it => String.eqb (accession_number it) acc)
                  (with_study_uid uid) (worklist_items s)) s.

Definition complete_mpps (t : datetime) (m : MPPSTracking) : MPPSTracking :=
  {| sop_instance_uid := sop_instance_uid m;
     mpps_accession_number := mpps_accession_number m;
     mpps_study_instance_uid := mpps_study_instance_uid m;
     mpps_modality := mpps_modality m;
     mpps_status := COMPLETED;
     start_time := start_time m; end_time := Some t |}.

Definition set_mpps_completed (uid : string) (t : datetime) (s : Store)
  : Store :=
  set_mpps
    (update_first (fun m => String.eqb (sop_instance_uid m) uid)
                  (complete_mpps t) (mpps_tracking s)) s.

(** ** emr_api.py *)

(** [get_connection()]: raises when the order source cannot be reached. *)
Inductive conn_error := ConnError.

Definition get_connection : M World (conn_error + list EmrRow) :=
  let! e := gets emr in
  match e with
  | Some rows =>
      LogInfo "Connecting" ;;
      LogInfo "Database connection established successfully" ;;
      ret (inr rows)
  | None =>
      LogInfo "Connecting" ;;
      LogError "Error connecting to database" ;;
      LogError "traceback" ;;
      ret (inl ConnError)
  end.

(** [WHERE PcsDelFlg = 'N' AND PcsOdrSeq > ?]; a NULL sequence number
    compares as unknown and the row is dropped. *)
Definition newer_than (last_order_seq : option Z) (r : EmrRow) : bool :=
  String.eqb (PcsDelFlg r) "N" &&
  match last_order_seq with
  | None => true
  | Some l =>
      match PcsOdrSeq (row_order r) with
      | Some z => l <? z
      | None => false
      end
  end.

(** [ORDER BY PcsOdrSeq DESC], NULL last. *)
Definition seq_geb (a b : EmrRow) : bool :=
  match PcsOdrSeq (row_order a), PcsOdrSeq (row_order b) with
  | Some x, Some y => y <=? x
  | Some _, None => true
  | None, Some _ => false
  | None, None => true
  end.

Fixpoint insert_desc (r : EmrRow) (l : list EmrRow) : list EmrRow :=
  match l with
  | [] => [r]
  | x :: t => if seq_geb r x then r :: l else x :: insert_desc r t
  end.

Definition order_by_desc (l : list EmrRow) : list EmrRow :=
  foldr insert_desc [] l.

(** [SELECT TOP 5 ... FROM PcsInf WHERE ... ORDER BY PcsOdrSeq DESC]. *)
Definition select_top5 (last_order_seq : option Z) (rows : list EmrRow)
  : list EmrRow :=
  take 5 (order_by_desc (List.filter (newer_than last_order_seq) rows)).

Definition fetch_new_orders (last_order_seq : option Z)
  : M World (list Order) :=
  let! c := get_connection in
  match c with
  | inr rows =>
      LogInfo "Executing query" ;;
      let results := map row_order (select_top5 last_order_seq rows) in
      LogInfo "Fetched orders from EMR" ;;
      ret results
  | inl _ =>
      LogError "Error fetching orders" ;;
      LogError "traceback" ;;
      ret []
  end.

Definition set_row_status (st : string) (r : EmrRow) : EmrRow :=
  {| row_order := row_order r; PcsDelFlg := PcsDelFlg r;
     PcsStatus := Some st |}.

Definition has_seq (order_seq : Z) (r : EmrRow) : bool :=
  match PcsOdrSeq (row_order r) with
  | Some z => z =? order_seq
  | None => false
  end.

(** [UPDATE PcsInf SET PcsStatus = ? WHERE PcsOdrSeq = ?]. *)
Definition update_order_status (order_seq : Z) (st : string) : M World bool :=
  let! c := get_connection in
  match c with
  | inr rows =>
      LogInfo "Executing update query" ;;
      let rows_affected :=
        length (List.filter (has_seq order_seq) rows) in
      modify (set_emr
        (Some (map (fun r => if has_seq order_seq r
                             then set_row_status st r else r) rows))) ;;
      LogInfo "Updated order status" ;;
      ret (0 <? rows_affected)%nat
  | inl _ =>
      LogError "Error updating order status" ;;
      LogError "traceback" ;;
      ret false
  end.

(** ** worklist_model.py *)

Section Plugin.

Context (E : Env).

(** The [try] around the import at the top of the module cannot fail once
    the module is loaded. *)
Definition EMR_API_AVAILABLE : bool := true.

Definition tick_clock (w : World) : World :=
  {| store := store w; managed_instances := managed_instances w;
     emr := emr w; uid_counter := uid_counter w;
     clock := S (clock w); log := log w |}.

Definition tick_uid (w : World) : World :=
  {| store := store w; managed_instances := managed_instances w;
     emr := emr w; uid_counter := S (uid_counter w);
     clock := clock w; log := log w |}.

(** [datetime.datetime.now()]. *)
Definition datetime_now : M World datetime :=
  fun w => (Ok (now E (clock w)), tick_clock w).

(** [generate_uid()]. *)
Definition new_uid : M World string :=
  fun w => (Ok (generate_uid E (uid_counter w)), tick_uid w).

(** One row of the joined query of [get_worklist_items]. *)
Record Row := {
  r_accession_number : string;
  r_appointment_date : string;
  r_appointment_time : string;
  r_modality : option string;
  r_study_instance_uid : option string;
  r_aet : option string;
  r_patient_id : string;
  r_patient_name : ustr;
  r_patient_eng_name : option ustr;
  r_birth_date : option string;
  r_sex : option string
}.

Definition make_row (x : WorklistItem * Patient) : Row :=
  let (it, p) := x in
  {| r_accession_number := accession_number it;
     r_appointment_date := appointment_date it;
     r_appointment_time := appointment_time it;
     r_modality := modality it;
     r_study_instance_uid := study_instance_uid it;
     r_aet := aet it;
     r_patient_id := patient_id p;
     r_patient_name := patient_name p;
     r_patient_eng_name := patient_eng_name p;
     r_birth_date := birth_date p;
     r_sex := sex p |}.

(** [db.query(...).join(Patient)]: the inner join on the foreign key. *)
Definition join_patient (s : Store) : list (WorklistItem * Patient) :=
  flat_map
    (fun it =>
       map (fun p => (it, p))
           (List.filter
              (fun p => String.eqb (patient_id p) (wl_patient_id it))
              (patients s)))
    (worklist_items s).

Definition is_scheduled (x : WorklistItem * Patient) : bool :=
  String.eqb (status (fst x)) "SCHEDULED".

Definition eq_opt (o : option string) (s : string) : bool :=
  match o with Some t => String.eqb t s | None => false end.

Definition select_worklist_items
  (modality_ date accession_number_ : option string) (s : Store)
  : list Row :=
  let q := List.filter is_scheduled (join_patient s) in
  let q :=
    match accession_number_ with
    | Some a =>
        if nonempty a && negb (String.eqb a "*")
        then List.filter
               (fun x => String.eqb (accession_number (fst x)) a) q
        else q
    | None => q
    end in
  let q :=
    match date with
    | Some d =>
        if nonempty d
        then List.filter
               (fun x => String.eqb (appointment_date (fst x)) d) q
        else q
    | None => q
    end in
  let q :=
    match modality_ with
    | Some m =>
        if nonempty m
        then List.filter (fun x => eq_opt (modality (fst x)) m) q
        else q
    | None => q
    end in
  map make_row q.

Definition get_worklist_items
  (modality_ date accession_number_ : option string) : M World (list Row) :=
  with_db
    (liftS (query (select_worklist_items modality_ date accession_number_))).

Definition record_mpps_in_progress
  (sop_instance_uid_ modality_ accession_number_ study_instance_uid_ : string)
  : M World bool :=
  try_except
    (with_db
       (let! worklist_item := liftS (query (first_item accession_number_)) in
        match worklist_item with
        | None => ret false
        | Some worklist_item =>
            liftS (mutate (set_item_status accession_number_ IN_PROGRESS)) ;;
            let! t := liftW datetime_now in
            liftS (add_mpps
              {| sop_instance_uid := sop_instance_uid_;
                 mpps_accession_number := accession_number_;
                 mpps_study_instance_uid := study_instance_uid_;
                 mpps_modality := modality_;
                 mpps_status := IN_PROGRESS;
                 start_time := t; end_time := None |}) ;;
            commit ;;
            (if EMR_API_AVAILABLE && truthy_int (emr_order_seq worklist_item)
             then
               match emr_order_seq worklist_item with
               | Some seq =>
                   try_except
                     (liftW (update_order_status seq "IP") ;; ret tt)
                     (fun _ => liftW (LogError "Failed to update EMR status"))
               | None => ret tt
               end
             else ret tt) ;;
            ret true
        end))
    (fun _ => LogError "Error recording MPPS in progress" ;; ret false).

Definition record_mpps_completed (sop_instance_uid_ : string)
  : M World (bool * option string) :=
  try_except
    (with_db
       (let! mpps := liftS (query (first_mpps sop_instance_uid_)) in
        match mpps with
        | None => ret (false, None)
        | Some mpps =>
            let accession_number_ := mpps_accession_number mpps in
            let! t := liftW datetime_now in
            liftS (mutate (set_mpps_completed sop_instance_uid_ t)) ;;
            let! worklist_item :=
              liftS (query (first_item accession_number_)) in
            match worklist_item with
            | Some worklist_item =>
                liftS (mutate (set_item_status accession_number_ COMPLETED)) ;;
                (if EMR_API_AVAILABLE
                    && truthy_int (emr_order_seq worklist_item)
                 then
                   match emr_order_seq worklist_item with
                   | Some seq =>
                       try_except
                         (liftW (update_order_status seq "CO") ;; ret tt)
                         (fun _ =>
                            liftW (LogError "Failed to update EMR status"))
                   | None => ret tt
                   end
                 else ret tt)
            | None => ret tt
            end ;;
            commit ;;
            ret (true, Some accession_number_)
        end))
    (fun _ => LogError "Error recording MPPS completion" ;; ret (false, None)).

Definition update_study_instance_uid
  (accession_number_ study_instance_uid_ : string) : M World bool :=
  try_except
    (with_db
       (let! worklist_item := liftS (query (first_item accession_number_)) in
        match worklist_item with
        | None => ret false
        | Some _ =>
            liftS (mutate
              (set_item_study_uid accession_number_ study_instance_uid_)) ;;
            commit ;;
            ret true
        end))
    (fun _ => LogError "Error updating study UID" ;; ret false).

Definition get_aets_for_modality (modality_ : option string)
  : M World (list string) :=
  with_db
    (liftS (query (fun s =>
       match modality_ with
       | Some m =>
           map ma_aet
             (List.filter (fun x => String.eqb (ma_modality x) m)
                          (modality_aets s))
       | None => []
       end))).

(** [ord('가') <= ord(char) <= ord('힣')]: the Hangul syllables,
    U+AC00 .. U+D7A3. *)
Definition is_hangul_syllable (c : N) : bool :=
  ((44032 <=? c) && (c <=? 55203))%N.

Definition has_korean (text : ustr) : bool := existsb is_hangul_syllable text.

(** [s.strip()] on a sequence of code points. *)
Fixpoint lstrip (s : ustr) : ustr :=
  match s with
  | c :: r => if is_space c then lstrip r else s
  | [] => []
  end.

Definition strip (s : ustr) : ustr := rev (lstrip (rev (lstrip s))).

(** [''.join([char + ' ' for char in korean_name])]. *)
Definition spaced (s : ustr) : ustr := flat_map (fun c => [c; 32%N]) s.

(** [chr(c).upper()] and [s.upper()] for any text. *)
Definition upper_cp (c : N) : list N :=
  if (c <? 256)%N then upper_latin1 c else toupper E c.

Definition upper_ustr (s : ustr) : ustr := flat_map upper_cp s.

Definition translate_korean_to_english_name (korean_name : ustr)
  : M World ustr :=
  try_except
    (if negb (has_korean korean_name) then ret korean_name
     else
       let spaced_korean_name := strip (spaced korean_name) in
       match romanize E spaced_korean_name with
       | Some r => ret (upper_ustr r)
       | None => raise LibraryError
       end)
    (fun _ => LogError "Error translating Korean name" ;; ret korean_name).

(** The newest external sequence number among the items that carry one. *)
Definition last_seq (s : Store) : option Z :=
  foldr (fun it acc =>
           match emr_order_seq it, acc with
           | Some z, Some m => Some (Z.max z m)
           | Some z, None => Some z
           | None, _ => acc
           end) None (worklist_items s).

Definition dtm_truthy (d : dtm_value) : bool :=
  match d with DtmDatetime _ => true | DtmString s => nonempty s end.

(** The four fields an order must carry, when each of them is truthy. *)
Definition required (order : Order) : option (string * ustr * dtm_value * Z) :=
  match PcsChtNum order, PcsPatNam order, PcsOdrDtm order, PcsOdrSeq order with
  | Some cht, Some nam, Some dtm, Some seq =>
      if nonempty cht && truthy_ustr (Some nam) && dtm_truthy dtm
         && negb (seq =? 0)
      then Some (cht, nam, dtm, seq) else None
  | _, _, _, _ => None
  end.

(** [str(order['PcsOdrSeq']).zfill(8)]. *)
Definition accession_of_seq (seq : Z) : string := zfill 8 (str_of_int seq).

(** The body of the loop over the fetched orders; [count] is the running
    number of items added. *)
Definition process_order (order : Order) (count : nat)
  : M (Session * World) nat :=
  match required order with
  | None =>
      liftW (LogWarning "Skipping order with incomplete data") ;; ret count
  | Some (cht, korean_name, dtm, seq) =>
      try_except
        (let! patient := liftS (query (first_patient cht)) in
         match patient with
         | Some _ => ret tt
         | None =>
             let! english_name :=
               liftW (translate_korean_to_english_name korean_name) in
             liftS (add_patient
               {| patient_id := cht;
                  patient_name := korean_name;
                  patient_eng_name := Some english_name;
                  birth_date := PcsBirDte order;
                  sex := PcsSexTyp order |}) ;;
             liftS flush
         end ;;
         let! (appointment_date_, appointment_time_) :=
           match dtm with
           | DtmDatetime d => ret (strftime_Ymd d, strftime_HMS d)
           | DtmString s =>
               match strptime E s with
               | Some dt => ret (strftime_Ymd dt, strftime_HMS dt)
               | None =>
                   liftW (LogWarning "Could not parse date/time") ;;
                   let! d1 := liftW datetime_now in
                   let! d2 := liftW datetime_now in
                   ret (strftime_Ymd d1, strftime_HMS d2)
               end
           end in
         let accession_number_ := accession_of_seq seq in
         let! existing_item :=
           liftS (query (first_item accession_number_)) in
         match existing_item with
         | Some _ =>
             liftW (LogInfo "Skipping existing order") ;; ret count
         | None =>
             (* the key is always present, the default 'OT' never applies *)
             let modality_ := PcsUntCod order in
             let! aets := liftW (get_aets_for_modality modality_) in
             let assigned_aet := head aets in
             liftS (add_item
               {| wl_patient_id := cht;
                  accession_number := accession_number_;
                  appointment_date := appointment_date_;
                  appointment_time := appointment_time_;
                  modality := modality_;
                  aet := assigned_aet;
                  study_instance_uid := None;
                  status := SCHEDULED;
                  emr_order_seq := Some seq |}) ;;
             liftW (LogInfo "Added new order") ;;
             ret (S count)
         end)
        (fun _ =>
           liftW (LogError "Error processing order") ;;
           liftW (LogError "traceback") ;;
           ret count)
  end.

(** [for x in l: acc = body x acc]. *)
Fixpoint for_each {S A B} (l : list A) (body : A -> B -> M S B) (acc : B)
  : M S B :=
  match l with
  | [] => ret acc
  | x :: r => let! acc' := body x acc in for_each r body acc'
  end.

Definition sync_emr_orders : M World nat :=
  if negb EMR_API_AVAILABLE then
    LogWarning "Cannot sync EMR orders: EMR API not available" ;; ret 0%nat
  else
    try_except
      (with_db
         (let! last := liftS (query last_seq) in
          liftW (LogInfo "Last processed order sequence") ;;
          let! fetched :=
            liftW (try_except
                     (let! new_orders := fetch_new_orders last in
                      LogInfo "Fetched new orders from EMR" ;;
                      ret (Some new_orders))
                     (fun _ =>
                        LogError "Error fetching orders from EMR" ;;
                        LogError "traceback" ;;
                        ret None)) in
          match fetched with
          | None => ret 0%nat
          | Some new_orders =>
              let! count := for_each new_orders process_order 0%nat in
              commit ;;
              (if (0 <? count)%nat
               then liftW (LogInfo "Added new orders from EMR")
               else ret tt) ;;
              ret count
          end))
      (fun _ =>
         LogError "Error in sync_emr_orders" ;;
         LogError "traceback" ;;
         ret 0%nat).

(** ** worklist-with-mpps.py *)

Definition getattr {S A} (o : option A) : M S A :=
  match o with Some x => ret x | None => raise AttributeError end.

Definition index0 {S A} (l : list A) : M S A :=
  match l with x :: _ => ret x | [] => raise IndexError end.

(** The body of the loop of [find_worklist] over the rows of the query:
    build the answer for [item] and append it to [worklist_objects]. *)
Definition build_worklist_object (item : Row)
  (worklist_objects : list WorklistDataset)
  : M World (list WorklistDataset) :=
  let name :=
    if eq_opt (r_modality item) "US"
    then r_patient_eng_name item
    else Some (r_patient_name item) in
  let sps :=
    {| sps_Modality := r_modality item;
       ScheduledStationAETitle := r_aet item;
       ScheduledProcedureStepStartDate := r_appointment_date item;
       ScheduledProcedureStepStartTime := r_appointment_time item;
       ScheduledPerformingPhysicianName := "";
       ScheduledProcedureStepDescription := "" |} in
  (* [ds.StudyInstanceUID = v]: pydicom keeps a UID stripped of white space,
     and that is the value read back from [ds.StudyInstanceUID] *)
  let generate :=
    let! uid := new_uid in
    let uid := str_strip uid in
    let! success :=
      update_study_instance_uid (r_accession_number item) uid in
    (if negb success
     then LogWarning "Error updating study UID"
     else LogInfo "Updated study UID") ;;
    ret uid in
  let! uid :=
    match r_study_instance_uid item with
    | Some existing =>
        if nonempty existing then ret (str_strip existing) else generate
    | None => generate
    end in
  ret (app worklist_objects
         [{| PatientName := name;
             PatientID := r_patient_id item;
             SpecificCharacterSet := "ISO_IR 192";
             PatientBirthDate := r_birth_date item;
             PatientSex := r_sex item;
             ScheduledProcedureStepSequence := [sps];
             AccessionNumber := r_accession_number item;
             StudyInstanceUID := uid;
             StudyID := r_accession_number item |}]).

Definition find_worklist (requestedDS : Identifier)
  : M World (list WorklistDataset) :=
  LogInfo "Worklist request" ;;
  try_except
    (let! new_count := sync_emr_orders in
     if (0 <? new_count)%nat
     then LogInfo "Added new orders from EMR during C-FIND"
     else ret tt)
    (fun _ =>
       LogError "Error syncing EMR during C-FIND" ;; LogError "traceback") ;;
  let (sps_date, sps_modality) :=
    match q_ScheduledProcedureStepSequence requestedDS with
    | Some (q0 :: _) =>
        (q_ScheduledProcedureStepStartDate q0, q_Modality q0)
    | _ => (None, None)
    end in
  let accession_number_ :=
    match q_AccessionNumber requestedDS with
    | Some a => Some a
    | None => Some "*"
    end in
  LogInfo "Searching for worklist items" ;;
  let! db_items :=
    get_worklist_items sps_modality sps_date accession_number_ in
  LogInfo "Found worklist items in database" ;;
  let! worklist_objects := for_each db_items build_worklist_object [] in
  LogInfo "Returning worklist objects" ;;
  ret worklist_objects.

(** *** handle_find, a generator

    The handler is a Python generator: nothing of its body runs before the
    first resumption, and each resumption runs up to the next [yield].
    [event.is_cancelled] is read at the resumption. *)
Inductive find_gen :=
| FindStart (identifier : Identifier)          (* created, not yet resumed *)
| FindLoop (rest : list WorklistDataset)       (* suspended in the loop *)
| FindLast                                     (* suspended at a last yield *)
| FindDone.                                    (* returned *)

Definition handle_find (identifier : Identifier) : find_gen :=
  FindStart identifier.

(** One turn of [for instance in dsArray]. *)
Definition find_loop (rest : list WorklistDataset) (is_cancelled : bool)
  : find_gen * option (Z * option WorklistDataset) :=
  match rest with
  | instance :: rest' =>
      if is_cancelled then (FindLast, Some (0xFE00, None))
      else (FindLoop rest', Some (0xFF00, Some instance))
  | [] => (FindLast, Some (0x0000, None))
  end.

(** [next(generator)]: the new generator state and the yielded value,
    [None] for StopIteration. *)
Definition find_next (g : find_gen) (is_cancelled : bool)
  : M World (find_gen * option (Z * option WorklistDataset)) :=
  match g with
  | FindStart ds =>
      try_except
        (LogInfo "C-FIND request received" ;;
         let! dsArray := find_worklist ds in
         ret (find_loop dsArray is_cancelled))
        (fun _ =>
           LogError "Error in handle_find" ;;
           LogError "traceback" ;;
           ret (FindDone, None))
  | FindLoop rest => ret (find_loop rest is_cancelled)
  | FindLast => ret (FindDone, None)
  | FindDone => ret (FindDone, None)
  end.

(** The consumer resumes the generator once for each element of
    [cancelled] (the value of [event.is_cancelled] at that resumption) and
    then abandons it.  Returns the generator left behind and what was
    yielded. *)
Fixpoint consume (g : find_gen) (cancelled : list bool)
  : M World (find_gen * list (Z * option WorklistDataset)) :=
  match cancelled with
  | [] => ret (g, [])
  | c :: cs =>
      let! (g', y) := find_next g c in
      match y with
      | None => ret (g', [])
      | Some v =>
          let! (g'', ys) := consume g' cs in
          ret (g'', v :: ys)
      end
  end.

(** *** handle_create (N-CREATE) and handle_set (N-SET) *)

Record NCreate := {
  AffectedSOPInstanceUID : option string;
  create_attribute_list : Dataset
}.

Record NSet := {
  RequestedSOPInstanceUID : option string;
  set_attribute_list : Dataset
}.

Definition set_ds {W} (f : Dataset -> Dataset) : M (Dataset * W) unit :=
  modify (fun '(ds, w) => (f ds, w)).

Definition with_SOPClassUID (v : string) (ds : Dataset) : Dataset :=
  {| SOPClassUID := Some v; SOPInstanceUID := SOPInstanceUID ds;
     PerformedProcedureStepStatus := PerformedProcedureStepStatus ds;
     ds_Modality := ds_Modality ds;
     ScheduledStepAttributesSequence := ScheduledStepAttributesSequence ds;
     ds_other := ds_other ds |}.

Definition with_SOPInstanceUID (v : string) (ds : Dataset) : Dataset :=
  {| SOPClassUID := SOPClassUID ds; SOPInstanceUID := Some v;
     PerformedProcedureStepStatus := PerformedProcedureStepStatus ds;
     ds_Modality := ds_Modality ds;
     ScheduledStepAttributesSequence := ScheduledStepAttributesSequence ds;
     ds_other := ds_other ds |}.

(** The body of the [try] of [handle_create], over the local dataset [ds].
    [Some r] is a [return r] inside the [try]; [None] falls through to the
    [return 0x0000, ds] after it. *)
Definition handle_create_try (event : NCreate)
  : M (Dataset * World) (option (Z * option Dataset)) :=
  match AffectedSOPInstanceUID event with
  | None =>
      liftW (LogWarning "N-CREATE failed: Missing SOP Instance UID") ;;
      ret (Some (0x0106, None))
  | Some uid =>
      let! managed := liftW (gets managed_instances) in
      match managed !! uid with
      | Some _ =>
          liftW (LogWarning "N-CREATE failed: Duplicate SOP Instance UID") ;;
          ret (Some (0x0111, None))
      | None =>
          let attr_list := create_attribute_list event in
          match PerformedProcedureStepStatus attr_list with
          | None =>
              liftW (LogWarning
                "N-CREATE failed: Missing PerformedProcedureStepStatus") ;;
              ret (Some (0x0120, None))
          | Some st =>
              if negb (bool_decide (upper st = ustr_of_string "IN PROGRESS"))
              then
                liftW (LogWarning "N-CREATE failed: Invalid status") ;;
                ret (Some (0x0106, None))
              else
                set_ds (with_SOPClassUID ModalityPerformedProcedureStep) ;;
                set_ds (with_SOPInstanceUID uid) ;;
                set_ds (fun ds => ds_update ds attr_list) ;;
                let! ds := gets fst in
                let! key := getattr (SOPInstanceUID ds) in
                liftW (modify (fun w =>
                  set_managed (<[key := ds]> (managed_instances w)) w)) ;;
                let! modality_ := getattr (ds_Modality attr_list) in
                let! sequence :=
                  getattr (ScheduledStepAttributesSequence attr_list) in
                let! step := index0 sequence in
                let! accession_number_ := getattr (sa_AccessionNumber step) in
                let! study_instance_uid_ :=
                  getattr (sa_StudyInstanceUID step) in
                liftW (LogInfo "N-CREATE request") ;;
                let! success :=
                  liftW (record_mpps_in_progress
                           uid modality_ accession_number_
                           study_instance_uid_) in
                (if negb success
                 then liftW (LogWarning "Failed to record MPPS in progress")
                 else liftW (LogInfo
                        "Successfully recorded MPPS in progress")) ;;
                ret None
          end
      end
  end.

Definition handle_create (event : NCreate) : M World (Z * option Dataset) :=
  fun w =>
    let '(r, (ds, w')) :=
      try_except (handle_create_try event)
        (fun _ =>
           liftW (LogError "Error in handle_create") ;;
           liftW (LogError "traceback") ;;
           ret None)
        (empty_dataset, w) in
    match r with
    | Ok (Some early) => (Ok early, w')
    | _ => (Ok (0x0000, Some ds), w')
    end.

Definition handle_set (event : NSet) : M World (Z * option Dataset) :=
  let! managed := gets managed_instances in
  match RequestedSOPInstanceUID event with
  | None =>
      LogWarning "N-SET failed: SOP Instance UID not found" ;;
      ret (0x0112, None)
  | Some uid =>
      match managed !! uid with
      | None =>
          LogWarning "N-SET failed: SOP Instance UID not found" ;;
          ret (0x0112, None)
      | Some ds =>
          let mod_list := set_attribute_list event in
          LogInfo "N-SET request received" ;;
          try_except
            (let! (success, accession_number_) :=
               record_mpps_completed uid in
             (if negb success
              then LogWarning "Failed to record MPPS completion"
              else LogInfo "Recorded MPPS completion") ;;
             (* ds is the object held by managed_instances *)
             modify (fun w =>
               set_managed
                 (<[uid := ds_update ds mod_list]> (managed_instances w)) w))
            (fun _ => LogError "Error in handle_set" ;; LogError "traceback") ;;
          let! managed' := gets managed_instances in
          ret (0x0000, managed' !! uid)
      end
  end.

Definition handle_echo : M World Z :=
  LogInfo "C-ECHO request received" ;; ret 0x0000.

End Plugin.

(** ** worklist_model.py: the device mappings

    [load_modality_aets] reads [os.environ]; the environment is given here
    as the list of its items, in the order of the iteration. *)

(** [s.replace(old, '')] for a non-empty [old]: the occurrences of [old],
    found from the left and not overlapping, are removed.  [skip] counts the
    characters of an occurrence still to be dropped. *)
Fixpoint remove_from (old : string) (skip : nat) (s : string) : string :=
  match s with
  | EmptyString => EmptyString
  | String c r =>
      match skip with
      | S k => remove_from old k r
      | O =>
          if String.prefix old s
          then remove_from old (String.length old - 1) r
          else String c (remove_from old 0 r)
      end
  end.

Definition replace_with_empty (old s : string) : string :=
  remove_from old 0 s.

(** [s.split(sep)] for a separator of one character. *)
Fixpoint split_on (sep : ascii) (s : string) : list string :=
  match s with
  | EmptyString => [EmptyString]
  | String c r =>
      if Ascii.eqb c sep then EmptyString :: split_on sep r
      else match split_on sep r with
           | h :: t => String c h :: t
           | [] => [String c EmptyString]
           end
  end.

Definition MODALITY_AET_ : string := "MODALITY_AET_".

(** [db.query(ModalityAET).delete()]. *)
Definition clear_mappings (s : Store) : Store :=
  {| patients := patients s; worklist_items := worklist_items s;
     mpps_tracking := mpps_tracking s; modality_aets := [] |}.

(** [db.add(mapping)]: the table has no constraint a row could violate and
    nothing is read before the commit, so the row is written to the view
    when it is added. *)
Definition add_mapping (m : ModalityAET) (s : Store) : Store :=
  {| patients := patients s; worklist_items := worklist_items s;
     mpps_tracking := mpps_tracking s;
     modality_aets := modality_aets s ++ [m] |}.

Definition load_modality_aets (environ : list (string * string))
  : M World unit :=
  with_db
    (liftS (mutate clear_mappings) ;;
     for_each environ
       (fun kv (_ : unit) =>
          let key := fst kv in
          let value := snd kv in
          if String.prefix MODALITY_AET_ key then
            liftW (LogInfo "Loading modality-AET mapping") ;;
            let modality_ := replace_with_empty MODALITY_AET_ key in
            let aets := split_on "," value in
            for_each aets
              (fun aet_ (_ : unit) =>
                 let mapping :=
                   {| ma_modality := str_strip modality_;
                      ma_aet := str_strip aet_ |} in
                 liftS (mutate (add_mapping mapping)))
              tt
          else ret tt)
       tt ;;
     commit ;;
     liftW (LogInfo "Loaded modality-AET mappings from environment")).

(** * Vocabulary of the statements *)

(** [m] returns from every state (it never raises). *)
Definition total {S A} (m : M S A) : Prop :=
  forall s, exists a s', m s = (Ok a, s').

(** [m] leaves the component [f] of the state as it found it. *)
Definition preserves {S A B} (f : S -> B) (m : M S A) : Prop :=
  forall s, f (snd (m s)) = f s.

(** [wp m Q s]: running [m] from [s] ends, returning or raising, in a
    result and a state that satisfy [Q]. *)
Definition wp {S A} (m : M S A) (Q : result A -> S -> Prop) (s : S) : Prop :=
  Q (fst (m s)) (snd (m s)).

(** A filter value is supplied when it is present and not empty. *)
Definition given (o : option string) : bool := truthy o.

(** An accession number constrains the query when it is supplied and is not
    the wildcard. *)
Definition constrains (accession : option string) : bool :=
  given accession && negb (eq_opt accession "*").

(** "Items whose status is SCHEDULED and that satisfy every supplied
    predicate", on an item joined with its patient. *)
Definition satisfies (modality_ date accession : option string)
  (x : WorklistItem * Patient) : bool :=
  String.eqb (status (fst x)) SCHEDULED
  && (if constrains accession
      then bool_decide (Some (accession_number (fst x)) = accession)
      else true)
  && (if given date
      then bool_decide (Some (appointment_date (fst x)) = date)
      else true)
  && (if given modality_
      then bool_decide (modality (fst x) = modality_)
      else true).







(** The Unicode block of the Hangul syllables, U+AC00 .. U+D7AF. *)
Definition hangul_block (c : N) : Prop := (0xAC00 <= c <= 0xD7AF)%N.

(** Two worlds that differ at most in the log. *)
Definition same_but_log (w w' : World) : Prop :=
  store w' = store w /\ managed_instances w' = managed_instances w
  /\ emr w' = emr w /\ uid_counter w' = uid_counter w
  /\ clock w' = clock w.

(** The best-effort push of a status to the order source, as both recording
    functions write it inline. *)
Definition push_status (o : option Z) (st : string)
  : M (Session * World) unit :=
  if EMR_API_AVAILABLE && truthy_int o
  then
    match o with
    | Some seq =>
        try_except
          (liftW (update_order_status seq st) ;; ret tt)
          (fun _ => liftW (LogError "Failed to update EMR status"))
    | None => ret tt
    end
  else ret tt.

(** The tracking row a start event writes. *)
Definition in_progress_row (uid m a su : string) (t : datetime)
  : MPPSTracking :=
  {| sop_instance_uid := uid; mpps_accession_number := a;
     mpps_study_instance_uid := su; mpps_modality := m;
     mpps_status := IN_PROGRESS; start_time := t; end_time := None |}.

(** The store after a recorded start of step [uid] on accession [a]. *)
Definition started (uid m a su : string) (t : datetime) (s : Store) : Store :=
  set_mpps (mpps_tracking s ++ [in_progress_row uid m a su t])
           (set_item_status a IN_PROGRESS s).

(** The store after a recorded completion of step [uid]. *)
Definition completed (uid : string) (t : datetime) (s : Store) : Store :=
  match first_mpps uid s with
  | Some mpps =>
      let s1 := set_mpps_completed uid t s in
      match first_item (mpps_accession_number mpps) s1 with
      | Some _ => set_item_status (mpps_accession_number mpps) COMPLETED s1
      | None => s1
      end
  | None => s
  end.

(** The status of the item that carries an accession number. *)
Definition item_status (a : string) (s : Store) : option string :=
  option_map status (first_item a s).

Definition new_step (uid : string) (attr_list : Dataset) : Dataset :=
  ds_update
    (with_SOPInstanceUID uid
       (with_SOPClassUID ModalityPerformedProcedureStep empty_dataset))
    attr_list.

Definition step_key (uid : string) (attr_list : Dataset) : string :=
  match SOPInstanceUID attr_list with Some k => k | None => uid end.

Definition step_reference (attr_list : Dataset)
  : option (string * string * string) :=
  match ds_Modality attr_list, ScheduledStepAttributesSequence attr_list with
  | Some m, Some (step :: _) =>
      match sa_AccessionNumber step, sa_StudyInstanceUID step with
      | Some a, Some su => Some (m, a, su)
      | _, _ => None
      end
  | _, _ => None
  end.

(** A text of ASCII characters, and its letters a..z replaced by A..Z. *)
Definition ascii_text (s : string) : Prop :=
  Forall (fun c => (N_of_ascii c < 128)%N) (list_ascii_of_string s).

Definition capital (c : ascii) : ascii :=
  let n := N_of_ascii c in
  if ((97 <=? n) && (n <=? 122))%N then ascii_of_N (n - 32) else c.

Fixpoint capitals (s : string) : string :=
  match s with
  | EmptyString => EmptyString
  | String c r => String (capital c) (capitals r)
  end.

Definition validated_start (ev : NCreate) (w : World) (uid : string) : Prop :=
  AffectedSOPInstanceUID ev = Some uid
  /\ managed_instances w !! uid = None
  /\ exists st, PerformedProcedureStepStatus (create_attribute_list ev) = Some st
                /\ upper st = ustr_of_string "IN PROGRESS".

(** An attribute after an update: the value the modifications carry, the
    value the record had when they carry none. *)
Definition replaced {A} (new old result : option A) : Prop :=
  match new with
  | Some v => result = Some v
  | None => result = old
  end.

(** "The record updated by the supplied modifications": [ds'] has every
    attribute of [mods] with the value it has there, and every other
    attribute as [ds] has it. *)
Definition updated_by (ds mods ds' : Dataset) : Prop :=
  replaced (SOPClassUID mods) (SOPClassUID ds) (SOPClassUID ds')
  /\ replaced (SOPInstanceUID mods) (SOPInstanceUID ds) (SOPInstanceUID ds')
  /\ replaced (PerformedProcedureStepStatus mods)
              (PerformedProcedureStepStatus ds)
              (PerformedProcedureStepStatus ds')
  /\ replaced (ds_Modality mods) (ds_Modality ds) (ds_Modality ds')
  /\ replaced (ScheduledStepAttributesSequence mods)
              (ScheduledStepAttributesSequence ds)
              (ScheduledStepAttributesSequence ds')
  /\ forall k, replaced (ds_other mods !! k) (ds_other ds !! k)
                        (ds_other ds' !! k).

Definition tracked (ev : NSet) (w : World) : option (string * Dataset) :=
  match RequestedSOPInstanceUID ev with
  | Some uid =>
      match managed_instances w !! uid with
      | Some ds => Some (uid, ds)
      | None => None
      end
  | None => None
  end.

Definition status_code {A} (r : result (Z * A)) : option Z :=
  match r with Ok (c, _) => Some c | Raise _ => None end.

Definition sync_inv (s0 : Store) (c : nat) (x : Session * World) : Prop :=
  store (snd x) = s0
  /\ (active (fst x) = true ->
      exists fl,
        worklist_items (view (fst x)) = (worklist_items s0 ++ fl)%list
        /\ (length fl + length (new_items (fst x)) = c)%nat).

Definition fetched (last : option Z) (w : World) : list Order :=
  match emr w with
  | Some rows => map row_order (select_top5 last rows)
  | None => []
  end.

Definition skips (s0 : Store) (o : Order) : Prop :=
  match required o with
  | None => True
  | Some (_, _, _, seq) => has_accession (accession_of_seq seq) s0 = true
  end.

(** The display name of an answer is the name the rule selects from the
    patient [p]. *)
(** [m] keeps the property [P] of the state, whether it returns or raises. *)
Definition keeps {S A} (P : S -> Prop) (m : M S A) : Prop :=
  forall s, P s -> P (snd (m s)).

(** The constraint of the data model: an accession number identifies at
    most one worklist item. *)
Definition unique_accessions (s : Store) : Prop :=
  NoDup (map accession_number (worklist_items s)).

(** The same of the view of a session and of the committed store. *)
Definition unique_in_session (x : Session * World) : Prop :=
  unique_accessions (view (fst x)) /\ unique_accessions (store (snd x)).

Definition display_name_rule (p : Patient) (rec : WorklistDataset) : Prop :=
  patient_id p = PatientID rec
  /\ exists sps,
       ScheduledProcedureStepSequence rec = [sps]
       /\ PatientName rec
          = if bool_decide (sps_Modality sps = Some "US")
            then patient_eng_name p
            else Some (patient_name p).

Definition row_of_patient (ps : list Patient) (row : Row) : Prop :=
  exists p, In p ps
            /\ patient_id p = r_patient_id row
            /\ patient_name p = r_patient_name row
            /\ patient_eng_name p = r_patient_eng_name row.

(** What [handle_find] runs before its loop. *)
Definition run_query (E : Env) (id : Identifier)
  : M World (list WorklistDataset) :=
  LogInfo "C-FIND request received" ;; find_worklist E id.

Definition resumed (g : find_gen) : Prop :=
  match g with FindStart _ => False | _ => True end.

(** Reading an accession number back: Python's [int(s)] on the strings that
    [zfill] produces. *)
Definition int_of_accession (s : string) : option Z :=
  option_map Z.of_int (NilEmpty.int_of_string s).

(** [a] comes before [b] in [ORDER BY PcsOdrSeq DESC]. *)
Definition seq_ge (a b : EmrRow) : Prop := seq_geb a b = true.

(** The rows of the order source that a fetch with cursor [last] may
    return; none when the source cannot be reached. *)
Definition eligible (last : option Z) (w : World) : list EmrRow :=
  List.filter (newer_than last)
    (match emr w with Some rows => rows | None => [] end).

(** The row [r'] is the row [r] after [update_order_status seq st]. *)
Definition row_updated (seq : Z) (st : string) (r r' : EmrRow) : Prop :=
  row_order r' = row_order r
  /\ PcsDelFlg r' = PcsDelFlg r
  /\ PcsStatus r'
     = if bool_decide (PcsOdrSeq (row_order r) = Some seq)
       then Some st else PcsStatus r.

(** The devices mapped to a modality, in table order: the query of
    [get_aets_for_modality]. *)
Definition aets_for (m : option string) (s : Store) : list string :=
  match m with
  | Some m =>
      map ma_aet
        (List.filter (fun x => String.eqb (ma_modality x) m)
                     (modality_aets s))
  | None => []
  end.

(** The value [translate_korean_to_english_name] returns. *)
Definition english_name (E : Env) (name : ustr) : ustr :=
  if has_korean name
  then match romanize E (strip (spaced name)) with
       | Some r => upper_ustr E r
       | None => name
       end
  else name.

(** The appointment date and time taken from the timestamp of an order,
    when it is a [datetime] or a string that parses. *)
Definition appointment_of (E : Env) (dtm : dtm_value) (it : WorklistItem)
  : Prop :=
  match dtm with
  | DtmDatetime d =>
      appointment_date it = strftime_Ymd d
      /\ appointment_time it = strftime_HMS d
  | DtmString s =>
      match strptime E s with
      | Some d =>
          appointment_date it = strftime_Ymd d
          /\ appointment_time it = strftime_HMS d
      | None => True
      end
  end.

(** [it] is the worklist item the synchronization builds from one of the
    orders [L], with the mapping table of [s0]. *)
Definition item_from (E : Env) (L : list Order) (s0 : Store)
  (it : WorklistItem) : Prop :=
  exists o cht nam dtm seq,
    In o L
    /\ required o = Some (cht, nam, dtm, seq)
    /\ wl_patient_id it = cht
    /\ accession_number it = accession_of_seq seq
    /\ emr_order_seq it = Some seq
    /\ status it = SCHEDULED
    /\ study_instance_uid it = None
    /\ modality it = PcsUntCod o
    /\ aet it = head (aets_for (PcsUntCod o) s0)
    /\ appointment_of E dtm it.

(** [p] is the patient the synchronization builds from one of the orders
    [L]. *)
Definition patient_from (E : Env) (L : list Order) (p : Patient) : Prop :=
  exists o cht nam dtm seq,
    In o L
    /\ required o = Some (cht, nam, dtm, seq)
    /\ p = {| patient_id := cht;
              patient_name := nam;
              patient_eng_name := Some (english_name E nam);
              birth_date := PcsBirDte o;
              sex := PcsSexTyp o |}.

(** A patient identifier identifies at most one patient. *)
Definition unique_patients (s : Store) : Prop :=
  NoDup (map patient_id (patients s)).

(** Every worklist item refers to a patient of the store. *)
Definition items_have_patients (s : Store) : Prop :=
  forall it, In it (worklist_items s) ->
             has_patient (wl_patient_id it) s = true.

(** What a run of the synchronization over the orders [L] has made of the
    store [s0]: rows are only appended, to the patients and to the worklist
    items. *)
Definition grown_from (E : Env) (L : list Order) (s0 s : Store) : Prop :=
  mpps_tracking s = mpps_tracking s0
  /\ modality_aets s = modality_aets s0
  /\ (unique_patients s0 -> unique_patients s)
  /\ exists ps fl,
       patients s = (patients s0 ++ ps)%list
       /\ Forall (patient_from E L) ps
       /\ worklist_items s = (worklist_items s0 ++ fl)%list
       /\ Forall (item_from E L s0) fl
       /\ Forall (fun it => has_patient (wl_patient_id it) s = true) fl.

(** The state of the session inside the loop of the synchronization. *)
Definition sync_state (E : Env) (L : list Order) (s0 : Store)
  (x : Session * World) : Prop :=
  store (snd x) = s0
  /\ (active (fst x) = true ->
      new_patients (fst x) = []
      /\ new_mpps (fst x) = []
      /\ grown_from E L s0 (view (fst x))
      /\ Forall (item_from E L s0) (new_items (fst x))
      /\ Forall (fun it =>
                   has_patient (wl_patient_id it) (view (fst x)) = true)
                (new_items (fst x))).

(** The worklist items a run has appended to the store [s]. *)
Definition appended (s s' : Store) (fl : list WorklistItem) : Prop :=
  worklist_items s' = (worklist_items s ++ fl)%list.

(** The answers of the N-CREATE handler. *)
Definition create_codes : list Z := [0x0000; 0x0106; 0x0111; 0x0120].

(** The table of the order source after [UPDATE ... SET PcsStatus = st
    WHERE PcsOdrSeq = seq], when the sequence number [o] of the item is
    truthy. *)
Definition pushed (o : option Z) (st : string) (e : option (list EmrRow))
  : option (list EmrRow) :=
  match o with
  | Some seq =>
      if negb (seq =? 0)
      then option_map
             (map (fun r => if has_seq seq r then set_row_status st r else r))
             e
      else e
  | None => e
  end.

(** The order source [e'] is [e] with the status [st] written to the rows
    of the order [seq]; an unreachable source stays as it is. *)
Definition emr_pushed (seq : Z) (st : string)
  (e e' : option (list EmrRow)) : Prop :=
  match e with
  | Some rows =>
      exists rows', e' = Some rows' /\ Forall2 (row_updated seq st) rows rows'
  | None => e' = None
  end.

(** Two tables of worklist items that differ at most in the status
    column. *)
Definition same_but_status (l l' : list WorklistItem) : Prop :=
  Forall2 (fun it it' => with_status (status it) it' = it) l l'.

(** Two tables of tracking rows that differ at most in the status and the
    end time. *)
Definition same_but_completion (l l' : list MPPSTracking) : Prop :=
  Forall2 (fun m m' =>
             sop_instance_uid m' = sop_instance_uid m
             /\ mpps_accession_number m' = mpps_accession_number m
             /\ mpps_study_instance_uid m' = mpps_study_instance_uid m
             /\ mpps_modality m' = mpps_modality m
             /\ start_time m' = start_time m) l l'.

(** Every key of [m] is a key of [m']. *)
Definition keys_kept (m m' : gmap string Dataset) : Prop :=
  forall k, is_Some (m !! k) -> is_Some (m' !! k).

(** The rows of an answer of [get_worklist_items] that come from one
    worklist item. *)
Definition item_rows (fm fd fa : option string) (ps : list Patient)
  (it : WorklistItem) : list Row :=
  map make_row
    (List.filter (satisfies fm fd fa)
       (map (fun p => (it, p))
            (List.filter
               (fun p => String.eqb (patient_id p) (wl_patient_id it))
               ps))).

(** The row does not carry the accession number [a]. *)
Definition other_than (a : string) (row : Row) : bool :=
  negb (String.eqb (r_accession_number row) a).

(** The text has no white space at either end. *)
Definition stripped (s : string) : Prop := str_strip s = s.

(** The answer [find_worklist] builds from a row of the query and a study
    identifier. *)
Definition answer_of (item : Row) (uid : string) : WorklistDataset :=
  {| PatientName :=
       if eq_opt (r_modality item) "US"
       then r_patient_eng_name item
       else Some (r_patient_name item);
     PatientID := r_patient_id item;
     SpecificCharacterSet := "ISO_IR 192";
     PatientBirthDate := r_birth_date item;
     PatientSex := r_sex item;
     ScheduledProcedureStepSequence :=
       [{| sps_Modality := r_modality item;
           ScheduledStationAETitle := r_aet item;
           ScheduledProcedureStepStartDate := r_appointment_date item;
           ScheduledProcedureStepStartTime := r_appointment_time item;
           ScheduledPerformingPhysicianName := "";
           ScheduledProcedureStepDescription := "" |}];
     AccessionNumber := r_accession_number item;
     StudyInstanceUID := uid;
     StudyID := r_accession_number item |}.

(** The study identifier the store holds for an accession number. *)
Definition stored_uid (a : string) (s : Store) : option string :=
  match first_item a s with
  | Some it => study_instance_uid it
  | None => None
  end.

(** The study identifier of the answer is the one the store holds for its
    accession number, without the white space at its ends. *)
Definition persisted (s : Store) (rec : WorklistDataset) : Prop :=
  option_map str_strip (stored_uid (AccessionNumber rec) s)
  = Some (StudyInstanceUID rec).

(** The answer carries the study identifier the store [s] held for its
    accession number, without the white space at its ends, when the store
    held a non-empty one. *)
Definition reuses (s : Store) (rec : WorklistDataset) : Prop :=
  forall u, stored_uid (AccessionNumber rec) s = Some u -> u <> "" ->
            StudyInstanceUID rec = str_strip u.

(** What one turn of the loop of [find_worklist] does for a row: it answers
    the study identifier of the row, stripped, and leaves the store alone
    when the row has a non-empty one; otherwise it answers a stripped
    identifier and writes it to the item of the row. *)
Definition uid_step (row : Row) (s s' : Store) (uid : string) : Prop :=
  (s' = s
   /\ exists e, r_study_instance_uid row = Some e /\ e <> ""
                /\ uid = str_strip e)
  \/ (s' = set_item_study_uid (r_accession_number row) uid s
      /\ stripped uid
      /\ (r_study_instance_uid row = None
          \/ r_study_instance_uid row = Some "")).

(** The row is the row of an item of the store, with the study identifier
    the store holds. *)
Definition row_in_store (s : Store) (row : Row) : Prop :=
  first_item (r_accession_number row) s <> None
  /\ stored_uid (r_accession_number row) s = r_study_instance_uid row.

(** The pending response that carries one answer. *)
Definition pending (rec : WorklistDataset) : Z * option WorklistDataset :=
  (0xFF00, Some rec).

(** The mappings one environment variable stands for. *)
Definition mappings_of_variable (kv : string * string) : list ModalityAET :=
  if String.prefix MODALITY_AET_ (fst kv)
  then map (fun a =>
              {| ma_modality :=
                   str_strip (replace_with_empty MODALITY_AET_ (fst kv));
                 ma_aet := str_strip a |})
           (split_on "," (snd kv))
  else [].

(** The session [d'] is [d] with the mappings [l] appended to its view. *)
Definition with_mappings (l : list ModalityAET) (d d' : Session) : Prop :=
  modality_aets (view d') = (modality_aets (view d) ++ l)%list
  /\ patients (view d') = patients (view d)
  /\ worklist_items (view d') = worklist_items (view d)
  /\ mpps_tracking (view d') = mpps_tracking (view d)
  /\ new_patients d' = new_patients d
  /\ new_items d' = new_items d
  /\ new_mpps d' = new_mpps d
  /\ active d' = active d.

(** The number of occurrences of a character. *)
Fixpoint count_char (c : ascii) (s : string) : nat :=
  match s with
  | EmptyString => 0
  | String x r => (if Ascii.eqb x c then 1 else 0) + count_char c r
  end.

(** The list does not begin with white space. *)
Definition nonspace_head (l : list ascii) : Prop :=
  match l with
  | c :: _ => is_space (N_of_ascii c) = false
  | [] => True
  end.

(** The devices [get_aets_for_modality] finds for [m] in the mappings of
    one environment variable. *)
Definition aets_of_variable (m : string) (kv : string * string)
  : list string :=
  if String.prefix MODALITY_AET_ (fst kv)
     && String.eqb (str_strip (replace_with_empty MODALITY_AET_ (fst kv))) m
  then map str_strip (split_on "," (snd kv))
  else [].

(** The characters of a name with one blank between each two of them. *)
Fixpoint separated (s : ustr) : ustr :=
  match s with
  | [] => []
  | c :: r =>
      match r with
      | [] => [c]
      | _ :: _ => c :: 32%N :: separated r
      end
  end.

(** The name neither begins nor ends with white space. *)
Definition nonspace_ends (s : ustr) : Prop :=
  (forall c, head s = Some c -> is_space c = false)
  /\ (forall c, last s = Some c -> is_space c = false).

(** The row lies above the cursor of the synchronization; without cursor
    every row does. *)
Definition above_cursor (last : option Z) (r : EmrRow) : Prop :=
  match last with
  | Some l => exists z, PcsOdrSeq (row_order r) = Some z /\ l < z
  | None => True
  end.

(** * Concrete states and events *)

Definition d0 : datetime :=
  {| year := 2025; month := 1; day := 1; hour := 10; minute := 0;
     second := 0 |}.

(** An environment whose romanizer and date parser fail and whose UID
    generator counts. *)
Definition E0 : Env :=
  {| romanize := fun _ => None;
     strptime := fun _ => None;
     generate_uid := fun n => "1.2.826.0.1." ++ str_of_int (Z.of_nat n);
     now := fun _ => d0;
     toupper := fun c => [c] |}.

Definition order42 : Order :=
  {| PcsOdrSeq := Some 42;
     PcsOdrDtm := Some (DtmDatetime d0);
     PcsOrgDtm := None;
     PcsUntCod := Some "CT";
     PcsPatNam := Some (ustr_of_string "JOHN DOE");
     PcsChtNum := Some "P1";
     PcsBirDte := None;
     PcsSexTyp := None |}.

Definition emr_row (o : Order) : EmrRow :=
  {| row_order := o; PcsDelFlg := "N"; PcsStatus := None |}.

Definition empty_store : Store :=
  {| patients := []; worklist_items := []; mpps_tracking := [];
     modality_aets := [] |}.

Definition world_of (s : Store) (rows : option (list EmrRow)) : World :=
  {| store := s; managed_instances := ∅; emr := rows;
     uid_counter := 0; clock := 0; log := [] |}.

Definition patient1 : Patient :=
  {| patient_id := "P1"; patient_name := ustr_of_string "JOHN DOE";
     patient_eng_name := Some (ustr_of_string "JOHN DOE");
     birth_date := None; sex := None |}.

Definition item_of (acc : string) (seq : Z) : WorklistItem :=
  {| wl_patient_id := "P1"; accession_number := acc;
     appointment_date := "20250101"; appointment_time := "100000";
     modality := Some "CT"; aet := None; study_instance_uid := None;
     status := SCHEDULED; emr_order_seq := Some seq |}.

Definition store1 : Store :=
  {| patients := [patient1]; worklist_items := [item_of "00000042" 42];
     mpps_tracking := []; modality_aets := [] |}.

(** An item entered by hand: it carries no external sequence number. *)
Definition store_sample : Store :=
  {| patients := [patient1];
     worklist_items :=
       [{| wl_patient_id := "P1"; accession_number := "00000042";
           appointment_date := "20250101"; appointment_time := "100000";
           modality := Some "CT"; aet := None; study_instance_uid := None;
           status := SCHEDULED; emr_order_seq := None |}];
     mpps_tracking := []; modality_aets := [] |}.

Definition store2 : Store :=
  {| patients := [patient1];
     worklist_items := [item_of "00000042" 42; item_of "00000043" 43];
     mpps_tracking := []; modality_aets := [] |}.

Definition start_attributes : Dataset :=
  {| SOPClassUID := None; SOPInstanceUID := None;
     PerformedProcedureStepStatus := Some "in progress";
     ds_Modality := Some "CT";
     ScheduledStepAttributesSequence :=
       Some [{| sa_AccessionNumber := Some "00000042";
                sa_StudyInstanceUID := Some "1.2.840.1" |}];
     ds_other := ∅ |}.

Definition start_event : NCreate :=
  {| AffectedSOPInstanceUID := Some "1.2.3";
     create_attribute_list := start_attributes |}.

Definition complete_event : NSet :=
  {| RequestedSOPInstanceUID := Some "1.2.3";
     set_attribute_list := empty_dataset |}.

Definition any_query : Identifier :=
  {| q_ScheduledProcedureStepSequence := None; q_AccessionNumber := None |}.

(** The accession numbers of the items whose study identifier differs
    between two states of the table. *)
Definition written (s s' : Store) : list string :=
  map (fun x => accession_number (snd x))
    (List.filter
       (fun x => negb (bool_decide (study_instance_uid (fst x)
                                    = study_instance_uid (snd x))))
       (combine (worklist_items s) (worklist_items s'))).

Definition yielded_accessions (ys : list (Z * option WorklistDataset))
  : list string :=
  flat_map (fun y => match snd y with
                     | Some rec => [AccessionNumber rec]
                     | None => []
                     end) ys.

(** C6 as the specification states it: after the resumptions [cancelled],
    a study identifier has been written only for records that were yielded. *)
Definition writes_confined_to_yielded (E : Env) (id : Identifier)
  (cancelled : list bool) (w : World) : Prop :=
  let run := consume E (handle_find id) cancelled w in
  incl (written (store w) (store (snd run)))
       (yielded_accessions
          (match fst run with Ok (_, ys) => ys | Raise _ => [] end)).

Definition order43 : Order :=
  {| PcsOdrSeq := Some 43;
     PcsOdrDtm := Some (DtmDatetime d0);
     PcsOrgDtm := None;
     PcsUntCod := Some "CT";
     PcsPatNam := Some (ustr_of_string "JOHN DOE");
     PcsChtNum := Some "P1";
     PcsBirDte := None;
     PcsSexTyp := None |}.

(** A start event whose attribute list carries a SOPInstanceUID of its
    own. *)
Definition renamed_start_event : NCreate :=
  {| AffectedSOPInstanceUID := Some "1.2.3";
     create_attribute_list := with_SOPInstanceUID "9.9.9" start_attributes |}.

(** The two Hangul syllables U+AE40 U+CCA0. *)
Definition korean_name : ustr := [44608%N; 52384%N].

(** An environment whose romanizer answers "gim" and the two letters U+E9
    and U+DF, in lower case. *)
Definition E1 : Env :=
  {| romanize := fun _ => Some [103; 105; 109; 32; 233; 223]%N;
     strptime := fun _ => None;
     generate_uid := fun n => "1.2.826.0.1." ++ str_of_int (Z.of_nat n);
     now := fun _ => d0;
     toupper := fun c => [c] |}.

(** A start event for item 00000042 with the given instance identifier and
    status attribute. *)
Definition start_with (uid st : option string) : NCreate :=
  {| AffectedSOPInstanceUID := uid;
     create_attribute_list :=
       {| SOPClassUID := None; SOPInstanceUID := None;
          PerformedProcedureStepStatus := st;
          ds_Modality := Some "CT";
          ScheduledStepAttributesSequence :=
            Some [{| sa_AccessionNumber := Some "00000042";
                     sa_StudyInstanceUID := Some "1.2.840.1" |}];
          ds_other := ∅ |} |}.

(** The status "in progre" followed by the sharp s U+DF. *)
Definition sharp_s_status : string :=
  "in progre" ++ String (ascii_of_N 223) EmptyString.

(** The modifications of a completion: the status and the end date. *)
Definition completion_mods : Dataset :=
  {| SOPClassUID := None; SOPInstanceUID := None;
     PerformedProcedureStepStatus := Some "COMPLETED";
     ds_Modality := None; ScheduledStepAttributesSequence := None;
     ds_other := {[ "PerformedProcedureStepEndDate" := "20250101" ]} |}.

Definition complete_event_mods : NSet :=
  {| RequestedSOPInstanceUID := Some "1.2.3";
     set_attribute_list := completion_mods |}.

(** The store a restarted plugin finds: step 1.2.3 was started for item
    00000043 before the restart, and item 00000042 is still SCHEDULED. *)
Definition store_restarted : Store :=
  {| patients := [patient1];
     worklist_items :=
       [item_of "00000042" 42;
        with_status IN_PROGRESS (item_of "00000043" 43)];
     mpps_tracking := [in_progress_row "1.2.3" "CT" "00000043" "1.2.840.1" d0];
     modality_aets := [] |}.

(** Item 00000042 after a completed step. *)
Definition store_done : Store :=
  {| patients := [patient1];
     worklist_items := [with_status COMPLETED (item_of "00000042" 42)];
     mpps_tracking := []; modality_aets := [] |}.


(** Item 00000042 holds a study identifier with a blank at each end, item
    00000043 holds none. *)
Definition store_spaced : Store :=
  {| patients := [patient1];
     worklist_items :=
       [{| wl_patient_id := "P1"; accession_number := "00000042";
           appointment_date := "20250101"; appointment_time := "100000";
           modality := Some "CT"; aet := None;
           study_instance_uid := Some " 1.9.1 ";
           status := SCHEDULED; emr_order_seq := Some 42 |};
        item_of "00000043" 43];
     mpps_tracking := []; modality_aets := [] |}.

(** An order of the year 999 for a patient with a Hangul name. *)
Definition order_999 : Order :=
  {| PcsOdrSeq := Some 7;
     PcsOdrDtm := Some (DtmDatetime
                          {| year := 999; month := 1; day := 2; hour := 3;
                             minute := 4; second := 5 |});
     PcsOrgDtm := None;
     PcsUntCod := Some "CT";
     PcsPatNam := Some korean_name;
     PcsChtNum := Some "P7";
     PcsBirDte := None;
     PcsSexTyp := None |}.


(** C2 as the specification states it: a validated start and the validated
    complete for the same identifier move the owning item, SCHEDULED before
    them, to IN PROGRESS and then to COMPLETED. *)
Definition lifecycle_in_order (E : Env) (ev : NCreate) (mods : Dataset)
  (w : World) : Prop :=
  forall (uid m a su : string) (it : WorklistItem),
    validated_start ev w uid ->
    step_reference (create_attribute_list ev) = Some (m, a, su) ->
    first_item a (store w) = Some it ->
    status it = SCHEDULED ->
    let w1 := snd (handle_create E ev w) in
    let complete :=
      {| RequestedSOPInstanceUID := Some uid; set_attribute_list := mods |} in
    let w2 := snd (handle_set E complete w1) in
    tracked complete w1 <> None ->
    map (item_status a) [store w; store w1; store w2]
    = [Some SCHEDULED; Some IN_PROGRESS; Some COMPLETED].

(** * Properties *)

(** ** The monad: totality and frames *)

Lemma total_ret {S A} (a : A) : total (@ret S A a).
Proof. intros s. exists a, s. reflexivity. Qed.

Lemma total_gets {S A} (f : S -> A) : total (gets f).
Proof. intros s. exists (f s), s. reflexivity. Qed.

Lemma total_modify {S} (f : S -> S) : total (modify f).
Proof. intros s. exists tt, (f s). reflexivity. Qed.

Lemma total_bind {S A B} (m : M S A) (k : A -> M S B) :
  total m -> (forall a, total (k a)) -> total (bind m k).
Proof.
  intros Hm Hk s. destruct (Hm s) as (a & s' & Ha).
  destruct (Hk a s') as (b & s'' & Hb).
  exists b, s''. unfold bind. rewrite Ha. exact Hb.
Qed.

Lemma total_try_except {S A} (m : M S A) (h : exn -> M S A) :
  (forall e, total (h e)) -> total (try_except m h).
Proof.
  intros Hh s. unfold try_except.
  destruct (m s) as [[a | e] s'].
  - exists a, s'. reflexivity.
  - apply Hh.
Qed.

Lemma total_liftW {L A} (m : M World A) : total m -> total (@liftW L A m).
Proof.
  intros Hm [l w]. destruct (Hm w) as (a & w' & Ha).
  exists a, (l, w'). unfold liftW. rewrite Ha. reflexivity.
Qed.

Lemma total_with_local {L A} (init : World -> L) (m : M (L * World) A) :
  total m -> total (with_local init m).
Proof.
  intros Hm w. destruct (Hm (init w, w)) as (a & [l w'] & Ha).
  exists a, w'. unfold with_local. rewrite Ha. reflexivity.
Qed.

Lemma total_Log (l : level) (msg : string) : total (orthanc_Log l msg).
Proof. apply total_modify. Qed.

Lemma preserves_ret {S A B} (f : S -> B) (a : A) : preserves f (ret a).
Proof. intros s. reflexivity. Qed.

Lemma preserves_raise {S A B} (f : S -> B) (e : exn) :
  preserves f (@raise S A e).
Proof. intros s. reflexivity. Qed.

Lemma preserves_gets {S A B} (f : S -> B) (g : S -> A) : preserves f (gets g).
Proof. intros s. reflexivity. Qed.

Lemma preserves_bind {S A B C} (f : S -> C) (m : M S A) (k : A -> M S B) :
  preserves f m -> (forall a, preserves f (k a)) -> preserves f (bind m k).
Proof.
  intros Hm Hk s. unfold bind. specialize (Hm s).
  destruct (m s) as [[a | e] s']; simpl in *.
  - rewrite Hk. exact Hm.
  - exact Hm.
Qed.

Lemma preserves_try_except {S A C} (f : S -> C) (m : M S A)
  (h : exn -> M S A) :
  preserves f m -> (forall e, preserves f (h e)) ->
  preserves f (try_except m h).
Proof.
  intros Hm Hh s. unfold try_except. specialize (Hm s).
  destruct (m s) as [[a | e] s']; simpl in *.
  - exact Hm.
  - rewrite Hh. exact Hm.
Qed.

Lemma preserves_liftW {L A C} (f : World -> C) (m : M World A) :
  preserves f m -> preserves (fun x : L * World => f (snd x)) (liftW m).
Proof.
  intros Hm [l w]. unfold liftW. specialize (Hm w).
  destruct (m w) as [r w']. exact Hm.
Qed.

Lemma preserves_liftS {A C} (f : World -> C) (m : M Session A) :
  preserves (fun x : Session * World => f (snd x)) (liftS m).
Proof. intros [d w]. unfold liftS. destruct (m d) as [r d']. reflexivity. Qed.

Lemma preserves_with_local {L A C} (f : World -> C) (init : World -> L)
  (m : M (L * World) A) :
  preserves (fun x : L * World => f (snd x)) m ->
  preserves f (with_local init m).
Proof.
  intros Hm w. unfold with_local. specialize (Hm (init w, w)).
  destruct (m (init w, w)) as [r [l w']]. exact Hm.
Qed.

Lemma preserves_match_option {S A B C} (f : S -> C) (o : option A)
  (m1 : A -> M S B) (m2 : M S B) :
  (forall a, preserves f (m1 a)) -> preserves f m2 ->
  preserves f (match o with Some a => m1 a | None => m2 end).
Proof. intros H1 H2. destruct o; auto. Qed.

Lemma preserves_if {S B C} (f : S -> C) (b : bool) (m1 m2 : M S B) :
  preserves f m1 -> preserves f m2 -> preserves f (if b then m1 else m2).
Proof. intros H1 H2. destruct b; auto. Qed.

Lemma total_match_option {S A B} (o : option A) (m1 : A -> M S B)
  (m2 : M S B) :
  (forall a, total (m1 a)) -> total m2 ->
  total (match o with Some a => m1 a | None => m2 end).
Proof. intros H1 H2. destruct o; auto. Qed.

Lemma total_if {S B} (b : bool) (m1 m2 : M S B) :
  total m1 -> total m2 -> total (if b then m1 else m2).
Proof. intros H1 H2. destruct b; auto. Qed.


(** ** The monad: weakest preconditions *)

Lemma wp_ret {S A} (a : A) (Q : result A -> S -> Prop) (s : S) :
  Q (Ok a) s -> wp (ret a) Q s.
Proof. exact id. Qed.

Lemma wp_raise {S A} (e : exn) (Q : result A -> S -> Prop) (s : S) :
  Q (Raise e) s -> wp (raise e) Q s.
Proof. exact id. Qed.

Lemma wp_gets {S A} (f : S -> A) (Q : result A -> S -> Prop) (s : S) :
  Q (Ok (f s)) s -> wp (gets f) Q s.
Proof. exact id. Qed.

Lemma wp_modify {S} (f : S -> S) (Q : result unit -> S -> Prop) (s : S) :
  Q (Ok tt) (f s) -> wp (modify f) Q s.
Proof. exact id. Qed.

Lemma wp_bind {S A B} (m : M S A) (k : A -> M S B)
  (Q : result B -> S -> Prop) (s : S) :
  wp m (fun r s' => match r with
                    | Ok a => wp (k a) Q s'
                    | Raise e => Q (Raise e) s'
                    end) s ->
  wp (bind m k) Q s.
Proof. unfold wp, bind. destruct (m s) as [[a | e] s']; exact id. Qed.

Lemma wp_try_except {S A} (m : M S A) (h : exn -> M S A)
  (Q : result A -> S -> Prop) (s : S) :
  wp m (fun r s' => match r with
                    | Ok a => Q (Ok a) s'
                    | Raise e => wp (h e) Q s'
                    end) s ->
  wp (try_except m h) Q s.
Proof. unfold wp, try_except. destruct (m s) as [[a | e] s']; exact id. Qed.

Lemma wp_liftW {L A} (m : M World A) (Q : result A -> L * World -> Prop)
  (l : L) (w : World) :
  wp m (fun r w' => Q r (l, w')) w -> wp (liftW m) Q (l, w).
Proof. unfold wp, liftW. destruct (m w) as [r w']. exact id. Qed.

Lemma wp_liftS {A} (m : M Session A) (Q : result A -> Session * World -> Prop)
  (d : Session) (w : World) :
  wp m (fun r d' => Q r (d', w)) d -> wp (liftS m) Q (d, w).
Proof. unfold wp, liftS. destruct (m d) as [r d']. exact id. Qed.

Lemma wp_with_local {L A} (init : World -> L) (m : M (L * World) A)
  (Q : result A -> World -> Prop) (w : World) :
  wp m (fun r x => Q r (snd x)) (init w, w) -> wp (with_local init m) Q w.
Proof.
  unfold wp, with_local. destruct (m (init w, w)) as [r [l w']]. exact id.
Qed.

Lemma wp_mono {S A} (m : M S A) (Q Q' : result A -> S -> Prop) (s : S) :
  (forall r s', Q r s' -> Q' r s') -> wp m Q s -> wp m Q' s.
Proof. unfold wp. auto. Qed.

(** A computation that always returns needs its postcondition on returns
    only. *)
Lemma wp_total {S A} (m : M S A) (Q : result A -> S -> Prop) (s : S) :
  total m ->
  (forall a s', m s = (Ok a, s') -> Q (Ok a) s') ->
  wp m Q s.
Proof.
  intros Ht H. destruct (Ht s) as (a & s' & Ha). unfold wp.
  rewrite Ha. apply H, Ha.
Qed.

Lemma wp_run {S A} (m : M S A) (Q : result A -> S -> Prop) (s : S)
  (r : result A) (s' : S) :
  m s = (r, s') -> wp m Q s -> Q r s'.
Proof. unfold wp. intros ->. exact id. Qed.

Lemma wp_Log (l : level) (msg : string) (Q : result unit -> World -> Prop)
  (w : World) :
  Q (Ok tt) (add_log l msg w) -> wp (orthanc_Log l msg) Q w.
Proof. exact id. Qed.

Lemma wp_query {A} (f : Store -> A) (Q : result A -> Session -> Prop)
  (d : Session) :
  (active d = true -> Q (Ok (f (view d))) d) ->
  (active d = false -> Q (Raise PendingRollbackError) d) ->
  wp (query f) Q d.
Proof. unfold wp, query. destruct (active d); auto. Qed.

Lemma wp_flush (Q : result unit -> Session -> Prop) (d : Session) :
  (active d = false -> Q (Raise PendingRollbackError) d) ->
  (active d = true -> forall s, flush_rows d = Some s ->
                                Q (Ok tt) (session_begin s)) ->
  (active d = true -> flush_rows d = None ->
   Q (Raise IntegrityError) (deactivate d)) ->
  wp flush Q d.
Proof.
  unfold wp, flush. intros H1 H2 H3. destruct (active d); [| auto].
  destruct (flush_rows d) eqn:Hf; simpl; auto.
Qed.

Ltac frame_step :=
  first
    [ apply preserves_ret
    | apply preserves_raise
    | apply preserves_gets
    | apply preserves_liftS
    | apply preserves_liftW
    | apply preserves_with_local
    | apply preserves_bind; [ | intros ? ]
    | apply preserves_try_except; [ | intros ? ]
    | match goal with
      | |- preserves _ (match ?x with _ => _ end) => destruct x
      | |- preserves _ (let (_, _) := ?x in _) => destruct x
      end
    | assumption ].

Ltac frame := repeat frame_step; try (intros ?; reflexivity).

Ltac total_step :=
  first
    [ apply total_ret
    | apply total_gets
    | apply total_modify
    | apply total_Log
    | apply total_liftW
    | apply total_with_local
    | apply total_try_except; intros ?
    | apply total_bind; [ | intros ? ]
    | match goal with
      | |- total (match ?x with _ => _ end) => destruct x
      | |- total (let (_, _) := ?x in _) => destruct x
      end
    | assumption ].

Ltac totality := repeat total_step.

(** ** Strings *)

Lemma nonempty_true (s : string) : nonempty s = true <-> s <> "".
Proof.
  unfold nonempty. rewrite negb_true_iff. apply String.eqb_neq.
Qed.

Lemma eq_opt_true (o : option string) (s : string) :
  eq_opt o s = true <-> o = Some s.
Proof.
  destruct o as [t |]; simpl.
  - rewrite String.eqb_eq. split; [intros -> | intros [= ->]]; reflexivity.
  - split; discriminate.
Qed.

(** ** Sessions *)

Lemma insert_all_nil {A} (ins : A -> Store -> option Store) (s : Store) :
  insert_all ins [] s = Some s.
Proof. reflexivity. Qed.

Lemma flush_rows_nothing_pending (s : Store) :
  flush_rows (session_begin s) = Some s.
Proof. reflexivity. Qed.

Lemma insert_patient_items (p : Patient) (s s' : Store) :
  insert_patient p s = Some s' -> worklist_items s' = worklist_items s.
Proof.
  unfold insert_patient. destruct (has_patient _ _); [discriminate |].
  intros [= <-]. reflexivity.
Qed.

Lemma insert_mpps_items (m : MPPSTracking) (s s' : Store) :
  insert_mpps m s = Some s' -> worklist_items s' = worklist_items s.
Proof.
  unfold insert_mpps. destruct (has_sop _ _); [discriminate |].
  intros [= <-]. reflexivity.
Qed.

Lemma insert_item_items (it : WorklistItem) (s s' : Store) :
  insert_item it s = Some s' ->
  worklist_items s' = (worklist_items s ++ [it])%list.
Proof.
  unfold insert_item. destruct (modality it); [| discriminate].
  destruct (has_accession _ _); [discriminate |].
  intros [= <-]. reflexivity.
Qed.

Lemma insert_all_items {A} (ins : A -> Store -> option Store)
  (grow : A -> list WorklistItem) (l : list A) :
  (forall x s s', ins x s = Some s' ->
                  worklist_items s' = (worklist_items s ++ grow x)%list) ->
  forall s s', insert_all ins l s = Some s' ->
               worklist_items s' = (worklist_items s ++ flat_map grow l)%list.
Proof.
  intros Hins. induction l as [| x r IH]; intros s s'; simpl.
  - intros [= <-]. rewrite app_nil_r. reflexivity.
  - destruct (ins x s) as [s1 |] eqn:Hx; [| discriminate].
    intros Hr. rewrite (IH _ _ Hr), (Hins _ _ _ Hx), <- app_assoc.
    reflexivity.
Qed.

(** A successful flush appends exactly the pending items to the table. *)
Lemma flush_rows_items (d : Session) (s' : Store) :
  flush_rows d = Some s' ->
  worklist_items s' = (worklist_items (view d) ++ new_items d)%list.
Proof.
  unfold flush_rows.
  destruct (insert_all insert_patient _ _) as [s1 |] eqn:H1; [| discriminate].
  destruct (insert_all insert_item _ _) as [s2 |] eqn:H2; [| discriminate].
  intros H3.
  apply (insert_all_items _ (fun _ => [])) in H1;
    [| intros x s0 s0' Hx; rewrite (insert_patient_items _ _ _ Hx), app_nil_r;
       reflexivity ].
  apply (insert_all_items _ (fun it => [it])) in H2;
    [| exact insert_item_items ].
  apply (insert_all_items _ (fun _ => [])) in H3;
    [| intros x s0 s0' Hx; rewrite (insert_mpps_items _ _ _ Hx), app_nil_r;
       reflexivity ].
  rewrite H3, H2, H1.
  assert (Hnil : forall (B : Type) (l : list B),
             flat_map (fun _ : B => @nil WorklistItem) l = []).
  { intros B l. induction l; simpl; auto. }
  assert (Hid : forall l : list WorklistItem,
             flat_map (fun it => [it]) l = l).
  { intros l. induction l as [| y r IHr]; simpl; [| rewrite IHr]; auto. }
  rewrite !Hnil, Hid, !app_nil_r. reflexivity.
Qed.

Lemma filter_filter_andb {A} (f g : A -> bool) (l : list A) :
  List.filter f (List.filter g l) = List.filter (fun x => g x && f x) l.
Proof.
  induction l as [| x r IH]; simpl; [reflexivity |].
  destruct (g x); simpl; [destruct (f x) |]; rewrite IH; reflexivity.
Qed.

Lemma filter_ext_bool {A} (f g : A -> bool) (l : list A) :
  (forall x, f x = g x) -> List.filter f l = List.filter g l.
Proof.
  intros H. induction l as [| x r IH]; simpl; [reflexivity |].
  rewrite H, IH. reflexivity.
Qed.

(** ** The statements of the specification, in its own words *)

Section Properties.

Context (E : Env).

(** ** Name transliteration *)

Lemma has_korean_false_iff (text : ustr) :
  has_korean text = false <->
  forall c, In c text -> ~ (0xAC00 <= c <= 0xD7A3)%N.
Proof.
  unfold has_korean, is_hangul_syllable. induction text as [| c r IH]; simpl.
  - split; [intros _ c [] | reflexivity].
  - rewrite orb_false_iff, IH. split.
    + intros [Hc Hr] x [<- | Hx]; [| auto].
      apply andb_false_iff in Hc. rewrite !N.leb_gt in Hc. lia.
    + intros H. split; [| intros x Hx; apply H; auto].
      specialize (H c (or_introl eq_refl)).
      apply andb_false_iff. rewrite !N.leb_gt. lia.
Qed.

Lemma no_hangul_has_korean (text : ustr) :
  (forall c, In c text -> ~ hangul_block c) -> has_korean text = false.
Proof.
  intros H. apply has_korean_false_iff. intros c Hc Hr.
  apply (H c Hc). unfold hangul_block. lia.
Qed.

Lemma translate_total (name : ustr) :
  total (translate_korean_to_english_name E name).
Proof. unfold translate_korean_to_english_name. totality. Qed.

Lemma translate_value (name : ustr) (w : World) :
  fst (translate_korean_to_english_name E name w) =
  Ok (if has_korean name
      then match romanize E (strip (spaced name)) with
           | Some r => upper_ustr E r
           | None => name
           end
      else name).
Proof.
  unfold translate_korean_to_english_name, try_except.
  destruct (has_korean name); simpl; [| reflexivity].
  destruct (romanize E _); reflexivity.
Qed.

Lemma translate_same_but_log (name : ustr) (w : World) :
  same_but_log w (snd (translate_korean_to_english_name E name w)).
Proof.
  unfold translate_korean_to_english_name, try_except, same_but_log.
  destruct (has_korean name); simpl; [| tauto].
  destruct (romanize E _); simpl; tauto.
Qed.

(** C7. A name without any character of the Hangul block comes back
    unchanged and the world is left as it was (so "SMITH" stays "SMITH");
    the result depends on the name only, never on the state; the function
    never raises, touches nothing but the log, and when the romanizer fails
    it returns the name it was given. *)
Theorem translate_plain_name_unchanged :
  (forall (name : ustr) (w : World),
      (forall c, In c name -> ~ hangul_block c) ->
      translate_korean_to_english_name E name w = (Ok name, w))
  /\ (forall w : World,
        translate_korean_to_english_name E (ustr_of_string "SMITH") w
        = (Ok (ustr_of_string "SMITH"), w))
  /\ (forall (name : ustr) (w1 w2 : World),
        fst (translate_korean_to_english_name E name w1)
        = fst (translate_korean_to_english_name E name w2))
  /\ (forall (name : ustr) (w : World),
        exists v,
          fst (translate_korean_to_english_name E name w) = Ok v
          /\ same_but_log w (snd (translate_korean_to_english_name E name w))
          /\ (romanize E (strip (spaced name)) = None -> v = name)).
Proof.
  assert (Hplain : forall name w, has_korean name = false ->
            translate_korean_to_english_name E name w = (Ok name, w)).
  { intros name w H. unfold translate_korean_to_english_name, try_except.
    rewrite H. reflexivity. }
  split; [| split; [| split]].
  - intros name w H. apply Hplain, no_hangul_has_korean, H.
  - intros w. apply Hplain. reflexivity.
  - intros name w1 w2. rewrite !translate_value. reflexivity.
  - intros name w. eexists. split; [apply translate_value |].
    split; [apply translate_same_but_log |].
    intros ->. destruct (has_korean name); reflexivity.
Qed.

(** ** The worklist query *)

Lemma select_worklist_items_satisfies (m d a : option string) (s : Store) :
  select_worklist_items m d a s
  = map (make_row) (List.filter (satisfies m d a) (join_patient s)).
Proof.
  unfold select_worklist_items. f_equal.
  assert (Hacc :
    match a with
    | Some a0 =>
        if nonempty a0 && negb (String.eqb a0 "*")
        then List.filter
               (fun x => String.eqb (accession_number (fst x)) a0)
               (List.filter (is_scheduled) (join_patient s))
        else List.filter (is_scheduled) (join_patient s)
    | None => List.filter (is_scheduled) (join_patient s)
    end
    = List.filter
        (fun x => String.eqb (status (fst x)) SCHEDULED
                  && (if constrains a
                      then bool_decide (Some (accession_number (fst x)) = a)
                      else true))
        (join_patient s)).
  { unfold constrains, given, is_scheduled, SCHEDULED.
    destruct a as [a0 |]; simpl.
    - destruct (nonempty a0 && negb (String.eqb a0 "*")); simpl.
      + rewrite filter_filter_andb. apply filter_ext_bool. intros x.
        f_equal. destruct (String.eqb_spec (accession_number (fst x)) a0).
        * subst. rewrite bool_decide_eq_true_2; reflexivity.
        * rewrite bool_decide_eq_false_2; [reflexivity | congruence].
      + apply filter_ext_bool. intros x. rewrite andb_true_r. reflexivity.
    - apply filter_ext_bool. intros x. rewrite andb_true_r. reflexivity. }
  rewrite Hacc. clear Hacc.
  assert (Hdate : forall (f : WorklistItem * Patient -> bool) l,
    match d with
    | Some d0 =>
        if nonempty d0
        then List.filter
               (fun x => String.eqb (appointment_date (fst x)) d0)
               (List.filter f l)
        else List.filter f l
    | None => List.filter f l
    end
    = List.filter
        (fun x => f x
                  && (if given d
                      then bool_decide (Some (appointment_date (fst x)) = d)
                      else true)) l).
  { intros f l. unfold given. destruct d as [d0 |]; simpl.
    - destruct (nonempty d0).
      + rewrite filter_filter_andb. apply filter_ext_bool. intros x.
        f_equal. destruct (String.eqb_spec (appointment_date (fst x)) d0).
        * subst. rewrite bool_decide_eq_true_2; reflexivity.
        * rewrite bool_decide_eq_false_2; [reflexivity | congruence].
      + apply filter_ext_bool. intros x. rewrite andb_true_r. reflexivity.
    - apply filter_ext_bool. intros x. rewrite andb_true_r. reflexivity. }
  rewrite Hdate. clear Hdate.
  unfold satisfies, given. destruct m as [m0 |]; simpl.
  - destruct (nonempty m0).
    + rewrite filter_filter_andb. apply filter_ext_bool. intros x.
      f_equal. destruct (eq_opt (modality (fst x)) m0) eqn:Hm.
      * apply eq_opt_true in Hm. rewrite bool_decide_eq_true_2; auto.
      * rewrite bool_decide_eq_false_2; [reflexivity |].
        intros H. apply eq_opt_true in H. congruence.
    + apply filter_ext_bool. intros x. rewrite andb_true_r. reflexivity.
  - apply filter_ext_bool. intros x. rewrite andb_true_r. reflexivity.
Qed.

Lemma get_worklist_items_run (m d a : option string) (w : World) :
  get_worklist_items m d a w
  = (Ok (select_worklist_items m d a (store w)), w).
Proof. reflexivity. Qed.





(** ** Symbolic execution of the plugin's primitives *)

Lemma wp_now (Q : result datetime -> World -> Prop) (w : World) :
  Q (Ok (now E (clock w))) (tick_clock w) -> wp (datetime_now E) Q w.
Proof. exact id. Qed.

Lemma wp_new_uid (Q : result string -> World -> Prop) (w : World) :
  Q (Ok (generate_uid E (uid_counter w))) (tick_uid w) -> wp (new_uid E) Q w.
Proof. exact id. Qed.

Lemma wp_set_ds {W} (f : Dataset -> Dataset)
  (Q : result unit -> Dataset * W -> Prop) (ds : Dataset) (w : W) :
  Q (Ok tt) (f ds, w) -> wp (set_ds f) Q (ds, w).
Proof. exact id. Qed.

Lemma wp_getattr {S A} (o : option A) (Q : result A -> S -> Prop) (s : S) :
  match o with
  | Some x => Q (Ok x) s
  | None => Q (Raise AttributeError) s
  end ->
  wp (getattr o) Q s.
Proof. destruct o; exact id. Qed.

Lemma wp_index0 {S A} (l : list A) (Q : result A -> S -> Prop) (s : S) :
  match l with
  | x :: _ => Q (Ok x) s
  | [] => Q (Raise IndexError) s
  end ->
  wp (index0 l) Q s.
Proof. destruct l; exact id. Qed.

Ltac wp_step :=
  lazymatch goal with
  | |- wp (ret _) _ _ => apply wp_ret
  | |- wp (raise _) _ _ => apply wp_raise
  | |- wp (orthanc_Log _ _) _ _ => apply wp_Log
  | |- wp (LogInfo _) _ _ => apply wp_Log
  | |- wp (LogWarning _) _ _ => apply wp_Log
  | |- wp (LogError _) _ _ => apply wp_Log
  | |- wp (datetime_now _) _ _ => apply wp_now
  | |- wp (new_uid _) _ _ => apply wp_new_uid
  | |- wp (liftW _) _ (_, _) => apply wp_liftW
  | |- wp (liftS _) _ (_, _) => apply wp_liftS
  | |- wp (with_local _ _) _ _ => apply wp_with_local
  | |- wp (with_db _) _ _ => apply wp_with_local
  | |- wp (gets _) _ _ => apply wp_gets
  | |- wp (modify _) _ _ => apply wp_modify
  | |- wp (mutate _) _ _ => apply wp_modify
  | |- wp (add_patient _) _ _ => apply wp_modify
  | |- wp (add_item _) _ _ => apply wp_modify
  | |- wp (add_mpps _) _ _ => apply wp_modify
  | |- wp (set_ds _) _ (_, _) => apply wp_set_ds
  | |- wp (getattr _) _ _ => apply wp_getattr
  | |- wp (index0 _) _ _ => apply wp_index0
  | |- wp (try_except _ _) _ _ => apply wp_try_except
  | |- wp (bind _ _) _ _ => apply wp_bind
  | |- wp commit _ _ => apply wp_bind
  end;
  cbv beta iota.

Ltac wp_steps := repeat wp_step.

(** ** The order source *)

Lemma update_order_status_total (seq : Z) (st : string) :
  total (update_order_status seq st).
Proof. unfold update_order_status. totality. Qed.

Lemma update_order_status_store (seq : Z) (st : string) :
  preserves store (update_order_status seq st).
Proof.
  unfold update_order_status, get_connection, LogInfo, LogError. frame.
Qed.

Lemma update_order_status_managed (seq : Z) (st : string) :
  preserves managed_instances (update_order_status seq st).
Proof.
  unfold update_order_status, get_connection, LogInfo, LogError. frame.
Qed.

Lemma wp_push_status (o : option Z) (st : string)
  (Q : result unit -> Session * World -> Prop) (d : Session) (w : World) :
  (forall w', store w' = store w ->
              managed_instances w' = managed_instances w ->
              Q (Ok tt) (d, w')) ->
  wp (push_status o st) Q (d, w).
Proof.
  intros H. unfold push_status.
  destruct (EMR_API_AVAILABLE && truthy_int o); [| apply wp_ret; auto].
  destruct o as [seq |]; [| apply wp_ret; auto].
  wp_steps.
  apply wp_total; [apply update_order_status_total |].
  intros b w' Hrun. wp_steps. apply H.
  - pose proof (update_order_status_store seq st w) as Hs.
    rewrite Hrun in Hs. exact Hs.
  - pose proof (update_order_status_managed seq st w) as Hs.
    rewrite Hrun in Hs. exact Hs.
Qed.

(** ** Recording procedure steps *)

Lemma record_in_progress_spec (uid m a su : string) (w : World) :
  wp (record_mpps_in_progress E uid m a su)
     (fun r w' =>
        managed_instances w' = managed_instances w
        /\ match first_item a (store w) with
           | None => r = Ok false /\ store w' = store w
           | Some _ =>
               if has_sop uid (store w)
               then r = Ok false /\ store w' = store w
               else r = Ok true
                    /\ store w'
                       = started uid m a su (now E (clock w)) (store w)
           end) w.
Proof.
  unfold record_mpps_in_progress.
  wp_steps. apply wp_query; [intros _ | discriminate].
  cbv beta iota. simpl view.
  destruct (first_item a (store w)) as [it |] eqn:Hit.
  - wp_steps.
    apply wp_flush; cbv beta iota;
      [discriminate | intros _ s Hs | intros _ Hs];
      unfold flush_rows in Hs; simpl in Hs;
      unfold insert_mpps in Hs; simpl in Hs;
      change (has_sop uid (set_item_status a IN_PROGRESS (store w)))
        with (has_sop uid (store w)) in Hs.
    + destruct (has_sop uid (store w)); [discriminate |].
      injection Hs as <-.
      wp_steps.
      change (if EMR_API_AVAILABLE && truthy_int (emr_order_seq it)
              then _ else _)
        with (push_status (emr_order_seq it) "IP").
      unfold publish; simpl fst; simpl snd.
      apply wp_push_status. intros w' Hst Hm. wp_steps. simpl.
      rewrite Hst, Hm. auto.
    + destruct (has_sop uid (store w)); [| discriminate].
      wp_steps. simpl. auto.
  - wp_steps. simpl. auto.
Qed.

Lemma record_completed_spec (uid : string) (w : World) :
  wp (record_mpps_completed E uid)
     (fun r w' =>
        match first_mpps uid (store w) with
        | None => r = Ok (false, None) /\ w' = w
        | Some mpps =>
            r = Ok (true, Some (mpps_accession_number mpps))
            /\ managed_instances w' = managed_instances w
            /\ store w' = completed uid (now E (clock w)) (store w)
        end) w.
Proof.
  unfold record_mpps_completed.
  wp_steps. apply wp_query; [intros _ | discriminate].
  cbv beta iota. simpl view.
  destruct (first_mpps uid (store w)) as [mpps |] eqn:Hm.
  - wp_steps. apply wp_query; [intros _ | discriminate].
    cbv beta iota. simpl view. unfold completed. rewrite Hm.
    destruct (first_item _ (set_mpps_completed uid _ (store w)))
      as [it |] eqn:Hit.
    + wp_steps.
      change (if EMR_API_AVAILABLE && truthy_int (emr_order_seq it)
              then _ else _)
        with (push_status (emr_order_seq it) "CO").
      apply wp_push_status. intros w' Hst Hma. wp_steps.
      apply wp_flush; cbv beta iota;
        [discriminate | intros _ s Hs | intros _ Hs];
        unfold flush_rows in Hs; simpl in Hs; [| discriminate].
      injection Hs as <-. wp_steps. simpl. rewrite Hma. auto.
    + wp_steps.
      apply wp_flush; cbv beta iota;
        [discriminate | intros _ s Hs | intros _ Hs];
        unfold flush_rows in Hs; simpl in Hs; [| discriminate].
      injection Hs as <-. wp_steps. simpl. auto.
  - wp_steps. simpl. auto.
Qed.

Lemma wp_handle_create ev (Q : result (Z * option Dataset) -> World -> Prop) w :
  wp (try_except (handle_create_try E ev)
        (fun _ =>
           liftW (LogError "Error in handle_create") ;;
           liftW (LogError "traceback") ;;
           ret None))
     (fun r x =>
        match r with
        | Ok (Some early) => Q (Ok early) (snd x)
        | _ => Q (Ok (0x0000, Some (fst x))) (snd x)
        end) (empty_dataset, w) ->
  wp (handle_create E ev) Q w.
Proof.
  unfold wp, handle_create.
  destruct (try_except _ _ _) as [r [ds w']]. simpl.
  destruct r as [[early |] | e]; exact id.
Qed.

Lemma handle_create_validated ev w uid :
  validated_start ev w uid ->
  let attr_list := create_attribute_list ev in
  let ds := new_step uid attr_list in
  wp (handle_create E ev)
     (fun r w' =>
        r = Ok (0x0000, Some ds)
        /\ managed_instances w'
           = <[step_key uid attr_list := ds]> (managed_instances w)
        /\ store w'
           = match step_reference attr_list with
             | Some (m, a, su) =>
                 match first_item a (store w) with
                 | Some _ =>
                     if has_sop uid (store w) then store w
                     else started uid m a su (now E (clock w)) (store w)
                 | None => store w
                 end
             | None => store w
             end) w.
Proof.
  intros (Huid & Hfresh & st & Hst & Hup) attr_list ds.
  apply wp_handle_create. unfold handle_create_try.
  rewrite Huid. wp_steps. rewrite Hfresh.
  rewrite Hst, (bool_decide_eq_true_2 _ Hup). simpl negb. cbv iota.
  fold attr_list.
  wp_steps. cbn [fst snd].
  fold (new_step uid attr_list). fold ds.
  assert (Hkey : SOPInstanceUID ds = Some (step_key uid attr_list)).
  { unfold ds, new_step, step_key. simpl. destruct (SOPInstanceUID attr_list); reflexivity. }
  rewrite Hkey. cbv iota. wp_steps.
  unfold step_reference.
  destruct (ds_Modality attr_list) as [m |]; cbv iota; [| wp_steps; simpl; auto].
  wp_steps.
  destruct (ScheduledStepAttributesSequence attr_list) as [[| step rest] |];
    cbv iota; [wp_steps; simpl; auto | | wp_steps; simpl; auto].
  wp_steps.
  destruct (sa_AccessionNumber step) as [a |]; cbv iota; [| wp_steps; simpl; auto].
  wp_steps.
  destruct (sa_StudyInstanceUID step) as [su |]; cbv iota; [| wp_steps; simpl; auto].
  wp_steps.
  eapply wp_mono; [| apply record_in_progress_spec].
  cbv beta. intros r w' [Hm Hr]. 
  simpl in Hm, Hr. 
  destruct (first_item a (store w)).
  - destruct (has_sop uid (store w)); destruct Hr as [-> Hs];
      cbn [negb]; wp_steps; simpl; rewrite Hm, Hs; auto.
  - destruct Hr as [-> Hs]; cbn [negb]; wp_steps; simpl; rewrite Hm, Hs; auto.
Qed.

Lemma handle_create_rejected ev w code :
  match AffectedSOPInstanceUID ev with
  | None => code = 0x0106
  | Some uid =>
      match managed_instances w !! uid with
      | Some _ => code = 0x0111
      | None =>
          match PerformedProcedureStepStatus (create_attribute_list ev) with
          | None => code = 0x0120
          | Some st =>
              upper st <> ustr_of_string "IN PROGRESS" /\ code = 0x0106
          end
      end
  end ->
  wp (handle_create E ev)
     (fun r w' => r = Ok (code, None) /\ same_but_log w w') w.
Proof.
  intros H. apply wp_handle_create. unfold handle_create_try.
  destruct (AffectedSOPInstanceUID ev) as [uid |].
  - wp_steps. destruct (managed_instances w !! uid).
    + wp_steps. simpl. subst. unfold same_but_log. repeat split.
    + destruct (PerformedProcedureStepStatus (create_attribute_list ev))
        as [st |].
      * destruct H as [Hst ->]. rewrite (bool_decide_eq_false_2 _ Hst).
        simpl negb. cbv iota. wp_steps. simpl. unfold same_but_log. repeat split.
      * wp_steps. simpl. subst. unfold same_but_log. repeat split.
  - wp_steps. simpl. subst. unfold same_but_log. repeat split.
Qed.

Lemma upper_ascii_text (s : string) :
  ascii_text s -> upper s = ustr_of_string (capitals s).
Proof.
  unfold ascii_text, upper, ustr_of_string.
  induction s as [| c r IH]; [reflexivity |].
  simpl list_ascii_of_string. intros H. inversion H as [| ? ? Hc Hr]; subst.
  cbn [map flat_map capitals list_ascii_of_string]. rewrite (IH Hr).
  change (flat_map upper_latin1 (map N_of_ascii (list_ascii_of_string r)))
    with (upper r).
  assert (Hup : upper_latin1 (N_of_ascii c) = [N_of_ascii (capital c)]).
  { unfold upper_latin1, capital.
    destruct ((97 <=? N_of_ascii c) && (N_of_ascii c <=? 122))%N eqn:Hl.
    - rewrite N_ascii_embedding; [reflexivity | lia].
    - assert (H1 : (N_of_ascii c =? 181)%N = false)
        by (apply N.eqb_neq; lia).
      assert (H2 : (N_of_ascii c =? 223)%N = false)
        by (apply N.eqb_neq; lia).
      assert (H3 : (224 <=? N_of_ascii c)%N = false)
        by (apply N.leb_gt; lia).
      assert (H4 : (N_of_ascii c =? 255)%N = false)
        by (apply N.eqb_neq; lia).
      rewrite H1, H2, H3, H4. reflexivity. }
  rewrite Hup. reflexivity.
Qed.

Lemma ustr_of_string_inj (s t : string) :
  ustr_of_string s = ustr_of_string t -> s = t.
Proof.
  unfold ustr_of_string. intros H.
  rewrite <- (string_of_list_ascii_of_string s),
          <- (string_of_list_ascii_of_string t).
  f_equal. revert H.
  generalize (list_ascii_of_string s) (list_ascii_of_string t).
  intros l. induction l as [| a l IH]; intros [| b m]; simpl;
    try discriminate; [reflexivity |].
  intros [= Hab Hlm]. f_equal; [| apply IH, Hlm].
  rewrite <- (ascii_N_embedding a), <- (ascii_N_embedding b), Hab.
  reflexivity.
Qed.

(** C3. The start operation answers with the codes of the table, in this
    precedence: 0x0106 without a step instance identifier, 0x0111 for an
    identifier already tracked, 0x0120 without the status attribute, 0x0106
    for a status that is not "IN PROGRESS" up to case, and 0x0000 with the
    constructed step record once every validation has passed.  Up to case
    is the comparison of [str.upper()]: on a status of ASCII characters it
    is the equality after the letters a..z have been replaced by A..Z. *)
Theorem handle_create_status_codes (ev : NCreate) (w : World) :
  let attr_list := create_attribute_list ev in
  let r := fst (handle_create E ev w) in
  (AffectedSOPInstanceUID ev = None -> r = Ok (0x0106, None))
  /\ (forall uid,
        AffectedSOPInstanceUID ev = Some uid ->
        managed_instances w !! uid <> None ->
        r = Ok (0x0111, None))
  /\ (forall uid,
        AffectedSOPInstanceUID ev = Some uid ->
        managed_instances w !! uid = None ->
        PerformedProcedureStepStatus attr_list = None ->
        r = Ok (0x0120, None))
  /\ (forall uid st,
        AffectedSOPInstanceUID ev = Some uid ->
        managed_instances w !! uid = None ->
        PerformedProcedureStepStatus attr_list = Some st ->
        upper st <> ustr_of_string "IN PROGRESS" ->
        r = Ok (0x0106, None))
  /\ (forall uid st,
        AffectedSOPInstanceUID ev = Some uid ->
        managed_instances w !! uid = None ->
        PerformedProcedureStepStatus attr_list = Some st ->
        upper st = ustr_of_string "IN PROGRESS" ->
        r = Ok (0x0000, Some (new_step uid attr_list)))
  /\ (forall st,
        ascii_text st ->
        (upper st = ustr_of_string "IN PROGRESS"
         <-> capitals st = "IN PROGRESS")).
Proof.
  intros attr_list r. subst r attr_list.
  split; [| split; [| split; [| split; [| split]]]].
  - intros H. apply (handle_create_rejected ev w). rewrite H. reflexivity.
  - intros uid H Hm. apply (handle_create_rejected ev w). rewrite H.
    destruct (managed_instances w !! uid); [reflexivity | congruence].
  - intros uid H Hm Hs. apply (handle_create_rejected ev w).
    rewrite H, Hm, Hs. reflexivity.
  - intros uid st H Hm Hs Hu. apply (handle_create_rejected ev w).
    rewrite H, Hm, Hs. auto.
  - intros uid st H Hm Hs Hu.
    apply (handle_create_validated ev w uid). repeat split; eauto.
  - intros st Hst. rewrite (upper_ascii_text st Hst). split.
    + apply ustr_of_string_inj.
    + intros ->. reflexivity.
Qed.

(** C9. Once the protocol validations of a start event have passed the
    operation answers 0x0000 with the constructed record and the record is
    in the managed-instance table, whatever happens afterwards; when the
    scheduling attributes are incomplete (an exception after validation) or
    name an accession number that no worklist item carries, the store is
    left exactly as it was, so no tracking row is created. *)
Theorem handle_create_without_item (ev : NCreate) (w : World) (uid : string) :
  validated_start ev w uid ->
  let attr_list := create_attribute_list ev in
  let ds := new_step uid attr_list in
  let w' := snd (handle_create E ev w) in
  fst (handle_create E ev w) = Ok (0x0000, Some ds)
  /\ managed_instances w' !! step_key uid attr_list = Some ds
  /\ (SOPInstanceUID attr_list = None -> managed_instances w' !! uid = Some ds)
  /\ (step_reference attr_list = None -> store w' = store w)
  /\ (forall m a su,
         step_reference attr_list = Some (m, a, su) ->
         first_item a (store w) = None ->
         store w' = store w).
Proof.
  intros Hv attr_list ds w'.
  destruct (handle_create_validated ev w uid Hv) as (Hr & Hm & Hs).
  fold attr_list ds w' in Hr, Hm, Hs.
  split; [exact Hr |].
  split; [rewrite Hm; apply lookup_insert_eq |].
  split.
  - intros Hnone. rewrite Hm. unfold step_key. rewrite Hnone.
    apply lookup_insert_eq.
  - split.
    + intros Hnone. rewrite Hs, Hnone. reflexivity.
    + intros m a su Href Hit. rewrite Hs, Href, Hit. reflexivity.
Qed.

Lemma handle_set_spec (ev : NSet) (w : World) :
  wp (handle_set E ev)
     (fun r w' =>
        match tracked ev w with
        | None =>
            r = Ok (0x0112, None)
            /\ w' = add_log Warning "N-SET failed: SOP Instance UID not found" w
        | Some (uid, ds) =>
            let ds' := ds_update ds (set_attribute_list ev) in
            r = Ok (0x0000, Some ds')
            /\ managed_instances w' = <[uid := ds']> (managed_instances w)
            /\ store w' = completed uid (now E (clock w)) (store w)
            /\ (first_mpps uid (store w) = None ->
                In (Warning, "Failed to record MPPS completion") (log w'))
        end) w.
Proof.
  unfold handle_set, tracked. wp_steps.
  destruct (RequestedSOPInstanceUID ev) as [uid |]; [| wp_steps; auto].
  destruct (managed_instances w !! uid) as [ds |]; [| wp_steps; auto].
  wp_steps.
  eapply wp_mono; [| apply record_completed_spec].
  cbv beta. intros r w1 Hr. simpl in Hr. unfold completed.
  destruct (first_mpps uid (store w)) as [mpps |] eqn:Hmp.
  - destruct Hr as (-> & Hm & Hs). cbn [negb]. wp_steps. simpl.
    rewrite Hm, lookup_insert_eq, Hs. unfold completed. rewrite Hmp.
    repeat split. discriminate.
  - destruct Hr as (-> & ->). cbn [negb]. wp_steps. simpl.
    rewrite lookup_insert_eq. repeat split.
    intros _. apply in_or_app. right. left. reflexivity.
Qed.

Lemma ds_update_updated_by (ds mods : Dataset) :
  updated_by ds mods (ds_update ds mods).
Proof.
  unfold updated_by, ds_update, replaced, override. simpl.
  repeat (split; [match goal with
                  | |- match ?x with _ => _ end => destruct x; reflexivity
                  end |]).
  intros k. rewrite lookup_union.
  destruct (ds_other mods !! k), (ds_other ds !! k); reflexivity.
Qed.

(** C4. The complete operation answers 0x0112 exactly when the step
    instance identifier is not in the managed-instance table.  For a tracked
    identifier it answers 0x0000 with the record updated by the
    modifications -- every attribute of the modification list with the
    value it has there, every other attribute as the record had it -- and
    keeps the updated record in the table; when the store holds no tracking
    row for the identifier the answer is the same, the store is left
    unchanged and a warning is logged. *)
Theorem handle_set_status_codes (ev : NSet) (w : World) :
  let r := fst (handle_set E ev w) in
  let w' := snd (handle_set E ev w) in
  (status_code r = Some 0x0112 <-> tracked ev w = None)
  /\ (forall uid ds,
         tracked ev w = Some (uid, ds) ->
         let ds' := ds_update ds (set_attribute_list ev) in
         r = Ok (0x0000, Some ds')
         /\ updated_by ds (set_attribute_list ev) ds'
         /\ managed_instances w' !! uid = Some ds'
         /\ (first_mpps uid (store w) = None ->
             store w' = store w
             /\ In (Warning, "Failed to record MPPS completion") (log w'))).
Proof.
  intros r w'. pose proof (handle_set_spec ev w) as H. unfold wp in H.
  fold r w' in H. destruct (tracked ev w) as [[uid ds] |].
  - cbv zeta in H. destruct H as (Hr & Hm & Hs & Hl). split.
    + rewrite Hr. simpl. split; discriminate.
    + intros uid' ds' [= <- <-]. cbv zeta.
      split; [exact Hr |].
      split; [apply ds_update_updated_by |].
      split; [rewrite Hm; apply lookup_insert_eq |].
      intros Hnone. split; [| auto].
      rewrite Hs. unfold completed. rewrite Hnone. reflexivity.
  - destruct H as (Hr & Hw). split.
    + rewrite Hr. simpl. split; reflexivity.
    + intros uid ds [=].
Qed.

(** ** Lists as tables *)

Lemma find_update_first {A} (p : A -> bool) (f : A -> A) (l : list A) :
  (forall x, p (f x) = p x) ->
  List.find p (update_first p f l) = option_map f (List.find p l).
Proof.
  intros Hp. induction l as [| x r IH]; simpl; [reflexivity |].
  destruct (p x) eqn:Hx; simpl.
  - rewrite Hp, Hx. reflexivity.
  - rewrite Hx. exact IH.
Qed.

Lemma find_app_first {A} (p : A -> bool) (l l' : list A) :
  List.find p (l ++ l')
  = match List.find p l with
    | Some x => Some x
    | None => List.find p l'
    end.
Proof.
  induction l as [| x r IH]; simpl; [reflexivity |].
  destruct (p x); [reflexivity | exact IH].
Qed.

Lemma existsb_false_find {A} (p : A -> bool) (l : list A) :
  existsb p l = false -> List.find p l = None.
Proof.
  induction l as [| x r IH]; simpl; [reflexivity |].
  destruct (p x); simpl; [discriminate | exact IH].
Qed.

Lemma item_status_set (a st : string) (s : Store) :
  item_status a (set_item_status a st s)
  = option_map (fun _ => st) (first_item a s).
Proof.
  unfold item_status, set_item_status, first_item. simpl.
  rewrite find_update_first by reflexivity.
  destruct (List.find _ _); reflexivity.
Qed.

Lemma find_update_first_apart {A} (p q : A -> bool) (f : A -> A)
  (l : list A) :
  (forall x, q (f x) = q x) ->
  (forall x, p x = true -> q x = false) ->
  List.find q (update_first p f l) = List.find q l.
Proof.
  intros Hf Hpq. induction l as [| x r IH]; simpl; [reflexivity |].
  destruct (p x) eqn:Hp; simpl.
  - rewrite Hf, (Hpq x Hp). reflexivity.
  - rewrite IH. reflexivity.
Qed.

Lemma item_status_set_other (a a' st : string) (s : Store) :
  a' <> a ->
  item_status a (set_item_status a' st s) = item_status a s.
Proof.
  intros Hne. unfold item_status, set_item_status, first_item. simpl.
  rewrite find_update_first_apart; [reflexivity | reflexivity |].
  intros x Hx. apply String.eqb_eq in Hx. apply String.eqb_neq. congruence.
Qed.

Lemma existsb_true_find {A} (p : A -> bool) (l : list A) :
  existsb p l = true -> exists x, List.find p l = Some x.
Proof.
  induction l as [| x r IH]; simpl; [discriminate |].
  destruct (p x); [intros _; exists x; reflexivity | exact IH].
Qed.

(** C2, as the code has it.  A validated start event that names an existing
    worklist item, followed by a validated complete event for the same step
    instance identifier: both operations answer 0x0000.  When the store
    holds no tracking row for the identifier yet, the start sets the item to
    IN PROGRESS whatever its status was and the completion sets it to
    COMPLETED, so an item that was SCHEDULED goes through SCHEDULED,
    IN PROGRESS, COMPLETED, and an item that was COMPLETED goes back to
    IN PROGRESS.  When the store holds a tracking row for the identifier
    already, the start changes nothing in the store and the item keeps its
    status; the completion then sets it to COMPLETED when that row carries
    the accession number of the item, and leaves it as it was otherwise.
    No status is tested before a transition. *)
Theorem start_then_complete
  (ev : NCreate) (mods : Dataset) (w : World)
  (uid m a su : string) (it : WorklistItem) :
  validated_start ev w uid ->
  step_reference (create_attribute_list ev) = Some (m, a, su) ->
  first_item a (store w) = Some it ->
  let w1 := snd (handle_create E ev w) in
  let complete :=
    {| RequestedSOPInstanceUID := Some uid; set_attribute_list := mods |} in
  let w2 := snd (handle_set E complete w1) in
  tracked complete w1 <> None ->
  status_code (fst (handle_create E ev w)) = Some 0x0000
  /\ status_code (fst (handle_set E complete w1)) = Some 0x0000
  /\ (has_sop uid (store w) = false ->
      map (item_status a) [store w; store w1; store w2]
      = [Some (status it); Some IN_PROGRESS; Some COMPLETED])
  /\ (has_sop uid (store w) = true ->
      store w1 = store w
      /\ exists row,
           first_mpps uid (store w) = Some row
           /\ map (item_status a) [store w; store w1; store w2]
              = [Some (status it); Some (status it);
                 Some (if String.eqb (mpps_accession_number row) a
                       then COMPLETED else status it)]).
Proof.
  intros Hv Href Hit w1 complete w2 Htr.
  destruct (handle_create_validated ev w uid Hv) as (Hr & Hm & Hs).
  fold w1 in Hm, Hs. rewrite Href, Hit in Hs.
  pose proof (handle_set_spec complete w1) as H2. unfold wp in H2.
  fold w2 in H2.
  destruct (tracked complete w1) as [[uid' ds] |] eqn:Ht; [| congruence].
  assert (uid' = uid) as ->.
  { unfold tracked in Ht. simpl in Ht.
    destruct (managed_instances w1 !! uid); congruence. }
  cbv zeta in H2. destruct H2 as (Hr2 & _ & Hs2 & _).
  split; [rewrite Hr; reflexivity |].
  split; [rewrite Hr2; reflexivity |].
  split.
  2:{ intros Hsop. rewrite Hsop in Hs. split; [exact Hs |].
      destruct (existsb_true_find _ _ Hsop) as [row Hrow].
      change (first_mpps uid (store w) = Some row) in Hrow.
      exists row. split; [exact Hrow |].
      assert (H0 : item_status a (store w) = Some (status it))
        by (unfold item_status; rewrite Hit; reflexivity).
      simpl map. rewrite Hs2, Hs, H0. do 3 f_equal.
      unfold completed. rewrite Hrow. cbv zeta.
      assert (Hst : forall t, item_status a (set_mpps_completed uid t (store w))
                              = Some (status it)) by (intros t; exact H0).
      destruct (String.eqb (mpps_accession_number row) a) eqn:Ha.
      - apply String.eqb_eq in Ha. rewrite Ha.
        change (first_item a (set_mpps_completed uid ?t ?s))
          with (first_item a s).
        rewrite Hit, item_status_set.
        change (first_item a (set_mpps_completed uid ?t ?s))
          with (first_item a s).
        rewrite Hit. reflexivity.
      - apply String.eqb_neq in Ha.
        destruct (first_item (mpps_accession_number row) _);
          [rewrite item_status_set_other by exact Ha |]; apply Hst. }
  intros Hsop. rewrite Hsop in Hs.
  assert (Hmp : first_mpps uid (store w1)
                = Some (in_progress_row uid m a su (now E (clock w)))).
  { rewrite Hs. unfold first_mpps, started. simpl.
    rewrite find_app_first, existsb_false_find by exact Hsop.
    simpl. rewrite String.eqb_refl. reflexivity. }
  assert (H1 : item_status a (store w1) = Some IN_PROGRESS).
  { rewrite Hs. unfold started.
    change (item_status a (set_mpps ?l ?s)) with (item_status a s).
    rewrite item_status_set, Hit. reflexivity. }
  simpl map. unfold item_status at 1. rewrite Hit. simpl option_map.
  rewrite H1. do 2 f_equal.
  rewrite Hs2. unfold completed. rewrite Hmp. cbv zeta.
  change (mpps_accession_number (in_progress_row uid m a su _)) with a.
  assert (Hi : first_item a (set_mpps_completed uid (now E (clock w1)) (store w1))
               = first_item a (store w1)) by reflexivity.
  rewrite Hi. unfold item_status in H1.
  destruct (first_item a (store w1)) as [it1 |] eqn:Hit1; [| discriminate].
  rewrite item_status_set.
  change (first_item a (set_mpps_completed uid ?t ?s)) with (first_item a s).
  rewrite Hit1. reflexivity.
Qed.

(** ** Synchronization *)

Lemma wp_translate (name : ustr) (Q : result ustr -> World -> Prop)
  (w : World) :
  (forall v w', same_but_log w w' -> Q (Ok v) w') ->
  wp (translate_korean_to_english_name E name) Q w.
Proof.
  intros H. apply wp_total; [apply translate_total |].
  intros v w' Hrun. apply H.
  pose proof (translate_same_but_log name w) as Hs.
  rewrite Hrun in Hs. exact Hs.
Qed.

Lemma wp_get_aets (m : option string) (Q : result (list string) -> World -> Prop)
  (w : World) :
  (forall l, Q (Ok l) w) -> wp (get_aets_for_modality m) Q w.
Proof. intros H. apply H. Qed.

Lemma has_accession_first_item (acc : string) (s : Store) :
  has_accession acc s = true -> first_item acc s <> None.
Proof.
  unfold has_accession, first_item. intros H Hn.
  apply existsb_exists in H. destruct H as (x & Hx & Hp).
  apply (find_none _ _ Hn) in Hx. congruence.
Qed.

Lemma has_accession_app (acc : string) (s s0 : Store) fl :
  worklist_items s = (worklist_items s0 ++ fl)%list ->
  has_accession acc s0 = true -> has_accession acc s = true.
Proof.
  unfold has_accession. intros -> H. rewrite existsb_app, H. reflexivity.
Qed.

Lemma process_order_spec (s0 : Store) (o : Order) (c : nat)
  (d : Session) (w : World) :
  sync_inv s0 c (d, w) ->
  wp (process_order E o c)
     (fun r x' =>
        exists c', r = Ok c' /\ (c <= c' <= S c)%nat /\ sync_inv s0 c' x'
                   /\ (skips s0 o -> c' = c)) (d, w).
Proof.
  intros Hinv. unfold process_order, skips.
  destruct (required o) as [[[[cht nam] dtm] seq] |].
  2:{ wp_steps. exists c.
      split; [reflexivity |]. split; [lia |]. split; [| reflexivity].
      split; [apply Hinv |]. intros Ha. apply Hinv, Ha. }
  (* the handler re-establishes the invariant from the store alone *)
  assert (Hfail : forall (e : exn) (d' : Session) (w' : World),
            store w' = s0 -> active d' = false ->
            wp (liftW (LogError "Error processing order") ;;
                liftW (LogError "traceback") ;; ret c)
               (fun r x' =>
                  exists c', r = Ok c' /\ (c <= c' <= S c)%nat
                             /\ sync_inv s0 c' x'
                             /\ (has_accession (accession_of_seq seq) s0 = true
                                 -> c' = c)) (d', w')).
  { intros e d' w' Hs Ha. wp_steps. exists c.
    split; [reflexivity |]. split; [lia |]. split; [| reflexivity].
    split; [exact Hs |]. simpl. congruence. }
  wp_steps.
  (* patient lookup *)
  apply wp_query; cbv beta iota.
  2:{ intros Ha. apply (Hfail PendingRollbackError); [apply Hinv | exact Ha]. }
  intros Hact.
  (* everything after the patient has been resolved *)
  assert (Hrest : forall (d1 : Session) (w1 : World),
            sync_inv s0 c (d1, w1) -> active d1 = true ->
            wp (let! (appointment_date_, appointment_time_) :=
                  match dtm with
                  | DtmDatetime d0 => ret (strftime_Ymd d0, strftime_HMS d0)
                  | DtmString s =>
                      match strptime E s with
                      | Some dt => ret (strftime_Ymd dt, strftime_HMS dt)
                      | None =>
                          liftW (LogWarning "Could not parse date/time") ;;
                          let! d1 := liftW (datetime_now E) in
                          let! d2 := liftW (datetime_now E) in
                          ret (strftime_Ymd d1, strftime_HMS d2)
                      end
                  end in
                let accession_number_ := accession_of_seq seq in
                let! existing_item :=
                  liftS (query (first_item accession_number_)) in
                match existing_item with
                | Some _ =>
                    liftW (LogInfo "Skipping existing order") ;; ret c
                | None =>
                    let modality_ := PcsUntCod o in
                    let! aets := liftW (get_aets_for_modality modality_) in
                    let assigned_aet := head aets in
                    liftS (add_item
                      {| wl_patient_id := cht;
                         accession_number := accession_number_;
                         appointment_date := appointment_date_;
                         appointment_time := appointment_time_;
                         modality := modality_;
                         aet := assigned_aet;
                         study_instance_uid := None;
                         status := SCHEDULED;
                         emr_order_seq := Some seq |}) ;;
                    liftW (LogInfo "Added new order") ;;
                    ret (S c)
                end)
               (fun r s' =>
                  match r with
                  | Ok a =>
                      exists c', Ok a = Ok c' /\ (c <= c' <= S c)%nat
                        /\ sync_inv s0 c' s'
                        /\ (has_accession (accession_of_seq seq) s0 = true
                            -> c' = c)
                  | Raise e =>
                      wp (liftW (LogError "Error processing order") ;;
                          liftW (LogError "traceback") ;; ret c)
                         (fun r x' =>
                            exists c', r = Ok c' /\ (c <= c' <= S c)%nat
                              /\ sync_inv s0 c' x'
                              /\ (has_accession (accession_of_seq seq) s0
                                  = true -> c' = c)) s'
                  end) (d1, w1)).
  { intros d1 w1 Hi1 Ha1.
    assert (Hk : forall (dt tm : string) (w2 : World),
              store w2 = s0 ->
              wp (let accession_number_ := accession_of_seq seq in
                  let! existing_item :=
                    liftS (query (first_item accession_number_)) in
                  match existing_item with
                  | Some _ =>
                      liftW (LogInfo "Skipping existing order") ;; ret c
                  | None =>
                      let modality_ := PcsUntCod o in
                      let! aets := liftW (get_aets_for_modality modality_) in
                      let assigned_aet := head aets in
                      liftS (add_item
                        {| wl_patient_id := cht;
                           accession_number := accession_number_;
                           appointment_date := dt;
                           appointment_time := tm;
                           modality := modality_;
                           aet := assigned_aet;
                           study_instance_uid := None;
                           status := SCHEDULED;
                           emr_order_seq := Some seq |}) ;;
                      liftW (LogInfo "Added new order") ;;
                      ret (S c)
                  end)
                 (fun r s' =>
                    match r with
                    | Ok a =>
                        exists c', Ok a = Ok c' /\ (c <= c' <= S c)%nat
                          /\ sync_inv s0 c' s'
                          /\ (has_accession (accession_of_seq seq) s0 = true
                              -> c' = c)
                    | Raise e =>
                        wp (liftW (LogError "Error processing order") ;;
                            liftW (LogError "traceback") ;; ret c)
                           (fun r x' =>
                              exists c', r = Ok c' /\ (c <= c' <= S c)%nat
                                /\ sync_inv s0 c' x'
                                /\ (has_accession (accession_of_seq seq) s0
                                    = true -> c' = c)) s'
                    end) (d1, w2)).
    { intros dt tm w2 Hs2. cbv zeta. wp_steps.
      apply wp_query; cbv beta iota; [intros _ | congruence].
      destruct Hi1 as [_ Hi1]. destruct (Hi1 Ha1) as (fl & Hfl & Hlen).
      simpl fst in *.
      destruct (first_item (accession_of_seq seq) (view d1)) eqn:Hex.
      - wp_steps. exists c.
        split; [reflexivity |]. split; [lia |]. split; [| reflexivity].
        split; [exact Hs2 |]. intros _. exists fl. auto.
      - wp_steps. apply wp_get_aets. intros aets. cbv beta iota.
        wp_steps. exists (S c).
        split; [reflexivity |]. split; [lia |]. split; [split |].
        + exact Hs2.
        + intros _. exists fl. split; [exact Hfl |].
          simpl. rewrite length_app. simpl. lia.
        + intros Hhas. exfalso.
          apply (has_accession_first_item (accession_of_seq seq) (view d1));
            [| exact Hex].
          eapply has_accession_app; eauto. }
    apply wp_bind.
    destruct dtm as [d0 | str].
    - wp_steps. apply Hk, Hi1.
    - destruct (strptime E str) as [dt |].
      + wp_steps. apply Hk, Hi1.
      + wp_steps. apply Hk. simpl. apply Hi1. }
  destruct (first_patient cht (view d)) as [p |].
  - do 2 wp_step. apply Hrest; assumption.
  - do 3 wp_step. apply wp_translate. intros english w1 Hsame. cbv beta iota.
    wp_steps.
    apply wp_flush; cbv beta iota.
    + simpl. congruence.
    + intros _ s Hs. apply Hrest; [| reflexivity].
      destruct Hinv as [Hst Hi]. destruct (Hi Hact) as (fl & Hfl & Hlen).
      split; [simpl; destruct Hsame as [-> _]; exact Hst |].
      intros _. simpl fst in *.
      exists (fl ++ new_items d)%list. simpl.
      rewrite (flush_rows_items _ _ Hs). simpl.
      rewrite Hfl, <- app_assoc. split; [reflexivity |].
      rewrite length_app. simpl. lia.
    + intros _ Hs. apply (Hfail IntegrityError); [| reflexivity].
      destruct Hsame as [-> _]. apply Hinv.
Qed.

Lemma for_each_process_order (s0 : Store) (orders : list Order) :
  forall (c : nat) (x : Session * World),
    sync_inv s0 c x ->
    wp (for_each orders (process_order E) c)
       (fun r x' =>
          exists c', r = Ok c' /\ (c <= c' <= c + length orders)%nat
                     /\ sync_inv s0 c' x'
                     /\ (Forall (skips s0) orders -> c' = c)) x.
Proof.
  induction orders as [| o rest IH]; intros c [d w] Hinv; simpl for_each.
  - wp_steps. exists c. simpl.
    split; [reflexivity |]. split; [lia |]. split; [exact Hinv | auto].
  - wp_step. eapply wp_mono; [| apply process_order_spec, Hinv].
    cbv beta. intros r x' (c1 & -> & Hc1 & Hinv1 & Hskip1).
    eapply wp_mono; [| apply IH, Hinv1].
    cbv beta. intros r x'' (c2 & -> & Hc2 & Hinv2 & Hskip2).
    exists c2. split; [reflexivity |]. split; [simpl; lia |].
    split; [exact Hinv2 |].
    intros Hall. inversion Hall; subst.
    rewrite Hskip2, Hskip1 by assumption. reflexivity.
Qed.

Lemma select_top5_length (last : option Z) (rows : list EmrRow) :
  (length (select_top5 last rows) <= 5)%nat.
Proof. unfold select_top5. rewrite length_take. lia. Qed.

Lemma fetch_new_orders_spec (last : option Z) (w : World) :
  wp (fetch_new_orders last)
     (fun r w' =>
        r = Ok (fetched last w)
        /\ store w' = store w
        /\ managed_instances w' = managed_instances w) w.
Proof.
  unfold fetch_new_orders, get_connection, fetched. wp_steps.
  destruct (emr w); wp_steps; simpl; auto.
Qed.

Lemma fetched_length (last : option Z) (w : World) :
  (length (fetched last w) <= 5)%nat.
Proof.
  unfold fetched. destruct (emr w); simpl; [| lia].
  rewrite length_map. apply select_top5_length.
Qed.

Lemma sync_spec (w : World) :
  wp (sync_emr_orders E)
     (fun r w' =>
        exists (n : nat) (new : list WorklistItem),
          r = Ok n
          /\ (n <= length (fetched (last_seq (store w)) w))%nat
          /\ length new = n
          /\ worklist_items (store w') = (worklist_items (store w) ++ new)%list
          /\ (Forall (skips (store w)) (fetched (last_seq (store w)) w) ->
              n = 0%nat)) w.
Proof.
  unfold sync_emr_orders. simpl negb. cbv iota.
  assert (Hfail : forall w1, store w1 = store w ->
            wp (LogError "Error in sync_emr_orders" ;;
                LogError "traceback" ;; ret 0%nat)
               (fun r w' =>
                  exists (n : nat) (new : list WorklistItem),
                    r = Ok n
                    /\ (n <= length (fetched (last_seq (store w)) w))%nat
                    /\ length new = n
                    /\ worklist_items (store w')
                       = (worklist_items (store w) ++ new)%list
                    /\ (Forall (skips (store w))
                               (fetched (last_seq (store w)) w) ->
                        n = 0%nat)) w1).
  { intros w1 Hs. wp_steps. exists 0%nat, []. simpl. rewrite Hs, app_nil_r.
    split; [reflexivity |]. split; [lia |]. auto. }
  wp_steps. apply wp_query; [intros _ | discriminate]. cbv beta iota.
  simpl view. wp_steps.
  eapply wp_mono; [| apply fetch_new_orders_spec].
  cbv beta. intros r w1 (-> & Hs1 & _).
  change (fetched ?l (add_log ?a ?b ?w0)) with (fetched l w0).
  wp_steps.
  eapply wp_mono;
    [| apply (for_each_process_order (store w)); split;
       [exact Hs1 | intros _; exists []; rewrite app_nil_r; auto ] ].
  cbv beta. intros r [d2 w2] (c & -> & Hc & [Hs2 Hi2] & Hskip).
  simpl in Hs2, Hi2. wp_steps.
  apply wp_flush; cbv beta iota.
  - intros _. apply Hfail, Hs2.
  - intros Ha s Hs. destruct (Hi2 Ha) as (fl & Hfl & Hlen).
    wp_steps.
    assert (Hend : forall w3, store w3 = s ->
              exists (n : nat) (new : list WorklistItem),
                Ok c = Ok n
                /\ (n <= length (fetched (last_seq (store w)) w))%nat
                /\ length new = n
                /\ worklist_items (store w3)
                   = (worklist_items (store w) ++ new)%list
                /\ (Forall (skips (store w))
                           (fetched (last_seq (store w)) w) ->
                    n = 0%nat)).
    { intros w3 ->. exists c, (fl ++ new_items d2)%list.
      split; [reflexivity |]. split; [lia |].
      split; [rewrite length_app; exact Hlen |].
      split; [| intros H; rewrite (Hskip H); reflexivity].
      rewrite (flush_rows_items _ _ Hs), Hfl, <- app_assoc. reflexivity. }
    destruct (0 <? c)%nat; wp_steps; apply Hend; reflexivity.
  - intros _ _. apply Hfail, Hs2.
Qed.

Lemma sync_total : total (sync_emr_orders E).
Proof.
  unfold sync_emr_orders. simpl negb. cbv iota.
  apply total_try_except. intros e. totality.
Qed.

(** ** Synchronization keeps accession numbers unique *)

Lemma keeps_ret {S A} (P : S -> Prop) (a : A) : keeps P (ret a).
Proof. intros s H. exact H. Qed.

Lemma keeps_bind {S A B} (P : S -> Prop) (m : M S A) (k : A -> M S B) :
  keeps P m -> (forall a, keeps P (k a)) -> keeps P (bind m k).
Proof.
  intros Hm Hk s H. unfold bind. specialize (Hm s H).
  destruct (m s) as [[a | e] s']; simpl in *; [apply Hk, Hm | exact Hm].
Qed.

Lemma keeps_try_except {S A} (P : S -> Prop) (m : M S A)
  (h : exn -> M S A) :
  keeps P m -> (forall e, keeps P (h e)) -> keeps P (try_except m h).
Proof.
  intros Hm Hh s H. unfold try_except. specialize (Hm s H).
  destruct (m s) as [[a | e] s']; simpl in *; [exact Hm | apply Hh, Hm].
Qed.

Lemma keeps_liftW {A} (m : M World A) :
  preserves store m -> keeps unique_in_session (@liftW Session A m).
Proof.
  intros Hm [d w] [Hv Hs]. unfold liftW. specialize (Hm w).
  destruct (m w) as [r w']. unfold unique_in_session. simpl in *.
  split; [exact Hv |]. rewrite Hm. exact Hs.
Qed.

Lemma keeps_liftS {A} (m : M Session A) :
  keeps (fun d => unique_accessions (view d)) m ->
  keeps unique_in_session (liftS m).
Proof.
  intros Hm [d w] [Hv Hs]. unfold liftS. specialize (Hm d Hv).
  destruct (m d) as [r d']. unfold unique_in_session. simpl in *.
  split; assumption.
Qed.

Lemma keeps_query {A} (f : Store -> A) (P : Session -> Prop) :
  keeps P (query f).
Proof. intros d H. unfold query. destruct (active d); exact H. Qed.

Lemma insert_all_unique {A} (ins : A -> Store -> option Store) (l : list A) :
  (forall x s s', ins x s = Some s' ->
                  unique_accessions s -> unique_accessions s') ->
  forall s s', insert_all ins l s = Some s' ->
               unique_accessions s -> unique_accessions s'.
Proof.
  intros Hins. induction l as [| x r IH]; intros s s'; simpl.
  - intros [= <-]. exact id.
  - destruct (ins x s) as [s1 |] eqn:Hx; [| discriminate].
    intros Hr Hs. apply (IH _ _ Hr). apply (Hins _ _ _ Hx), Hs.
Qed.

Lemma insert_item_unique (it : WorklistItem) (s s' : Store) :
  insert_item it s = Some s' ->
  unique_accessions s -> unique_accessions s'.
Proof.
  unfold insert_item, unique_accessions, has_accession.
  destruct (modality it); [| discriminate].
  destruct (existsb _ _) eqn:Hex; [discriminate |].
  intros [= <-] Hs. simpl. rewrite map_app. simpl.
  apply NoDup_app. split; [exact Hs |]. split; [| apply NoDup_singleton].
  intros a Ha Hin. apply list_elem_of_singleton in Hin. subst a.
  apply list_elem_of_In, in_map_iff in Ha. destruct Ha as (x & Hacc & Hx).
  assert (Hc : existsb
            (fun it0 => String.eqb (accession_number it0)
                                   (accession_number it))
            (worklist_items s) = true).
  { apply existsb_exists. exists x. split; [exact Hx |].
    apply String.eqb_eq, Hacc. }
  congruence.
Qed.

Lemma flush_rows_unique (d : Session) (s' : Store) :
  flush_rows d = Some s' ->
  unique_accessions (view d) -> unique_accessions s'.
Proof.
  unfold flush_rows.
  destruct (insert_all insert_patient _ _) as [s1 |] eqn:H1; [| discriminate].
  destruct (insert_all insert_item _ _) as [s2 |] eqn:H2; [| discriminate].
  intros H3 Hu.
  apply (insert_all_unique _ _) in H3; [exact H3 | | ].
  - intros x s0 s0' Hx. unfold unique_accessions.
    rewrite (insert_mpps_items _ _ _ Hx). exact id.
  - apply (insert_all_unique _ _) in H2; [exact H2 | exact insert_item_unique |].
    apply (insert_all_unique _ _) in H1; [exact H1 | | exact Hu].
    intros x s0 s0' Hx. unfold unique_accessions.
    rewrite (insert_patient_items _ _ _ Hx). exact id.
Qed.

Lemma keeps_flush : keeps (fun d => unique_accessions (view d)) flush.
Proof.
  intros d H. unfold flush. destruct (active d); [| exact H].
  destruct (flush_rows d) eqn:Hf; simpl; [| exact H].
  apply (flush_rows_unique _ _ Hf), H.
Qed.

Lemma keeps_commit : keeps unique_in_session commit.
Proof.
  unfold commit. apply keeps_bind; [apply keeps_liftS, keeps_flush |].
  intros _ [d w] [Hv _]. split; exact Hv.
Qed.

Lemma keeps_with_db {A} (body : M (Session * World) A) :
  keeps unique_in_session body ->
  keeps (fun w => unique_accessions (store w)) (with_db body).
Proof.
  intros Hb w H. unfold with_db, with_local.
  specialize (Hb (session_begin (store w), w) (conj H H)).
  destruct (body (session_begin (store w), w)) as [r [d w']].
  exact (proj2 Hb).
Qed.

Lemma translate_store (name : ustr) :
  preserves store (translate_korean_to_english_name E name).
Proof. intros w. apply translate_same_but_log. Qed.

Lemma process_order_unique (o : Order) (c : nat) :
  keeps unique_in_session (process_order E o c).
Proof.
  assert (Hlog : forall l msg,
            keeps unique_in_session (@liftW Session unit (orthanc_Log l msg))).
  { intros l msg. apply keeps_liftW. intros w. reflexivity. }
  assert (Hnow : keeps unique_in_session
                   (@liftW Session datetime (datetime_now E))).
  { apply keeps_liftW. intros w. reflexivity. }
  assert (Hadd : forall it,
            keeps unique_in_session (liftS (add_item it))).
  { intros it. apply keeps_liftS. intros d H. exact H. }
  unfold process_order.
  destruct (required o) as [[[[cht nam] dtm] seq] |].
  2:{ apply keeps_bind; [apply Hlog | intros _; apply keeps_ret]. }
  apply keeps_try_except.
  2:{ intros e. apply keeps_bind; [apply Hlog | intros _].
      apply keeps_bind; [apply Hlog | intros _; apply keeps_ret]. }
  apply keeps_bind; [apply keeps_liftS, keeps_query | intros patient].
  apply keeps_bind.
  { destruct patient; [apply keeps_ret |].
    apply keeps_bind; [apply keeps_liftW, translate_store | intros english].
    apply keeps_bind; [| intros _; apply keeps_liftS, keeps_flush].
    apply keeps_liftS. intros d H. exact H. }
  intros _. apply keeps_bind.
  { destruct dtm as [d0 | str]; [apply keeps_ret |].
    destruct (strptime E str); [apply keeps_ret |].
    apply keeps_bind; [apply Hlog | intros _].
    apply keeps_bind; [apply Hnow | intros d1].
    apply keeps_bind; [apply Hnow | intros d2; apply keeps_ret]. }
  intros [dt tm]. cbv zeta.
  apply keeps_bind; [apply keeps_liftS, keeps_query | intros existing].
  destruct existing.
  - apply keeps_bind; [apply Hlog | intros _; apply keeps_ret].
  - apply keeps_bind; [apply keeps_liftW; intros w; reflexivity | intros aets].
    apply keeps_bind; [apply Hadd | intros _].
    apply keeps_bind; [apply Hlog | intros _; apply keeps_ret].
Qed.

Lemma for_each_unique (orders : list Order) :
  forall c, keeps unique_in_session (for_each orders (process_order E) c).
Proof.
  induction orders as [| o rest IH]; intros c; simpl for_each.
  - apply keeps_ret.
  - apply keeps_bind; [apply process_order_unique | intros c'; apply IH].
Qed.

(** A run of the synchronization never leaves two worklist items with one
    accession number. *)
Lemma sync_unique_accessions (w : World) :
  unique_accessions (store w) ->
  unique_accessions (store (snd (sync_emr_orders E w))).
Proof.
  intros Hu.
  assert (Hbody : keeps unique_in_session
    (let! last := liftS (query last_seq) in
     liftW (LogInfo "Last processed order sequence") ;;
     let! fetched_ :=
       liftW (try_except
                (let! new_orders := fetch_new_orders last in
                 LogInfo "Fetched new orders from EMR" ;;
                 ret (Some new_orders))
                (fun _ =>
                   LogError "Error fetching orders from EMR" ;;
                   LogError "traceback" ;;
                   ret None)) in
     match fetched_ with
     | None => ret 0%nat
     | Some new_orders =>
         let! count := for_each new_orders (process_order E) 0%nat in
         commit ;;
         (if (0 <? count)%nat
          then liftW (LogInfo "Added new orders from EMR")
          else ret tt) ;;
         ret count
     end)).
  { apply keeps_bind; [apply keeps_liftS, keeps_query | intros last].
    apply keeps_bind; [apply keeps_liftW; intros w0; reflexivity | intros _].
    apply keeps_bind.
    { apply keeps_liftW. unfold fetch_new_orders, get_connection, LogInfo,
        LogError. frame. }
    intros [new_orders |]; [| apply keeps_ret].
    apply keeps_bind; [apply for_each_unique | intros count].
    apply keeps_bind; [apply keeps_commit | intros _].
    apply keeps_bind; [| intros _; apply keeps_ret].
    destruct (0 <? count)%nat; [| apply keeps_ret].
    apply keeps_liftW. intros w0. reflexivity. }
  revert w Hu.
  change (keeps (fun w => unique_accessions (store w))
            (try_except (with_db
               (let! last := liftS (query last_seq) in
                liftW (LogInfo "Last processed order sequence") ;;
                let! fetched_ :=
                  liftW (try_except
                           (let! new_orders := fetch_new_orders last in
                            LogInfo "Fetched new orders from EMR" ;;
                            ret (Some new_orders))
                           (fun _ =>
                              LogError "Error fetching orders from EMR" ;;
                              LogError "traceback" ;;
                              ret None)) in
                match fetched_ with
                | None => ret 0%nat
                | Some new_orders =>
                    let! count :=
                      for_each new_orders (process_order E) 0%nat in
                    commit ;;
                    (if (0 <? count)%nat
                     then liftW (LogInfo "Added new orders from EMR")
                     else ret tt) ;;
                    ret count
                end))
               (fun _ =>
                  LogError "Error in sync_emr_orders" ;;
                  LogError "traceback" ;;
                  ret 0%nat))).
  apply keeps_try_except.
  - apply keeps_with_db, Hbody.
  - intros e. apply keeps_bind; [intros w0 H; exact H | intros _].
    apply keeps_bind; [intros w0 H; exact H | intros _; apply keeps_ret].
Qed.

(** ** The worklist answers *)

Lemma update_study_instance_uid_spec (a uid : string) (w : World) :
  wp (update_study_instance_uid a uid)
     (fun r w' =>
        exists b, r = Ok b
          /\ patients (store w') = patients (store w)
          /\ store w' = match first_item a (store w) with
                        | Some _ => set_item_study_uid a uid (store w)
                        | None => store w
                        end) w.
Proof.
  unfold update_study_instance_uid. wp_steps.
  apply wp_query; [intros _ | discriminate]. cbv beta iota. simpl view.
  destruct (first_item a (store w)).
  - wp_steps.
    apply wp_flush; cbv beta iota;
      [discriminate | intros _ s Hs | intros _ Hs];
      unfold flush_rows in Hs; simpl in Hs; [| discriminate].
    injection Hs as <-. wp_steps. exists true. simpl. auto.
  - wp_steps. exists false. simpl. auto.
Qed.

Lemma build_worklist_object_spec (ps : list Patient) (row : Row)
  (acc : list WorklistDataset) (w : World) :
  row_of_patient ps row ->
  patients (store w) = ps ->
  Forall (fun rec => exists p, In p ps /\ display_name_rule p rec) acc ->
  wp (build_worklist_object E row acc)
     (fun r w' =>
        exists acc', r = Ok acc'
          /\ patients (store w') = ps
          /\ Forall (fun rec => exists p, In p ps /\ display_name_rule p rec)
                    acc') w.
Proof.
  intros (p & Hp & Hid & Hn & He) Hps Hacc. unfold build_worklist_object.
  cbv zeta.
  assert (Hend : forall uid w', patients (store w') = ps ->
    wp (ret (acc ++
         [{| PatientName :=
               if eq_opt (r_modality row) "US"
               then r_patient_eng_name row
               else Some (r_patient_name row);
             PatientID := r_patient_id row;
             SpecificCharacterSet := "ISO_IR 192";
             PatientBirthDate := r_birth_date row;
             PatientSex := r_sex row;
             ScheduledProcedureStepSequence :=
               [{| sps_Modality := r_modality row;
                   ScheduledStationAETitle := r_aet row;
                   ScheduledProcedureStepStartDate := r_appointment_date row;
                   ScheduledProcedureStepStartTime := r_appointment_time row;
                   ScheduledPerformingPhysicianName := "";
                   ScheduledProcedureStepDescription := "" |}];
             AccessionNumber := r_accession_number row;
             StudyInstanceUID := uid;
             StudyID := r_accession_number row |}])%list)
       (fun r w' =>
          exists acc', r = Ok acc'
            /\ patients (store w') = ps
            /\ Forall (fun rec => exists p, In p ps /\ display_name_rule p rec)
                      acc') w').
  { intros uid w' Hps'. wp_steps. eexists. split; [reflexivity |].
    split; [exact Hps' |].
    apply Forall_app. split; [exact Hacc |].
    constructor; [| constructor].
    exists p. split; [exact Hp |]. split; [exact Hid |].
    eexists. split; [reflexivity |]. simpl.
    rewrite Hn, He.
    destruct (eq_opt (r_modality row) "US") eqn:Hm.
    - apply eq_opt_true in Hm. rewrite bool_decide_eq_true_2; auto.
    - rewrite bool_decide_eq_false_2; [reflexivity |].
      intros H. apply eq_opt_true in H. congruence. }
  assert (Hgen :
    wp (let! uid := new_uid E in
        let! success :=
          update_study_instance_uid (r_accession_number row)
                                    (str_strip uid) in
        (if negb success
         then LogWarning "Error updating study UID"
         else LogInfo "Updated study UID") ;;
        ret (str_strip uid))
       (fun r s' =>
          match r with
          | Ok uid =>
              wp (ret (acc ++
         [{| PatientName :=
               if eq_opt (r_modality row) "US"
               then r_patient_eng_name row
               else Some (r_patient_name row);
             PatientID := r_patient_id row;
             SpecificCharacterSet := "ISO_IR 192";
             PatientBirthDate := r_birth_date row;
             PatientSex := r_sex row;
             ScheduledProcedureStepSequence :=
               [{| sps_Modality := r_modality row;
                   ScheduledStationAETitle := r_aet row;
                   ScheduledProcedureStepStartDate := r_appointment_date row;
                   ScheduledProcedureStepStartTime := r_appointment_time row;
                   ScheduledPerformingPhysicianName := "";
                   ScheduledProcedureStepDescription := "" |}];
             AccessionNumber := r_accession_number row;
             StudyInstanceUID := uid;
             StudyID := r_accession_number row |}])%list)
                 (fun r w' =>
                    exists acc', r = Ok acc'
                      /\ patients (store w') = ps
                      /\ Forall (fun rec =>
                                  exists p, In p ps /\ display_name_rule p rec)
                                acc') s'
          | Raise e =>
              exists acc', Raise e = Ok acc'
                /\ patients (store s') = ps
                /\ Forall (fun rec =>
                            exists p, In p ps /\ display_name_rule p rec)
                          acc'
          end) w).
  { wp_steps.
    eapply wp_mono; [| apply update_study_instance_uid_spec].
    cbv beta. intros r w' (b & -> & Hp' & _).
    destruct b; cbn [negb]; wp_steps; apply Hend; simpl;
      rewrite Hp'; exact Hps. }
  wp_step.
  destruct (r_study_instance_uid row) as [existing |]; [| exact Hgen].
  destruct (nonempty existing); [| exact Hgen].
  wp_steps. apply Hend, Hps.
Qed.

Lemma for_each_build_worklist_object (ps : list Patient) (rows : list Row) :
  forall (acc : list WorklistDataset) (w : World),
    Forall (row_of_patient ps) rows ->
    patients (store w) = ps ->
    Forall (fun rec => exists p, In p ps /\ display_name_rule p rec) acc ->
    wp (for_each rows (build_worklist_object E) acc)
       (fun r w' =>
          exists acc', r = Ok acc'
            /\ patients (store w') = ps
            /\ Forall (fun rec => exists p, In p ps /\ display_name_rule p rec)
                      acc') w.
Proof.
  induction rows as [| row rest IH]; intros acc w Hrows Hps Hacc;
    simpl for_each.
  - wp_steps. exists acc. auto.
  - inversion Hrows; subst. wp_step.
    eapply wp_mono; [| apply build_worklist_object_spec; eauto].
    cbv beta. intros r w' (acc' & -> & Hps' & Hacc').
    apply IH; assumption.
Qed.

Lemma join_patient_In (s : Store) (it : WorklistItem) (p : Patient) :
  In (it, p) (join_patient s) ->
  In it (worklist_items s) /\ In p (patients s)
  /\ patient_id p = wl_patient_id it.
Proof.
  unfold join_patient. rewrite in_flat_map. intros (it' & Hit & Hin).
  apply in_map_iff in Hin. destruct Hin as (p' & [= <- <-] & Hp).
  apply filter_In in Hp. destruct Hp as [Hp Heq].
  apply String.eqb_eq in Heq. auto.
Qed.

Lemma select_worklist_items_patients (m d a : option string) (s : Store) :
  Forall (row_of_patient (patients s)) (select_worklist_items m d a s).
Proof.
  rewrite select_worklist_items_satisfies. apply List.Forall_forall.
  intros row Hrow. apply in_map_iff in Hrow.
  destruct Hrow as ([it p] & <- & Hin). apply filter_In in Hin.
  destruct Hin as [Hin _]. apply join_patient_In in Hin.
  exists p. simpl. tauto.
Qed.

Lemma find_worklist_spec (requestedDS : Identifier) (w : World) :
  wp (find_worklist E requestedDS)
     (fun r w' =>
        exists recs, r = Ok recs
          /\ Forall (fun rec =>
                       exists p, In p (patients (store w'))
                                 /\ display_name_rule p rec) recs) w.
Proof.
  unfold find_worklist. wp_steps.
  apply wp_total; [apply sync_total |]. intros n w1 _.
  assert (Hrest : forall w2 sps_date sps_modality accession,
    wp (LogInfo "Searching for worklist items" ;;
        let! db_items :=
          get_worklist_items sps_modality sps_date accession in
        LogInfo "Found worklist items in database" ;;
        let! worklist_objects :=
          for_each db_items (build_worklist_object E) [] in
        LogInfo "Returning worklist objects" ;;
        ret worklist_objects)
       (fun r w' =>
          exists recs, r = Ok recs
            /\ Forall (fun rec =>
                         exists p, In p (patients (store w'))
                                   /\ display_name_rule p rec) recs) w2).
  { intros w2 sps_date sps_modality accession. wp_steps.
    unfold wp at 1. rewrite get_worklist_items_run. cbn [fst snd].
    wp_steps.
    eapply wp_mono;
      [| apply (for_each_build_worklist_object (patients (store w2)));
         [apply select_worklist_items_patients | reflexivity | constructor] ].
    cbv beta. intros r w' (recs & -> & Hps & Hrecs).
    wp_steps. exists recs. split; [reflexivity |].
    simpl. rewrite Hps. exact Hrecs. }
  destruct (0 <? n)%nat; wp_steps;
    destruct (q_ScheduledProcedureStepSequence requestedDS) as [[| q0 ?] |];
    apply Hrest.
Qed.

(** C8. Every answer of a worklist query carries the display name of its
    patient selected by modality: the romanized name when the modality of
    the scheduled step is "US", the local-script name for every other
    modality. *)
Theorem find_worklist_display_name :
  forall (requestedDS : Identifier) (w : World),
  exists (recs : list WorklistDataset) (w' : World),
    find_worklist E requestedDS w = (Ok recs, w')
    /\ Forall (fun rec =>
                 exists p, In p (patients (store w'))
                           /\ display_name_rule p rec) recs.
Proof.
  intros requestedDS w.
  pose proof (find_worklist_spec requestedDS w) as H. unfold wp in H.
  destruct (find_worklist E requestedDS w) as [r w']. simpl in H.
  destruct H as (recs & -> & Hrecs). exists recs, w'. auto.
Qed.

(** ** The C-FIND generator *)

Lemma find_next_resumed (g : find_gen) (c : bool) (w : World) :
  resumed g ->
  exists g' y, find_next E g c w = (Ok (g', y), w) /\ resumed g'.
Proof.
  destruct g as [id | rest | |]; intros Hg; [destruct Hg | | |].
  - simpl. unfold ret, find_loop.
    destruct rest as [| x rest]; [| destruct c];
      do 2 eexists; (split; [reflexivity | exact I]).
  - do 2 eexists; (split; [reflexivity | exact I]).
  - do 2 eexists; (split; [reflexivity | exact I]).
Qed.

Lemma consume_resumed (cs : list bool) :
  forall (g : find_gen) (w : World),
    resumed g ->
    exists g' ys, consume E g cs w = (Ok (g', ys), w).
Proof.
  induction cs as [| c cs IH]; intros g w Hg; cbn [consume].
  - unfold ret. eauto.
  - destruct (find_next_resumed g c w Hg) as (g1 & y & Hrun & Hg1).
    unfold bind at 1. rewrite Hrun.
    destruct y as [v |]; [| unfold ret; eauto].
    destruct (IH g1 w Hg1) as (g2 & ys & Hrun2).
    unfold bind. rewrite Hrun2. unfold ret. eauto.
Qed.

Lemma find_next_first (id : Identifier) (c : bool) (w : World) :
  exists g' y,
    find_next E (handle_find id) c w = (Ok (g', y), snd (run_query E id w))
    /\ resumed g'.
Proof.
  pose proof (find_worklist_spec id (add_log Info "C-FIND request received" w))
    as H.
  unfold wp in H. destruct H as (recs & Hr & _).
  unfold handle_find, find_next, run_query, try_except, bind, LogInfo,
    orthanc_Log, modify.
  destruct (find_worklist E id _) as [r w']. simpl in Hr. subst r.
  simpl. unfold ret, find_loop.
  destruct recs as [| x rest]; [| destruct c];
    do 2 eexists; (split; [reflexivity | exact I]).
Qed.

(** C6, as the code has it.  Nothing of the handler runs before the first
    resumption.  At the first resumption the whole query runs -- the
    synchronization and the study identifier writes of every matching
    record -- before the first record is yielded; no later resumption has
    any effect.  So every write precedes the yield of its record, and the
    state a caller leaves behind by abandoning the sequence after one or
    more resumptions is the state of the completed query, whichever
    records it consumed. *)
Theorem find_effects_at_first_resumption :
  forall (id : Identifier) (w : World),
    consume E (handle_find id) [] w = (Ok (handle_find id, []), w)
    /\ (forall (c : bool) (cs : list bool),
          snd (consume E (handle_find id) (c :: cs) w)
          = snd (run_query E id w))
    /\ (forall (g : find_gen) (c : bool) (w1 : World),
          resumed g -> snd (find_next E g c w1) = w1).
Proof.
  intros id w. split; [reflexivity |]. split.
  - intros c cs.
    destruct (find_next_first id c w) as (g1 & y & Hrun & Hg1).
    unfold handle_find in *. cbn [consume].
    unfold bind at 1. rewrite Hrun.
    destruct y as [v |]; [| reflexivity].
    destruct (consume_resumed cs g1 (snd (run_query E id w)) Hg1)
      as (g2 & ys & Hrun2).
    unfold bind. rewrite Hrun2. reflexivity.
  - intros g c w1 Hg.
    destruct (find_next_resumed g c w1 Hg) as (g' & y & -> & _). reflexivity.
Qed.

(** ** Synchronization: what one run creates *)

Lemma sync_run (w : World) :
  exists (n : nat) (new : list WorklistItem) (w' : World),
    sync_emr_orders E w = (Ok n, w')
    /\ (n <= length (fetched (last_seq (store w)) w))%nat
    /\ length new = n
    /\ worklist_items (store w') = (worklist_items (store w) ++ new)%list
    /\ (Forall (skips (store w)) (fetched (last_seq (store w)) w) ->
        n = 0%nat).
Proof.
  pose proof (sync_spec w) as H. unfold wp in H.
  destruct (sync_emr_orders E w) as [r w']. simpl in H.
  destruct H as (n & new & -> & H). exists n, new, w'. auto.
Qed.

(** Orders whose derived accession number is already in the store, and
    orders with a required field missing, are skipped: a run that fetches
    only such orders returns 0 and leaves the worklist items as they were. *)
Lemma sync_skips_existing_orders (w : World) :
  Forall (skips (store w)) (fetched (last_seq (store w)) w) ->
  exists w', sync_emr_orders E w = (Ok 0%nat, w')
             /\ worklist_items (store w') = worklist_items (store w).
Proof.
  intros Hall. destruct (sync_run w) as (n & new & w' & Hrun & _ & Hlen & Hit & Hz).
  rewrite (Hz Hall) in *. destruct new; [| discriminate].
  rewrite app_nil_r in Hit. eauto.
Qed.

(** C10. One fetch from the order source returns at most 5 orders, and one
    run of the synchronization returns a count of at most 5 and appends
    exactly that many worklist items to the store. *)
Theorem sync_creates_at_most_five :
  (forall (last : option Z) (w : World),
      exists (orders : list Order) (w' : World),
        fetch_new_orders last w = (Ok orders, w')
        /\ (length orders <= 5)%nat)
  /\ (forall w : World,
        exists (n : nat) (new : list WorklistItem) (w' : World),
          sync_emr_orders E w = (Ok n, w')
          /\ (n <= 5)%nat
          /\ length new = n
          /\ worklist_items (store w')
             = (worklist_items (store w) ++ new)%list).
Proof.
  split.
  - intros last w. pose proof (fetch_new_orders_spec last w) as H.
    unfold wp in H. destruct (fetch_new_orders last w) as [r w'].
    simpl in H. destruct H as (-> & _). exists (fetched last w), w'.
    split; [reflexivity | apply fetched_length].
  - intros w.
    destruct (sync_run w) as (n & new & w' & Hrun & Hn & Hlen & Hit & _).
    exists n, new, w'. repeat split; auto.
    pose proof (fetched_length (last_seq (store w)) w). lia.
Qed.

(** ** Accession numbers *)

Lemma length_zeros (n : nat) : String.length (zeros n) = n.
Proof.
  induction n as [| n IH]; simpl; [reflexivity | rewrite IH; reflexivity].
Qed.

Lemma length_string_app (s t : string) :
  String.length (s ++ t) = (String.length s + String.length t)%nat.
Proof.
  induction s as [| c s IH]; simpl; [reflexivity | rewrite IH; reflexivity].
Qed.

Lemma zfill_length (width : nat) (s : string) :
  String.length (zfill width s) = Nat.max width (String.length s).
Proof.
  unfold zfill. destruct s as [| c r]; simpl.
  - rewrite length_zeros. lia.
  - destruct (Ascii.eqb c "-" || Ascii.eqb c "+")%bool; simpl;
      rewrite length_string_app, length_zeros; simpl; lia.
Qed.

Lemma uint_of_string_zeros (n : nat) (s : string) (d : Decimal.uint) :
  NilEmpty.uint_of_string s = Some d ->
  NilEmpty.uint_of_string (zeros n ++ s) = Some (Nat.iter n Decimal.D0 d).
Proof.
  intros H. induction n as [| n IH]; simpl; [exact H |].
  rewrite IH. reflexivity.
Qed.

Lemma of_uint_zeros (n : nat) (d : Decimal.uint) :
  Pos.of_uint (Nat.iter n Decimal.D0 d) = Pos.of_uint d.
Proof. induction n as [| n IH]; simpl; [reflexivity | exact IH]. Qed.

Lemma string_of_uint_first (d : Decimal.uint) (c : ascii) (r : string) :
  NilEmpty.string_of_uint d = String c r ->
  (Ascii.eqb c "-" || Ascii.eqb c "+")%bool = false.
Proof. destruct d; simpl; intros [= <- _]; reflexivity. Qed.

Lemma int_of_string_unsigned (t : string) :
  (forall r, t <> String "-" r) ->
  NilEmpty.int_of_string t
  = option_map Decimal.Pos (NilEmpty.uint_of_string t).
Proof.
  intros H. destruct t as [| a r]; [reflexivity |].
  unfold NilEmpty.int_of_string.
  destruct (Ascii.eqb_spec a "-") as [-> | _]; [| reflexivity].
  exfalso. apply (H r). reflexivity.
Qed.

Lemma zfill_unsigned (width : nat) (d : Decimal.uint) :
  d <> Decimal.Nil ->
  int_of_accession (zfill width (NilEmpty.string_of_uint d))
  = Some (Z.of_uint d).
Proof.
  intros Hd. unfold int_of_accession.
  destruct (NilEmpty.string_of_uint d) as [| c r] eqn:Hs.
  { destruct d; simpl in Hs; congruence. }
  pose proof (string_of_uint_first d c r Hs) as Hc.
  unfold zfill. rewrite Hc. rewrite <- Hs.
  rewrite int_of_string_unsigned.
  - rewrite (uint_of_string_zeros _ _ d (NilEmpty.usu d)). simpl.
    unfold Z.of_uint. rewrite of_uint_zeros. reflexivity.
  - intros t Ht. rewrite Hs in Ht.
    destruct (width - String.length (String c r))%nat; simpl in Ht.
    + injection Ht as -> _. discriminate Hc.
    + discriminate Ht.
Qed.

Lemma zfill_int_of_accession (width : nat) (z : Z) :
  int_of_accession (zfill width (str_of_int z)) = Some z.
Proof.
  unfold str_of_int. destruct z as [| p | p]; simpl Z.to_int.
  - change (NilZero.string_of_int (Decimal.Pos (Decimal.D0 Decimal.Nil)))
      with (NilEmpty.string_of_uint (Decimal.D0 Decimal.Nil)).
    rewrite zfill_unsigned by discriminate. reflexivity.
  - unfold NilZero.string_of_int, NilZero.string_of_uint.
    pose proof (DecimalPos.Unsigned.to_uint_nonnil p) as Hp.
    replace (match Pos.to_uint p with
             | Decimal.Nil => "0"
             | _ => NilEmpty.string_of_uint (Pos.to_uint p)
             end)
      with (NilEmpty.string_of_uint (Pos.to_uint p))
      by (destruct (Pos.to_uint p); congruence).
    rewrite zfill_unsigned by exact Hp.
    unfold Z.of_uint. rewrite DecimalPos.Unsigned.of_to. reflexivity.
  - unfold NilZero.string_of_int, NilZero.string_of_uint.
    pose proof (DecimalPos.Unsigned.to_uint_nonnil p) as Hp.
    replace (match Pos.to_uint p with
             | Decimal.Nil => "0"
             | _ => NilEmpty.string_of_uint (Pos.to_uint p)
             end)
      with (NilEmpty.string_of_uint (Pos.to_uint p))
      by (destruct (Pos.to_uint p); congruence).
    unfold zfill, int_of_accession. simpl.
    rewrite (uint_of_string_zeros _ _ _ (NilEmpty.usu (Pos.to_uint p))).
    simpl. unfold Z.of_uint. rewrite of_uint_zeros.
    rewrite DecimalPos.Unsigned.of_to. reflexivity.
Qed.

(** X1. Distinct sequence numbers have distinct accession numbers: the
    accession number reads back as the sequence number it was derived from,
    and it has at least eight characters. *)
Theorem accession_of_seq_injective :
  (forall seq : Z, int_of_accession (accession_of_seq seq) = Some seq)
  /\ (forall seq seq' : Z,
        accession_of_seq seq = accession_of_seq seq' -> seq = seq')
  /\ (forall seq : Z,
        String.length (accession_of_seq seq)
        = Nat.max 8 (String.length (str_of_int seq))).
Proof.
  split; [| split].
  - intros seq. apply zfill_int_of_accession.
  - intros seq seq' H.
    pose proof (zfill_int_of_accession 8 seq) as H1.
    pose proof (zfill_int_of_accession 8 seq') as H2.
    unfold accession_of_seq in H. rewrite H in H1. congruence.
  - intros seq. apply zfill_length.
Qed.

(** ** The order source: the newest five *)

Lemma seq_geb_total (a b : EmrRow) : seq_geb a b = true \/ seq_geb b a = true.
Proof.
  unfold seq_geb.
  destruct (PcsOdrSeq (row_order a)) as [x |],
           (PcsOdrSeq (row_order b)) as [y |]; auto.
  rewrite !Z.leb_le. lia.
Qed.

Lemma seq_geb_trans (a b c : EmrRow) :
  seq_geb a b = true -> seq_geb b c = true -> seq_geb a c = true.
Proof.
  unfold seq_geb.
  destruct (PcsOdrSeq (row_order a)) as [x |],
           (PcsOdrSeq (row_order b)) as [y |],
           (PcsOdrSeq (row_order c)) as [z |]; auto; try discriminate.
  rewrite !Z.leb_le. lia.
Qed.

Lemma insert_desc_perm (r : EmrRow) (l : list EmrRow) :
  Permutation (insert_desc r l) (r :: l).
Proof.
  induction l as [| x t IH]; simpl; [reflexivity |].
  destruct (seq_geb r x); [reflexivity |].
  rewrite IH. apply perm_swap.
Qed.

Lemma insert_desc_sorted (r : EmrRow) (l : list EmrRow) :
  StronglySorted seq_ge l -> StronglySorted seq_ge (insert_desc r l).
Proof.
  induction l as [| x t IH]; intros Hs; simpl.
  - constructor; [constructor | constructor].
  - inversion Hs as [| ? ? Ht Hx]; subst.
    destruct (seq_geb r x) eqn:Hrx.
    + constructor; [exact Hs |]. constructor; [exact Hrx |].
      eapply List.Forall_impl; [| exact Hx].
      intros y Hy. eapply seq_geb_trans; eauto.
    + constructor; [apply IH, Ht |].
      apply List.Forall_forall. intros y Hy.
      apply (Permutation_in _ (insert_desc_perm r t)) in Hy.
      destruct Hy as [<- | Hy].
      * destruct (seq_geb_total r x) as [H | H]; [congruence | exact H].
      * apply (proj1 (List.Forall_forall _ _) Hx), Hy.
Qed.

Lemma order_by_desc_perm (l : list EmrRow) : Permutation (order_by_desc l) l.
Proof.
  unfold order_by_desc. induction l as [| x t IH]; simpl; [reflexivity |].
  rewrite insert_desc_perm, IH. reflexivity.
Qed.

Lemma order_by_desc_sorted (l : list EmrRow) :
  StronglySorted seq_ge (order_by_desc l).
Proof.
  unfold order_by_desc. induction l as [| x t IH]; simpl.
  - constructor.
  - apply insert_desc_sorted, IH.
Qed.

Lemma sorted_take_drop (n : nat) (l : list EmrRow) :
  StronglySorted seq_ge l ->
  StronglySorted seq_ge (take n l)
  /\ forall x y, In x (take n l) -> In y (drop n l) -> seq_ge x y.
Proof.
  revert l. induction n as [| n IH]; intros l Hs.
  - simpl. split; [constructor | intros x y []].
  - destruct l as [| a t]; simpl.
    + split; [constructor | intros x y []].
    + inversion Hs as [| ? ? Ht Ha]; subst.
      destruct (IH t Ht) as [Hst Hdom]. split.
      * constructor; [exact Hst |].
        apply List.Forall_forall. intros y Hy.
        apply (proj1 (List.Forall_forall _ _) Ha).
        rewrite <- (take_drop n t). apply in_or_app. left. exact Hy.
      * intros x y [<- | Hx] Hy; [| apply Hdom; assumption].
        apply (proj1 (List.Forall_forall _ _) Ha).
        rewrite <- (take_drop n t). apply in_or_app. right. exact Hy.
Qed.

Lemma newer_than_true (last : option Z) (r : EmrRow) :
  newer_than last r = true <->
  PcsDelFlg r = "N"
  /\ forall l, last = Some l ->
               exists z, PcsOdrSeq (row_order r) = Some z /\ l < z.
Proof.
  unfold newer_than. rewrite andb_true_iff, String.eqb_eq.
  destruct last as [l |].
  - destruct (PcsOdrSeq (row_order r)) as [z |].
    + rewrite Z.ltb_lt. split.
      * intros [Hd Hl]. split; [exact Hd |]. intros l' [= <-]. eauto.
      * intros [Hd H]. split; [exact Hd |].
        destruct (H l eq_refl) as (z' & [= <-] & Hlt). exact Hlt.
    + split.
      * intros [_ H]. discriminate H.
      * intros [_ H]. destruct (H l eq_refl) as (z' & Hz & _). discriminate.
  - split; intros [Hd _]; (split; [exact Hd |]); [discriminate | reflexivity].
Qed.

(** X2. A fetch returns the newest eligible orders, newest first: the rows
    that are not deleted and lie above the cursor, the five with the highest
    sequence numbers of them in descending order; nothing when the order
    source cannot be reached. It changes nothing but the log. *)
Theorem fetch_new_orders_newest_first :
  forall (last : option Z) (w : World),
  exists (top rest : list EmrRow) (w' : World),
    fetch_new_orders last w = (Ok (map row_order top), w')
    /\ same_but_log w w'
    /\ Permutation (eligible last w) (top ++ rest)
    /\ length top = Nat.min 5 (length (eligible last w))
    /\ StronglySorted seq_ge top
    /\ Forall (fun x => Forall (seq_ge x) rest) top
    /\ Forall (fun x => PcsDelFlg x = "N" /\ above_cursor last x) top.
Proof.
  intros last w.
  set (sorted := order_by_desc (eligible last w)).
  exists (take 5 sorted), (drop 5 sorted).
  assert (Hperm : Permutation (eligible last w)
                    (take 5 sorted ++ drop 5 sorted)).
  { rewrite take_drop. symmetry. apply order_by_desc_perm. }
  destruct (sorted_take_drop 5 sorted (order_by_desc_sorted _))
    as [Hsorted Hdom].
  assert (Hrun : exists w',
            fetch_new_orders last w = (Ok (map row_order (take 5 sorted)), w')
            /\ same_but_log w w').
  { unfold fetch_new_orders, get_connection, bind, gets, sorted, eligible,
      select_top5.
    destruct (emr w) as [rows |]; simpl;
      eexists; (split; [reflexivity |]); unfold same_but_log; simpl;
      repeat split. }
  destruct Hrun as (w' & Hrun & Hsame). exists w'.
  split; [exact Hrun |]. split; [exact Hsame |]. split; [exact Hperm |].
  split.
  { rewrite length_take. unfold sorted.
    rewrite (Permutation_length (order_by_desc_perm _)). reflexivity. }
  split; [exact Hsorted |]. split.
  { apply List.Forall_forall. intros x Hx.
    apply List.Forall_forall. intros y Hy. exact (Hdom x y Hx Hy). }
  apply List.Forall_forall. intros x Hx.
  assert (Hin : In x (eligible last w)).
  { apply (Permutation_in _ (Permutation_sym Hperm)).
    apply in_or_app. left. exact Hx. }
  unfold eligible in Hin. apply filter_In in Hin. destruct Hin as [_ Hin].
  apply newer_than_true in Hin. destruct Hin as [Hd Hl].
  split; [exact Hd |]. unfold above_cursor.
  destruct last as [l |]; [exact (Hl l eq_refl) | exact I].
Qed.

(** ** The order source: status updates *)

(** X3. [update_order_status] answers True exactly when the order source is
    reachable and holds a row with the sequence number; it rewrites the status
    column of those rows and nothing else, and it never touches the store or
    the managed instances. *)
Theorem update_order_status_rows :
  forall (seq : Z) (st : string) (w : World),
  exists (b : bool) (w' : World),
    update_order_status seq st w = (Ok b, w')
    /\ store w' = store w
    /\ managed_instances w' = managed_instances w
    /\ match emr w with
       | None => b = false /\ emr w' = None
       | Some rows =>
           (b = true <->
            exists r, In r rows /\ PcsOdrSeq (row_order r) = Some seq)
           /\ exists rows',
                emr w' = Some rows'
                /\ Forall2 (row_updated seq st) rows rows'
       end.
Proof.
  intros seq st w.
  assert (Hseq : forall r, has_seq seq r = true
                           <-> PcsOdrSeq (row_order r) = Some seq).
  { intros r. unfold has_seq. destruct (PcsOdrSeq (row_order r)) as [z |].
    - rewrite Z.eqb_eq. split; [intros -> | intros [= ->]]; reflexivity.
    - split; discriminate. }
  unfold update_order_status, get_connection, bind, gets.
  destruct (emr w) as [rows |] eqn:He; simpl.
  - eexists _, _. split; [reflexivity |]. simpl.
    split; [reflexivity |]. split; [reflexivity |]. split.
    + rewrite Nat.ltb_lt. split.
      * intros Hlen.
        destruct (List.filter (has_seq seq) rows) as [| r t] eqn:Hf;
          [simpl in Hlen; lia |].
        assert (Hin : In r (List.filter (has_seq seq) rows))
          by (rewrite Hf; left; reflexivity).
        apply filter_In in Hin. exists r. split; [apply Hin |].
        apply Hseq, Hin.
      * intros (r & Hin & Hr).
        assert (Hf : In r (List.filter (has_seq seq) rows)).
        { apply filter_In. split; [exact Hin | apply Hseq, Hr]. }
        destruct (List.filter (has_seq seq) rows); [destruct Hf |].
        simpl. lia.
    + eexists. split; [reflexivity |].
      clear He. induction rows as [| r t IH]; simpl; constructor; [| exact IH].
      unfold row_updated. destruct (has_seq seq r) eqn:Hr.
      * apply Hseq in Hr. simpl.
        rewrite bool_decide_eq_true_2 by exact Hr. auto.
      * rewrite bool_decide_eq_false_2; [auto |].
        intros H. apply Hseq in H. congruence.
  - eexists _, _. split; [reflexivity |]. simpl. rewrite He. auto.
Qed.

(** ** Synchronization: what a run makes of the store *)

Lemma insert_all_patient_tables (l : list Patient) :
  forall s s', insert_all insert_patient l s = Some s' ->
    patients s' = (patients s ++ l)%list
    /\ worklist_items s' = worklist_items s
    /\ mpps_tracking s' = mpps_tracking s
    /\ modality_aets s' = modality_aets s
    /\ (unique_patients s -> unique_patients s').
Proof.
  induction l as [| p r IH]; intros s s'; simpl.
  - intros [= <-]. rewrite app_nil_r. auto.
  - unfold insert_patient at 1. destruct (has_patient (patient_id p) s) eqn:Hp;
      [discriminate |].
    intros Hr. destruct (IH _ _ Hr) as (H1 & H2 & H3 & H4 & H5).
    simpl in *. rewrite H1, <- app_assoc. repeat split; auto.
    intros Hu. apply H5. unfold unique_patients in *. simpl.
    rewrite map_app. simpl. apply NoDup_app.
    split; [exact Hu |]. split; [| apply NoDup_singleton].
    intros a Ha Hin. apply list_elem_of_singleton in Hin. subst a.
    apply list_elem_of_In, in_map_iff in Ha. destruct Ha as (q & Hq & Hin).
    assert (Hc : has_patient (patient_id p) s = true).
    { unfold has_patient. apply existsb_exists. exists q.
      split; [exact Hin | apply String.eqb_eq, Hq]. }
    congruence.
Qed.

Lemma insert_all_item_tables (l : list WorklistItem) :
  forall s s', insert_all insert_item l s = Some s' ->
    patients s' = patients s
    /\ worklist_items s' = (worklist_items s ++ l)%list
    /\ mpps_tracking s' = mpps_tracking s
    /\ modality_aets s' = modality_aets s.
Proof.
  induction l as [| it r IH]; intros s s'; simpl.
  - intros [= <-]. rewrite app_nil_r. auto.
  - unfold insert_item at 1. destruct (modality it); [| discriminate].
    destruct (has_accession (accession_number it) s); [discriminate |].
    intros Hr. destruct (IH _ _ Hr) as (H1 & H2 & H3 & H4).
    simpl in *. rewrite H2, <- app_assoc. auto.
Qed.

Lemma insert_all_mpps_tables (l : list MPPSTracking) :
  forall s s', insert_all insert_mpps l s = Some s' ->
    patients s' = patients s
    /\ worklist_items s' = worklist_items s
    /\ mpps_tracking s' = (mpps_tracking s ++ l)%list
    /\ modality_aets s' = modality_aets s.
Proof.
  induction l as [| m r IH]; intros s s'; simpl.
  - intros [= <-]. rewrite app_nil_r. auto.
  - unfold insert_mpps at 1. destruct (has_sop (sop_instance_uid m) s);
      [discriminate |].
    intros Hr. destruct (IH _ _ Hr) as (H1 & H2 & H3 & H4).
    simpl in *. rewrite H3, <- app_assoc. auto.
Qed.

(** A successful flush appends the pending rows to their tables and changes
    nothing else. *)
Lemma flush_rows_tables (d : Session) (s : Store) :
  flush_rows d = Some s ->
  patients s = (patients (view d) ++ new_patients d)%list
  /\ worklist_items s = (worklist_items (view d) ++ new_items d)%list
  /\ mpps_tracking s = (mpps_tracking (view d) ++ new_mpps d)%list
  /\ modality_aets s = modality_aets (view d)
  /\ (unique_patients (view d) -> unique_patients s).
Proof.
  unfold flush_rows.
  destruct (insert_all insert_patient _ _) as [s1 |] eqn:H1; [| discriminate].
  destruct (insert_all insert_item _ _) as [s2 |] eqn:H2; [| discriminate].
  intros H3.
  apply insert_all_patient_tables in H1. apply insert_all_item_tables in H2.
  apply insert_all_mpps_tables in H3.
  destruct H1 as (A1 & A2 & A3 & A4 & A5), H2 as (B1 & B2 & B3 & B4),
           H3 as (C1 & C2 & C3 & C4).
  unfold unique_patients in *.
  rewrite C1, C2, C3, C4, B1, B2, B3, B4, A1, A2, A3, A4.
  repeat split; auto. rewrite <- A1. exact A5.
Qed.

Lemma has_patient_grows (pid : string) (s s' : Store) (ps : list Patient) :
  patients s' = (patients s ++ ps)%list ->
  has_patient pid s = true -> has_patient pid s' = true.
Proof.
  unfold has_patient. intros -> H. rewrite existsb_app, H. reflexivity.
Qed.

Lemma first_patient_has (pid : string) (s : Store) (p : Patient) :
  first_patient pid s = Some p -> has_patient pid s = true.
Proof.
  unfold first_patient, has_patient. intros H. apply find_some in H.
  apply existsb_exists. exists p. exact H.
Qed.

Lemma wp_translate_value (name : ustr) (Q : result ustr -> World -> Prop)
  (w : World) :
  (forall w', same_but_log w w' -> Q (Ok (english_name E name)) w') ->
  wp (translate_korean_to_english_name E name) Q w.
Proof.
  intros H. unfold wp. rewrite translate_value.
  apply H, translate_same_but_log.
Qed.

Lemma grown_from_orders (L L' : list Order) (s0 s : Store) :
  (forall o, In o L -> In o L') ->
  grown_from E L s0 s -> grown_from E L' s0 s.
Proof.
  intros Hsub (H1 & H2 & H3 & ps & fl & H4 & H5 & H6 & H7 & H8).
  split; [exact H1 |]. split; [exact H2 |]. split; [exact H3 |].
  exists ps, fl. repeat split; auto.
  - eapply List.Forall_impl; [| exact H5].
    intros p (o & cht & nam & dtm & seq & Ho & Hr). do 5 eexists. eauto.
  - eapply List.Forall_impl; [| exact H7].
    intros it (o & cht & nam & dtm & seq & Ho & Hr). do 5 eexists. eauto.
Qed.

Lemma process_order_state (L : list Order) (s0 : Store) (o : Order)
  (c : nat) (d : Session) (w : World) :
  In o L ->
  sync_state E L s0 (d, w) ->
  wp (process_order E o c)
     (fun r x' => (exists c', r = Ok c') /\ sync_state E L s0 x') (d, w).
Proof.
  intros Ho Hinv. unfold process_order.
  destruct (required o) as [[[[cht nam] dtm] seq] |] eqn:Hreq.
  2:{ wp_steps. split; [eauto |]. exact Hinv. }
  (* the handler keeps the state it is given *)
  assert (Hfail : forall (x : Session * World),
            sync_state E L s0 x ->
            wp (liftW (LogError "Error processing order") ;;
                liftW (LogError "traceback") ;; ret c)
               (fun r x' => (exists c', r = Ok c') /\ sync_state E L s0 x')
               x).
  { intros [d' w'] Hx. wp_steps. split; [eauto |]. exact Hx. }
  wp_step. wp_step. wp_step. apply wp_query; cbv beta iota.
  2:{ intros _. apply Hfail, Hinv. }
  intros Hact. wp_step.
  (* resolve the patient *)
  eapply (wp_mono _
    (fun r x' =>
       match r with
       | Ok _ => sync_state E L s0 x' /\ active (fst x') = true
                 /\ has_patient cht (view (fst x')) = true
       | Raise _ => sync_state E L s0 x'
       end)).
  - (* the rest of the body *)
    intros [u | e] [d1 w1]; [| apply Hfail].
    intros (Hi1 & Ha1 & Hpat). simpl in Ha1, Hpat.
    destruct Hi1 as [Hs1 Hi1]. simpl in Hs1.
    destruct (Hi1 Ha1) as (Hnp & Hnm & Hg & Hit & Hfk). simpl in *.
    wp_step.
    eapply (wp_mono _
      (fun r x' =>
         match r with
         | Ok (dt, tm) =>
             fst x' = d1 /\ store (snd x') = s0
             /\ match dtm with
                | DtmDatetime d0 =>
                    dt = strftime_Ymd d0 /\ tm = strftime_HMS d0
                | DtmString s =>
                    match strptime E s with
                    | Some d0 => dt = strftime_Ymd d0 /\ tm = strftime_HMS d0
                    | None => True
                    end
                end
         | Raise _ => False
         end)).
    + intros [[dt tm] | e] [d2 w2]; [| intros []].
      intros (Hd2 & Hs2 & Hdt). simpl in Hd2, Hs2. subst d2. cbv zeta.
      wp_steps. apply wp_query; cbv beta iota; [intros _ | congruence].
      destruct (first_item (accession_of_seq seq) (view d1)).
      * wp_steps. split; [eauto |]. split; [exact Hs2 |]. exact Hi1.
      * wp_steps. unfold wp. cbn [fst snd get_aets_for_modality].
        change (with_db _ w2)
          with (Ok (aets_for (PcsUntCod o) (store w2)), w2).
        cbn [fst snd]. wp_steps.
        split; [eauto |]. split; [exact Hs2 |]. simpl. intros _.
        split; [exact Hnp |]. split; [exact Hnm |]. split; [exact Hg |].
        split; apply Forall_app; (split; [assumption |]);
          (constructor; [| constructor]); simpl; [| exact Hpat].
        exists o, cht, nam, dtm, seq. rewrite Hs2.
        repeat (split; [first [assumption | reflexivity] |]).
        unfold appointment_of. simpl.
        destruct dtm as [d0 | str]; [exact Hdt |].
        destruct (strptime E str); [exact Hdt | exact I].
    + destruct dtm as [d0 | str].
      * wp_steps. auto.
      * destruct (strptime E str) as [d0 |].
        -- wp_steps. auto.
        -- wp_steps. simpl. auto.
  - (* the patient is found, or created and flushed *)
    destruct Hinv as [Hst Hinv]. simpl in Hst.
    destruct (Hinv Hact) as (Hnp & Hnm & Hg & Hit & Hfk). simpl in *.
    destruct (first_patient cht (view d)) as [p |] eqn:Hp.
    + wp_steps. split; [split; [exact Hst | exact Hinv] |].
      split; [exact Hact |]. simpl. eapply first_patient_has, Hp.
    + do 2 wp_step. apply wp_translate_value. intros w1 Hsame.
      cbv beta iota. wp_steps.
      apply wp_flush; cbv beta iota.
      * simpl. congruence.
      * intros _ s Hs. apply flush_rows_tables in Hs. simpl in Hs.
        rewrite Hnp, Hnm in Hs. simpl in Hs. rewrite app_nil_r in Hs.
        destruct Hs as (T1 & T2 & T3 & T4 & T5).
        destruct Hg as (G1 & G2 & G3 & ps & fl & G4 & G5 & G6 & G7 & G8).
        assert (Hpat : has_patient cht s = true).
        { unfold has_patient. rewrite T1, existsb_app. simpl.
          rewrite String.eqb_refl. apply orb_true_iff. right. reflexivity. }
        assert (Hgrow : forall pid, has_patient pid (view d) = true ->
                                    has_patient pid s = true).
        { intros pid. eapply has_patient_grows, T1. }
        split; [| split; [reflexivity | exact Hpat]].
        split; [simpl; destruct Hsame as [-> _]; exact Hst |].
        simpl. intros _. split; [reflexivity |]. split; [reflexivity |].
        split; [| split; constructor].
        split; [congruence |]. split; [congruence |].
        split; [intros Hu; apply T5, G3, Hu |].
        exists (ps ++ [{| patient_id := cht; patient_name := nam;
                         patient_eng_name := Some (english_name E nam);
                         birth_date := PcsBirDte o;
                         sex := PcsSexTyp o |}])%list,
               (fl ++ new_items d)%list.
        rewrite T1, T2, G4, G6, <- !app_assoc.
        split; [reflexivity |]. split.
        { apply Forall_app. split; [exact G5 |].
          constructor; [| constructor].
          exists o, cht, nam, dtm, seq. auto. }
        split; [reflexivity |]. split.
        { apply Forall_app. split; assumption. }
        apply Forall_app. split.
        -- eapply List.Forall_impl; [| exact G8]. intros it. apply Hgrow.
        -- eapply List.Forall_impl; [| exact Hfk]. intros it. apply Hgrow.
      * intros _ _. split; [| simpl; discriminate].
        simpl. destruct Hsame as [-> _]. exact Hst.
Qed.

Lemma grown_from_refl (L : list Order) (s : Store) : grown_from E L s s.
Proof.
  split; [reflexivity |]. split; [reflexivity |]. split; [auto |].
  exists [], []. rewrite !app_nil_r. auto.
Qed.

Lemma for_each_process_order_state (L : list Order) (s0 : Store)
  (orders : list Order) :
  forall (c : nat) (x : Session * World),
    (forall o, In o orders -> In o L) ->
    sync_state E L s0 x ->
    wp (for_each orders (process_order E) c)
       (fun r x' => (exists c', r = Ok c') /\ sync_state E L s0 x') x.
Proof.
  induction orders as [| o rest IH]; intros c [d w] Hsub Hinv;
    simpl for_each.
  - wp_steps. split; [eauto | exact Hinv].
  - wp_step.
    eapply wp_mono;
      [| apply process_order_state;
         [apply Hsub; left; reflexivity | exact Hinv]].
    cbv beta. intros r x' ([c1 ->] & Hinv1).
    apply IH; [| exact Hinv1]. intros o' Ho'. apply Hsub. right. exact Ho'.
Qed.

(** What a run of the synchronization makes of the store. *)
Lemma sync_grown (w : World) :
  wp (sync_emr_orders E)
     (fun _ w' =>
        grown_from E (fetched (last_seq (store w)) w) (store w) (store w')) w.
Proof.
  unfold sync_emr_orders. simpl negb. cbv iota.
  assert (Hfail : forall w1, store w1 = store w ->
            wp (LogError "Error in sync_emr_orders" ;;
                LogError "traceback" ;; ret 0%nat)
               (fun _ w' =>
                  grown_from E (fetched (last_seq (store w)) w) (store w)
                             (store w')) w1).
  { intros w1 Hs. wp_steps. simpl. rewrite Hs. apply grown_from_refl. }
  wp_steps. apply wp_query; [intros _ | discriminate]. cbv beta iota.
  simpl view. wp_steps.
  eapply wp_mono; [| apply fetch_new_orders_spec].
  cbv beta. intros r w1 (-> & Hs1 & _).
  change (fetched ?l (add_log ?a ?b ?w0)) with (fetched l w0).
  wp_steps.
  eapply wp_mono;
    [| apply (for_each_process_order_state
                (fetched (last_seq (store w)) w) (store w));
       [auto
       | split; [exact Hs1 |];
         intros _; simpl; split; [reflexivity |]; split; [reflexivity |];
         split; [apply grown_from_refl |]; split; constructor]].
  cbv beta. intros r [d2 w2] ([c ->] & [Hs2 Hi2]).
  simpl in Hs2, Hi2. wp_steps.
  apply wp_flush; cbv beta iota.
  - intros _. apply Hfail, Hs2.
  - intros Ha s Hs. destruct (Hi2 Ha) as (Hnp & Hnm & Hg & Hit & Hfk).
    wp_steps.
    assert (Hend : grown_from E (fetched (last_seq (store w)) w) (store w) s).
    { apply flush_rows_tables in Hs. rewrite Hnp, Hnm, !app_nil_r in Hs.
      destruct Hs as (T1 & T2 & T3 & T4 & T5).
      destruct Hg as (G1 & G2 & G3 & ps & fl & G4 & G5 & G6 & G7 & G8).
      split; [congruence |]. split; [congruence |].
      split; [intros Hu; apply T5, G3, Hu |].
      exists ps, (fl ++ new_items d2)%list.
      rewrite T1, T2, G6, <- app_assoc.
      split; [exact G4 |]. split; [exact G5 |]. split; [reflexivity |].
      split; [apply Forall_app; split; assumption |].
      apply Forall_app.
      split; [eapply List.Forall_impl; [| exact G8]
             | eapply List.Forall_impl; [| exact Hfk]];
        intros it; apply (has_patient_grows _ _ _ []);
        rewrite app_nil_r; exact T1. }
    destruct (0 <? c)%nat; wp_steps; exact Hend.
  - intros _ _. apply Hfail, Hs2.
Qed.

Lemma sync_grown_run (w : World) :
  grown_from E (fetched (last_seq (store w)) w) (store w)
             (store (snd (sync_emr_orders E w))).
Proof. exact (sync_grown w). Qed.

Lemma fetched_newer (last : option Z) (w : World) (o : Order) :
  In o (fetched last w) ->
  forall l, last = Some l -> exists z, PcsOdrSeq o = Some z /\ l < z.
Proof.
  unfold fetched. destruct (emr w) as [rows |]; [| intros []].
  intros Hin. apply in_map_iff in Hin. destruct Hin as (r & <- & Hr).
  unfold select_top5 in Hr. apply list_elem_of_In in Hr.
  apply elem_of_take in Hr. destruct Hr as (i & Hi & _).
  apply list_elem_of_lookup_2, list_elem_of_In in Hi.
  eapply Permutation_in in Hi; [| apply order_by_desc_perm].
  apply filter_In in Hi. destruct Hi as [_ Hi].
  apply newer_than_true in Hi. apply Hi.
Qed.

Lemma required_seq (o : Order) (cht : string) (nam : ustr) (dtm : dtm_value)
  (seq : Z) :
  required o = Some (cht, nam, dtm, seq) ->
  PcsChtNum o = Some cht /\ PcsPatNam o = Some nam
  /\ PcsOdrDtm o = Some dtm /\ PcsOdrSeq o = Some seq
  /\ cht <> "" /\ seq <> 0.
Proof.
  unfold required.
  destruct (PcsChtNum o) as [c |]; [| discriminate].
  destruct (PcsPatNam o) as [n |]; [| discriminate].
  destruct (PcsOdrDtm o) as [t |]; [| discriminate].
  destruct (PcsOdrSeq o) as [z |]; [| discriminate].
  destruct (nonempty c && truthy_ustr (Some n) && dtm_truthy t
            && negb (z =? 0)) eqn:Hc; [| discriminate].
  intros [= -> -> -> ->]. repeat split; try reflexivity.
  - apply andb_true_iff in Hc. destruct Hc as [Hc _].
    apply andb_true_iff in Hc. destruct Hc as [Hc _].
    apply andb_true_iff in Hc. destruct Hc as [Hc _].
    intros ->. discriminate.
  - apply andb_true_iff in Hc. destruct Hc as [_ Hc].
    apply negb_true_iff, Z.eqb_neq in Hc. exact Hc.
Qed.

(** X4. The synchronization only appends: it never changes or deletes a
    patient or a worklist item of the store and never touches the tracking
    rows or the device mappings; every patient it adds is built from a fetched
    order (identifier, name, romanized name, birth date, sex), and every
    worklist item it adds is built from a fetched order with all four required
    fields: accession number the zero-padded sequence number, status
    SCHEDULED, no study identifier, the order's modality, the first device
    mapped to it, the date and time split from the timestamp; and the patient
    of every added item is in the store. *)
Theorem sync_appends_rows_built_from_orders :
  forall (w : World),
    grown_from E (fetched (last_seq (store w)) w) (store w)
               (store (snd (sync_emr_orders E w))).
Proof. exact sync_grown_run. Qed.

(** X5. The synchronization keeps every worklist item attached to a patient of
    the store. *)
Theorem sync_keeps_items_with_patients :
  forall (w : World),
    items_have_patients (store w) ->
    items_have_patients (store (snd (sync_emr_orders E w))).
Proof.
  intros w Hfk it Hin.
  destruct (sync_grown_run w)
    as (_ & _ & _ & ps & fl & Hp & _ & Hi & _ & Hnew).
  rewrite Hi in Hin. apply in_app_or in Hin. destruct Hin as [Hin | Hin].
  - eapply has_patient_grows; [exact Hp |]. apply Hfk, Hin.
  - rewrite List.Forall_forall in Hnew. apply Hnew, Hin.
Qed.

(** X6. The synchronization keeps patient identifiers unique. *)
Theorem sync_keeps_unique_patients :
  forall (w : World),
    unique_patients (store w) ->
    unique_patients (store (snd (sync_emr_orders E w))).
Proof.
  intros w Hu. destruct (sync_grown_run w) as (_ & _ & H & _). apply H, Hu.
Qed.

(** X7. Every worklist item the synchronization appends carries a sequence
    number of the order source that is not zero and lies strictly above the
    cursor the run started from, the newest sequence number of the store. *)
Theorem sync_items_above_cursor :
  forall (w : World) (fl : list WorklistItem),
    appended (store w) (store (snd (sync_emr_orders E w))) fl ->
    Forall (fun it =>
              exists seq, emr_order_seq it = Some seq /\ seq <> 0
                /\ forall l, last_seq (store w) = Some l -> l < seq) fl.
Proof.
  intros w fl Happ.
  destruct (sync_grown_run w)
    as (_ & _ & _ & ps & fl' & _ & _ & Hi & Hnew & _).
  unfold appended in Happ. rewrite Hi in Happ.
  apply app_inv_head in Happ. subst fl'.
  eapply List.Forall_impl; [| exact Hnew].
  intros it (o & cht & nam & dtm & seq & Ho & Hreq & _ & _ & Hseq & _).
  apply required_seq in Hreq. destruct Hreq as (_ & _ & _ & Hos & _ & Hnz).
  exists seq. split; [exact Hseq |]. split; [exact Hnz |].
  intros l Hl. destruct (fetched_newer _ _ _ Ho l Hl) as (z & Hz & Hlt).
  congruence.
Qed.

(** X8. When the order source cannot be reached the synchronization returns 0
    and leaves the store as it is. *)
Theorem sync_source_unreachable :
  forall (w : World),
    emr w = None ->
    fst (sync_emr_orders E w) = Ok 0%nat
    /\ store (snd (sync_emr_orders E w)) = store w.
Proof.
  intros w Hemr.
  assert (HL : fetched (last_seq (store w)) w = []).
  { unfold fetched. rewrite Hemr. reflexivity. }
  split.
  - destruct (sync_run w) as (n & new & w' & Hrun & Hn & _).
    rewrite Hrun, HL in *. simpl in *. f_equal. lia.
  - destruct (sync_grown_run w)
      as (Hm & Ha & _ & ps & fl & Hp & Hps & Hi & Hfl & _).
    rewrite HL in Hps, Hfl.
    assert (ps = []) as ->.
    { destruct ps as [| p r]; [reflexivity |]. inversion Hps as [| ? ? Hx].
      destruct Hx as (o & ? & ? & ? & ? & [] & _). }
    assert (fl = []) as ->.
    { destruct fl as [| p r]; [reflexivity |]. inversion Hfl as [| ? ? Hx].
      destruct Hx as (o & ? & ? & ? & ? & [] & _). }
    rewrite app_nil_r in Hp, Hi.
    destruct (store (snd (sync_emr_orders E w))), (store w). simpl in *.
    congruence.
Qed.

(** ** Procedure steps: frames and answers *)

Lemma update_first_Forall2 {A} (R : A -> A -> Prop) (p : A -> bool)
  (f : A -> A) (l : list A) :
  (forall x, R x x) -> (forall x, R x (f x)) ->
  Forall2 R l (update_first p f l).
Proof.
  intros Hrefl Hf. induction l as [| x r IH]; simpl; [constructor |].
  destruct (p x); constructor; auto.
  clear IH. induction r; constructor; auto.
Qed.

Lemma same_but_status_refl (l : list WorklistItem) : same_but_status l l.
Proof.
  unfold same_but_status. induction l as [| [] r IH]; constructor; auto.
Qed.

Lemma same_but_status_set (a st : string) (s : Store) :
  same_but_status (worklist_items s)
                  (worklist_items (set_item_status a st s)).
Proof.
  unfold same_but_status, set_item_status. simpl.
  apply update_first_Forall2; intros []; reflexivity.
Qed.

Lemma same_but_completion_refl (l : list MPPSTracking) :
  same_but_completion l l.
Proof.
  unfold same_but_completion. induction l; constructor; auto.
Qed.

Lemma same_but_completion_set (uid : string) (t : datetime) (s : Store) :
  same_but_completion (mpps_tracking s)
                      (mpps_tracking (set_mpps_completed uid t s)).
Proof.
  unfold same_but_completion, set_mpps_completed. simpl.
  apply update_first_Forall2; intros x; simpl; auto.
Qed.

Lemma keys_kept_insert (k : string) (ds : Dataset) (m : gmap string Dataset) :
  keys_kept m (<[k := ds]> m).
Proof.
  intros k' H. destruct (decide (k = k')) as [-> | Hne].
  - rewrite lookup_insert_eq. eauto.
  - rewrite lookup_insert_ne by exact Hne. exact H.
Qed.

(** Every start event is either validated or refused with one of three
    codes. *)
Lemma handle_create_cases (ev : NCreate) (w : World) :
  (exists uid, validated_start ev w uid)
  \/ (exists code,
        In code [0x0106; 0x0111; 0x0120]
        /\ fst (handle_create E ev w) = Ok (code, None)
        /\ same_but_log w (snd (handle_create E ev w))).
Proof.
  assert (Hrej : forall code,
            In code [0x0106; 0x0111; 0x0120] ->
            match AffectedSOPInstanceUID ev with
            | None => code = 0x0106
            | Some uid =>
                match managed_instances w !! uid with
                | Some _ => code = 0x0111
                | None =>
                    match PerformedProcedureStepStatus
                            (create_attribute_list ev) with
                    | None => code = 0x0120
                    | Some st =>
                        upper st <> ustr_of_string "IN PROGRESS"
                        /\ code = 0x0106
                    end
                end
            end ->
            exists code,
              In code [0x0106; 0x0111; 0x0120]
              /\ fst (handle_create E ev w) = Ok (code, None)
              /\ same_but_log w (snd (handle_create E ev w))).
  { intros code Hin H. exists code. split; [exact Hin |].
    exact (handle_create_rejected ev w code H). }
  destruct (AffectedSOPInstanceUID ev) as [uid |] eqn:Hu.
  2:{ right. apply (Hrej 0x0106); simpl; auto. }
  destruct (managed_instances w !! uid) as [ds |] eqn:Hm.
  { right. apply (Hrej 0x0111); simpl; auto. }
  destruct (PerformedProcedureStepStatus (create_attribute_list ev))
    as [st |] eqn:Hst.
  2:{ right. apply (Hrej 0x0120); simpl; auto. }
  destruct (decide (upper st = ustr_of_string "IN PROGRESS")) as [Hup | Hup].
  - left. exists uid. unfold validated_start. rewrite Hu, Hm, Hst. eauto.
  - right. apply (Hrej 0x0106); simpl; auto.
Qed.

(** X9. The N-CREATE handler always answers, no exception leaves it; the
    answer is one of 0x0000, 0x0106, 0x0111 and 0x0120, and with any code but
    0x0000 it carries no dataset and nothing but the log has changed: not the
    store, the managed instances or the order source. *)
Theorem handle_create_answers :
  forall (ev : NCreate) (w : World),
  exists (code : Z) (ds : option Dataset),
    fst (handle_create E ev w) = Ok (code, ds)
    /\ In code create_codes
    /\ (code = 0x0000
        \/ (ds = None /\ same_but_log w (snd (handle_create E ev w)))).
Proof.
  intros ev w. destruct (handle_create_cases ev w) as [[uid Hv] | H].
  - destruct (handle_create_validated ev w uid Hv) as (Hr & _).
    eexists _, _. split; [exact Hr |]. split; [left; reflexivity |].
    left. reflexivity.
  - destruct H as (code & Hin & Hr & Hsame).
    exists code, None. split; [exact Hr |]. split; [right; exact Hin |].
    auto.
Qed.

(** X10. Whatever the event, the N-CREATE handler leaves the patients and the
    device mappings alone, adds and removes no worklist item and changes no
    column of an item but the status, keeps every tracking row and adds at
    most one, and keeps every managed instance. *)
Theorem handle_create_frame :
  forall (ev : NCreate) (w : World),
    let s := store w in
    let w' := snd (handle_create E ev w) in
    patients (store w') = patients s
    /\ modality_aets (store w') = modality_aets s
    /\ same_but_status (worklist_items s) (worklist_items (store w'))
    /\ (exists new, mpps_tracking (store w') = (mpps_tracking s ++ new)%list
                    /\ (length new <= 1)%nat)
    /\ keys_kept (managed_instances w) (managed_instances w').
Proof.
  intros ev w s w'.
  assert (Hsame : store w' = s -> managed_instances w' = managed_instances w ->
                  patients (store w') = patients s
                  /\ modality_aets (store w') = modality_aets s
                  /\ same_but_status (worklist_items s)
                                     (worklist_items (store w'))
                  /\ (exists new,
                        mpps_tracking (store w') = (mpps_tracking s ++ new)%list
                        /\ (length new <= 1)%nat)
                  /\ keys_kept (managed_instances w) (managed_instances w')).
  { intros -> ->. repeat split; try apply same_but_status_refl.
    - exists []. rewrite app_nil_r. simpl. auto.
    - intros k Hk. exact Hk. }
  destruct (handle_create_cases ev w) as [[uid Hv] | H].
  - destruct (handle_create_validated ev w uid Hv) as (_ & Hm & Hs).
    fold w' in Hm, Hs.
    assert (Hk : keys_kept (managed_instances w) (managed_instances w'))
      by (rewrite Hm; apply keys_kept_insert).
    assert (Hstay : store w' = s ->
              patients (store w') = patients s
              /\ modality_aets (store w') = modality_aets s
              /\ same_but_status (worklist_items s)
                                 (worklist_items (store w'))
              /\ (exists new,
                    mpps_tracking (store w') = (mpps_tracking s ++ new)%list
                    /\ (length new <= 1)%nat)
              /\ keys_kept (managed_instances w) (managed_instances w')).
    { intros ->. repeat split; try apply same_but_status_refl; [| exact Hk].
      exists []. rewrite app_nil_r. simpl. auto. }
    destruct (step_reference (create_attribute_list ev)) as [[[m a] su] |];
      [| exact (Hstay Hs)].
    destruct (first_item a (store w)); [| exact (Hstay Hs)].
    destruct (has_sop uid (store w)); [exact (Hstay Hs) |].
    rewrite Hs. unfold started. simpl.
    split; [reflexivity |]. split; [reflexivity |].
    split; [apply (same_but_status_set a IN_PROGRESS (store w)) |].
    split; [| exact Hk]. eexists. split; [reflexivity |]. simpl. lia.
  - destruct H as (code & _ & _ & Hs & Hm & _). fold w' in Hs, Hm.
    apply Hsame; assumption.
Qed.

(** X11. Whatever the event, the N-SET handler leaves the patients and the
    device mappings alone, adds and removes no worklist item and changes no
    column of an item but the status, adds and removes no tracking row and
    changes no column of one but the status and the end time, and keeps every
    managed instance. *)
Theorem handle_set_frame :
  forall (ev : NSet) (w : World),
    let s := store w in
    let w' := snd (handle_set E ev w) in
    patients (store w') = patients s
    /\ modality_aets (store w') = modality_aets s
    /\ same_but_status (worklist_items s) (worklist_items (store w'))
    /\ same_but_completion (mpps_tracking s) (mpps_tracking (store w'))
    /\ keys_kept (managed_instances w) (managed_instances w').
Proof.
  intros ev w s w'. pose proof (handle_set_spec ev w) as H. unfold wp in H.
  fold w' in H. destruct (tracked ev w) as [[uid ds] |].
  - cbv zeta in H. destruct H as (_ & Hm & Hs & _).
    rewrite Hm, Hs. unfold completed.
    split; [| split; [| split; [| split; [| apply keys_kept_insert]]]].
    + destruct (first_mpps uid (store w)); [| reflexivity].
      cbv zeta. destruct (first_item _ _); reflexivity.
    + destruct (first_mpps uid (store w)); [| reflexivity].
      cbv zeta. destruct (first_item _ _); reflexivity.
    + destruct (first_mpps uid (store w)) as [mp |];
        [| apply same_but_status_refl].
      cbv zeta. destruct (first_item _ _).
      * apply (same_but_status_set _ COMPLETED
                 (set_mpps_completed uid (now E (clock w)) (store w))).
      * apply same_but_status_refl.
    + destruct (first_mpps uid (store w)) as [mp |];
        [| apply same_but_completion_refl].
      cbv zeta. destruct (first_item _ _);
        apply (same_but_completion_set uid (now E (clock w)) (store w)).
  - destruct H as (_ & ->). simpl.
    repeat split; try apply same_but_status_refl;
      try apply same_but_completion_refl.
    intros k Hk. exact Hk.
Qed.

(** X12. A step identifier in use is refused. After an accepted N-CREATE whose
    attribute list does not rename the instance, every further N-CREATE for
    the same identifier is answered 0x0111 and changes nothing but the log. *)
Theorem duplicate_start_refused :
  forall (ev ev2 : NCreate) (w : World) (uid : string),
    validated_start ev w uid ->
    step_key uid (create_attribute_list ev) = uid ->
    AffectedSOPInstanceUID ev2 = Some uid ->
    let w1 := snd (handle_create E ev w) in
    fst (handle_create E ev2 w1) = Ok (0x0111, None)
    /\ same_but_log w1 (snd (handle_create E ev2 w1)).
Proof.
  intros ev ev2 w uid Hv Hkey Hu w1.
  destruct (handle_create_validated ev w uid Hv) as (_ & Hm & _).
  fold w1 in Hm. rewrite Hkey in Hm.
  apply (handle_create_rejected ev2 w1 0x0111).
  rewrite Hu, Hm, lookup_insert_eq. reflexivity.
Qed.

(** X13. The managed instances are keyed by the SOPInstanceUID of the
    constructed dataset, the duplicate test reads the identifier of the
    request. When the attribute list carries another SOPInstanceUID, the same
    N-CREATE is accepted again and the identifier of the request is still not
    a key. *)
Theorem renamed_start_accepted_again :
  forall (ev : NCreate) (w : World) (uid k : string),
    validated_start ev w uid ->
    SOPInstanceUID (create_attribute_list ev) = Some k ->
    k <> uid ->
    let w1 := snd (handle_create E ev w) in
    status_code (fst (handle_create E ev w1)) = Some 0x0000
    /\ managed_instances w1 !! uid = None
    /\ is_Some (managed_instances w1 !! k).
Proof.
  intros ev w uid k Hv Hk Hne w1.
  destruct (handle_create_validated ev w uid Hv) as (_ & Hm & _).
  fold w1 in Hm. unfold step_key in Hm. rewrite Hk in Hm.
  assert (Hfresh : managed_instances w1 !! uid = None).
  { rewrite Hm, lookup_insert_ne by exact Hne. apply Hv. }
  assert (Hv1 : validated_start ev w1 uid).
  { destruct Hv as (H1 & _ & H3). split; [exact H1 |]. split; assumption. }
  destruct (handle_create_validated ev w1 uid Hv1) as (Hr & _).
  rewrite Hr. split; [reflexivity |]. split; [exact Hfresh |].
  rewrite Hm, lookup_insert_eq. eauto.
Qed.

(** ** Procedure steps: the status reaches the order source *)

Lemma update_order_status_run (seq : Z) (st : string) (w : World) :
  exists b w',
    update_order_status seq st w = (Ok b, w')
    /\ store w' = store w
    /\ managed_instances w' = managed_instances w
    /\ emr w' = option_map
                  (map (fun r => if has_seq seq r
                                 then set_row_status st r else r))
                  (emr w).
Proof.
  unfold update_order_status, get_connection, bind, gets.
  destruct (emr w) as [rows |] eqn:He; simpl.
  - eexists _, _. split; [reflexivity |]. simpl. auto.
  - eexists _, _. split; [reflexivity |]. simpl. rewrite He. auto.
Qed.

Lemma wp_push_status_emr (o : option Z) (st : string)
  (Q : result unit -> Session * World -> Prop) (d : Session) (w : World) :
  (forall w', store w' = store w ->
              managed_instances w' = managed_instances w ->
              emr w' = pushed o st (emr w) ->
              Q (Ok tt) (d, w')) ->
  wp (push_status o st) Q (d, w).
Proof.
  intros H. unfold push_status, truthy_int. simpl andb.
  destruct o as [seq |]; [| apply wp_ret; auto].
  destruct (negb (seq =? 0)) eqn:Hz.
  2:{ apply wp_ret. apply H; auto. unfold pushed. rewrite Hz. reflexivity. }
  wp_steps.
  destruct (update_order_status_run seq st w) as (b & w' & Hrun & Hs & Hm & He).
  unfold wp. rewrite Hrun. cbn [fst snd]. wp_steps. apply H; auto.
  unfold pushed. rewrite Hz. exact He.
Qed.

Lemma pushed_rows (seq : Z) (st : string) (e : option (list EmrRow)) :
  seq <> 0 -> emr_pushed seq st e (pushed (Some seq) st e).
Proof.
  intros Hz. unfold emr_pushed, pushed.
  apply Z.eqb_neq in Hz. rewrite Hz. simpl negb. cbv iota.
  destruct e as [rows |]; [| reflexivity].
  eexists. split; [reflexivity |].
  induction rows as [| r t IH]; simpl; constructor; [| exact IH].
  unfold row_updated, has_seq.
  destruct (PcsOdrSeq (row_order r)) as [z |].
  - destruct (z =? seq) eqn:Hr.
    + apply Z.eqb_eq in Hr. subst z. simpl.
      rewrite bool_decide_eq_true_2 by reflexivity. auto.
    + apply Z.eqb_neq in Hr. rewrite bool_decide_eq_false_2; [auto |].
      intros [= ->]. apply Hr. reflexivity.
  - rewrite bool_decide_eq_false_2 by discriminate. auto.
Qed.

Lemma record_in_progress_emr (uid m a su : string) (w : World) :
  wp (record_mpps_in_progress E uid m a su)
     (fun _ w' =>
        emr w' = match first_item a (store w) with
                 | Some it =>
                     if has_sop uid (store w) then emr w
                     else pushed (emr_order_seq it) "IP" (emr w)
                 | None => emr w
                 end) w.
Proof.
  unfold record_mpps_in_progress.
  wp_steps. apply wp_query; [intros _ | discriminate].
  cbv beta iota. simpl view.
  destruct (first_item a (store w)) as [it |] eqn:Hit.
  - wp_steps.
    apply wp_flush; cbv beta iota;
      [discriminate | intros _ s Hs | intros _ Hs];
      unfold flush_rows in Hs; simpl in Hs;
      unfold insert_mpps in Hs; simpl in Hs;
      change (has_sop uid (set_item_status a IN_PROGRESS (store w)))
        with (has_sop uid (store w)) in Hs.
    + destruct (has_sop uid (store w)); [discriminate |].
      injection Hs as <-.
      wp_steps.
      change (if EMR_API_AVAILABLE && truthy_int (emr_order_seq it)
              then _ else _)
        with (push_status (emr_order_seq it) "IP").
      unfold publish; simpl fst; simpl snd.
      apply wp_push_status_emr. intros w' _ _ He. wp_steps. simpl.
      exact He.
    + destruct (has_sop uid (store w)); [| discriminate].
      wp_steps. reflexivity.
  - wp_steps. reflexivity.
Qed.

Lemma record_completed_emr (uid : string) (w : World) :
  wp (record_mpps_completed E uid)
     (fun _ w' =>
        emr w' = match first_mpps uid (store w) with
                 | Some mp =>
                     match first_item (mpps_accession_number mp) (store w) with
                     | Some it => pushed (emr_order_seq it) "CO" (emr w)
                     | None => emr w
                     end
                 | None => emr w
                 end) w.
Proof.
  unfold record_mpps_completed.
  wp_steps. apply wp_query; [intros _ | discriminate].
  cbv beta iota. simpl view.
  destruct (first_mpps uid (store w)) as [mpps |] eqn:Hm.
  - wp_steps. apply wp_query; [intros _ | discriminate].
    cbv beta iota. simpl view.
    change (first_item ?a (set_mpps_completed uid ?t ?s))
      with (first_item a s).
    destruct (first_item (mpps_accession_number mpps) (store w))
      as [it |] eqn:Hit.
    + wp_steps.
      change (if EMR_API_AVAILABLE && truthy_int (emr_order_seq it)
              then _ else _)
        with (push_status (emr_order_seq it) "CO").
      apply wp_push_status_emr. intros w' _ _ He. wp_steps.
      apply wp_flush; cbv beta iota;
        [discriminate | intros _ s Hs | intros _ Hs];
        unfold flush_rows in Hs; simpl in Hs; [| discriminate].
      wp_steps. simpl. exact He.
    + wp_steps.
      apply wp_flush; cbv beta iota;
        [discriminate | intros _ s Hs | intros _ Hs];
        unfold flush_rows in Hs; simpl in Hs; [| discriminate].
      wp_steps. reflexivity.
  - wp_steps. reflexivity.
Qed.

Lemma handle_create_emr (ev : NCreate) (w : World) (uid : string) :
  validated_start ev w uid ->
  wp (handle_create E ev)
     (fun _ w' =>
        emr w' = match step_reference (create_attribute_list ev) with
                 | Some (m, a, su) =>
                     match first_item a (store w) with
                     | Some it =>
                         if has_sop uid (store w) then emr w
                         else pushed (emr_order_seq it) "IP" (emr w)
                     | None => emr w
                     end
                 | None => emr w
                 end) w.
Proof.
  intros (Huid & Hfresh & st & Hst & Hup).
  apply wp_handle_create. unfold handle_create_try.
  rewrite Huid. wp_steps. rewrite Hfresh.
  set (attr_list := create_attribute_list ev) in *.
  rewrite Hst, (bool_decide_eq_true_2 _ Hup).
  simpl negb. cbv iota.
  wp_steps. cbn [fst snd].
  fold (new_step uid attr_list).
  assert (Hkey : SOPInstanceUID (new_step uid attr_list)
                 = Some (step_key uid attr_list)).
  { unfold new_step, step_key. simpl.
    destruct (SOPInstanceUID attr_list); reflexivity. }
  rewrite Hkey. cbv iota. wp_steps.
  unfold step_reference.
  destruct (ds_Modality attr_list) as [m |]; cbv iota;
    [| wp_steps; reflexivity].
  wp_steps.
  destruct (ScheduledStepAttributesSequence attr_list) as [[| step rest] |];
    cbv iota; [wp_steps; reflexivity | | wp_steps; reflexivity].
  wp_steps.
  destruct (sa_AccessionNumber step) as [a |]; cbv iota;
    [| wp_steps; reflexivity].
  wp_steps.
  destruct (sa_StudyInstanceUID step) as [su |]; cbv iota;
    [| wp_steps; reflexivity].
  wp_steps.
  eapply wp_mono; [| apply record_in_progress_emr].
  cbv beta. intros r w' He. simpl in He.
  destruct r as [[] | e]; cbn [negb]; wp_steps; simpl; exact He.
Qed.

Lemma handle_set_emr (ev : NSet) (w : World) :
  wp (handle_set E ev)
     (fun _ w' =>
        emr w' = match tracked ev w with
                 | Some (uid, _) =>
                     match first_mpps uid (store w) with
                     | Some mp =>
                         match first_item (mpps_accession_number mp)
                                          (store w) with
                         | Some it => pushed (emr_order_seq it) "CO" (emr w)
                         | None => emr w
                         end
                     | None => emr w
                     end
                 | None => emr w
                 end) w.
Proof.
  unfold handle_set, tracked. wp_steps.
  destruct (RequestedSOPInstanceUID ev) as [uid |]; [| wp_steps; reflexivity].
  destruct (managed_instances w !! uid) as [ds |]; [| wp_steps; reflexivity].
  wp_steps.
  eapply wp_mono; [| apply record_completed_emr].
  cbv beta. intros r w1 He. simpl in He.
  destruct r as [[[] acc] | e]; cbn [negb]; wp_steps; simpl; exact He.
Qed.

(** X14. An accepted N-CREATE that records the start of a step, for an item
    that came from the order source, writes the status 'IP' to the rows of
    that order in the source and changes no other row or column; when the
    source cannot be reached the start is recorded all the same. When the
    start is not recorded, because the attributes name no item or the step has
    a tracking row already, the order source is left alone. *)
Theorem start_reaches_order_source :
  forall (ev : NCreate) (w : World) (uid : string),
    validated_start ev w uid ->
    let attr_list := create_attribute_list ev in
    let w' := snd (handle_create E ev w) in
    (forall m a su it seq,
        step_reference attr_list = Some (m, a, su) ->
        first_item a (store w) = Some it ->
        has_sop uid (store w) = false ->
        emr_order_seq it = Some seq ->
        seq <> 0 ->
        emr_pushed seq "IP" (emr w) (emr w')
        /\ store w' = started uid m a su (now E (clock w)) (store w))
    /\ (step_reference attr_list = None -> emr w' = emr w)
    /\ (forall m a su,
          step_reference attr_list = Some (m, a, su) ->
          first_item a (store w) = None \/ has_sop uid (store w) = true ->
          emr w' = emr w).
Proof.
  intros ev w uid Hv attr_list w'.
  pose proof (handle_create_emr ev w uid Hv) as He. unfold wp in He.
  fold attr_list w' in He.
  destruct (handle_create_validated ev w uid Hv) as (_ & _ & Hs).
  fold attr_list w' in Hs.
  split; [| split].
  - intros m a su it seq Href Hit Hsop Hseq Hz.
    rewrite Href, Hit, Hsop in He, Hs. rewrite Hseq in He.
    split; [| exact Hs]. rewrite He. apply pushed_rows, Hz.
  - intros Href. rewrite Href in He. exact He.
  - intros m a su Href Hno. rewrite Href in He.
    destruct Hno as [Hno | Hno].
    + rewrite Hno in He. exact He.
    + rewrite Hno in He. destruct (first_item a (store w)); exact He.
Qed.

(** X15. An N-SET for a managed step with a tracking row, whose item came from
    the order source, writes the status 'CO' to the rows of that order in the
    source and changes no other row or column; for an unknown step, or one
    without tracking row, the order source is left alone. *)
Theorem completion_reaches_order_source :
  forall (ev : NSet) (w : World),
    let w' := snd (handle_set E ev w) in
    (forall uid ds mp it seq,
        tracked ev w = Some (uid, ds) ->
        first_mpps uid (store w) = Some mp ->
        first_item (mpps_accession_number mp) (store w) = Some it ->
        emr_order_seq it = Some seq ->
        seq <> 0 ->
        emr_pushed seq "CO" (emr w) (emr w'))
    /\ (tracked ev w = None -> emr w' = emr w)
    /\ (forall uid ds,
          tracked ev w = Some (uid, ds) ->
          first_mpps uid (store w) = None ->
          emr w' = emr w).
Proof.
  intros ev w w'.
  pose proof (handle_set_emr ev w) as He. unfold wp in He. fold w' in He.
  split; [| split].
  - intros uid ds mp it seq Ht Hmp Hit Hseq Hz.
    rewrite Ht, Hmp, Hit, Hseq in He. rewrite He. apply pushed_rows, Hz.
  - intros Ht. rewrite Ht in He. exact He.
  - intros uid ds Ht Hmp. rewrite Ht, Hmp in He. exact He.
Qed.

(** ** Procedure steps and the worklist query *)

Lemma select_by_item (fm fd fa : option string) (s : Store) :
  select_worklist_items fm fd fa s
  = flat_map (item_rows fm fd fa (patients s)) (worklist_items s).
Proof.
  rewrite select_worklist_items_satisfies. unfold join_patient.
  induction (worklist_items s) as [| it r IH]; simpl; [reflexivity |].
  rewrite List.filter_app, map_app, IH. reflexivity.
Qed.

Lemma item_rows_accession (fm fd fa : option string) (ps : list Patient)
  (it : WorklistItem) :
  Forall (fun row => r_accession_number row = accession_number it)
         (item_rows fm fd fa ps it).
Proof.
  unfold item_rows. apply List.Forall_forall. intros row Hin.
  apply in_map_iff in Hin. destruct Hin as ([it' p] & <- & Hin).
  apply filter_In in Hin. destruct Hin as [Hin _].
  apply in_map_iff in Hin. destruct Hin as (p' & [= <- <-] & _).
  reflexivity.
Qed.

Lemma item_rows_not_scheduled (fm fd fa : option string) (ps : list Patient)
  (it : WorklistItem) :
  status it <> SCHEDULED -> item_rows fm fd fa ps it = [].
Proof.
  intros Hst. unfold item_rows.
  induction (List.filter _ ps) as [| p r IH]; simpl; [reflexivity |].
  unfold satisfies at 1. simpl.
  apply String.eqb_neq in Hst. rewrite Hst. simpl. exact IH.
Qed.

Lemma filter_other_than_all (a : string) (rows : list Row) :
  Forall (fun row => r_accession_number row <> a) rows ->
  List.filter (other_than a) rows = rows.
Proof.
  induction 1 as [| row r Hrow _ IH]; simpl; [reflexivity |].
  unfold other_than at 1. apply String.eqb_neq in Hrow. rewrite Hrow.
  simpl. rewrite IH. reflexivity.
Qed.

Lemma filter_other_than_none (a : string) (rows : list Row) :
  Forall (fun row => r_accession_number row = a) rows ->
  List.filter (other_than a) rows = [].
Proof.
  induction 1 as [| row r Hrow _ IH]; simpl; [reflexivity |].
  unfold other_than at 1. rewrite Hrow, String.eqb_refl. simpl. exact IH.
Qed.

Lemma flat_map_rows_other (fm fd fa : option string) (ps : list Patient)
  (a : string) (l : list WorklistItem) :
  ~ In a (map accession_number l) ->
  Forall (fun row => r_accession_number row <> a)
         (flat_map (item_rows fm fd fa ps) l).
Proof.
  intros Hno. apply List.Forall_forall. intros row Hin.
  apply in_flat_map in Hin. destruct Hin as (it & Hit & Hrow).
  pose proof (item_rows_accession fm fd fa ps it) as Hacc.
  rewrite List.Forall_forall in Hacc. rewrite (Hacc row Hrow).
  intros <-. apply Hno, in_map, Hit.
Qed.

(** Setting the status of the item [a] to anything but SCHEDULED removes
    its rows from every answer and leaves the other rows as they were. *)
Lemma select_after_status (fm fd fa : option string) (a st : string)
  (s : Store) :
  st <> SCHEDULED ->
  unique_accessions s ->
  select_worklist_items fm fd fa (set_item_status a st s)
  = List.filter (other_than a) (select_worklist_items fm fd fa s).
Proof.
  intros Hst Hu. rewrite !select_by_item. unfold set_item_status. simpl.
  unfold unique_accessions in Hu.
  induction (worklist_items s) as [| it r IH]; simpl; [reflexivity |].
  apply NoDup_cons in Hu. destruct Hu as [Hnot Hu].
  rewrite List.filter_app.
  destruct (String.eqb (accession_number it) a) eqn:Ha; simpl.
  - apply String.eqb_eq in Ha. subst a.
    rewrite item_rows_not_scheduled by exact Hst.
    rewrite filter_other_than_none by apply item_rows_accession.
    rewrite filter_other_than_all; [reflexivity |].
    apply flat_map_rows_other. intros Hin. apply Hnot, list_elem_of_In, Hin.
  - rewrite (IH Hu). f_equal. symmetry. apply filter_other_than_all.
    eapply List.Forall_impl; [| apply item_rows_accession].
    intros row ->. apply String.eqb_neq, Ha.
Qed.

(** X16. A step that has been started is no longer offered. After an accepted
    N-CREATE that names the accession number [a], for a step with no tracking
    row yet, every answer of the worklist query is the answer it gave before
    without the rows of [a]; the other rows are unchanged and in the same
    order. *)
Theorem started_item_leaves_worklist :
  forall (ev : NCreate) (w : World) (uid m a su : string),
    validated_start ev w uid ->
    step_reference (create_attribute_list ev) = Some (m, a, su) ->
    has_sop uid (store w) = false ->
    unique_accessions (store w) ->
    let w1 := snd (handle_create E ev w) in
    forall fm fd fa,
    exists rows,
      fst (get_worklist_items fm fd fa w) = Ok rows
      /\ fst (get_worklist_items fm fd fa w1)
         = Ok (List.filter (other_than a) rows).
Proof.
  intros ev w uid m a su Hv Href Hsop Hu w1 fm fd fa.
  destruct (handle_create_validated ev w uid Hv) as (_ & _ & Hs).
  fold w1 in Hs. rewrite Href, Hsop in Hs.
  exists (select_worklist_items fm fd fa (store w)).
  rewrite !get_worklist_items_run. simpl. split; [reflexivity |]. f_equal.
  destruct (first_item a (store w)) as [it |] eqn:Hit.
  - rewrite Hs. unfold started.
    change (select_worklist_items fm fd fa (set_mpps ?l ?s))
      with (select_worklist_items fm fd fa s).
    apply select_after_status; [discriminate | exact Hu].
  - rewrite Hs. symmetry. apply filter_other_than_all.
    rewrite select_by_item. apply flat_map_rows_other.
    intros Hin. apply in_map_iff in Hin. destruct Hin as (x & Hx & Hin).
    unfold first_item in Hit. apply (find_none _ _ Hit) in Hin.
    apply String.eqb_neq in Hin. congruence.
Qed.

(** X17. A completed step is not offered either. After an N-SET for a managed
    step whose tracking row names the accession number [a], every answer of
    the worklist query is the answer it gave before without the rows of [a]. *)
Theorem completed_item_leaves_worklist :
  forall (ev : NSet) (w : World) (uid : string) (ds : Dataset)
         (mp : MPPSTracking),
    tracked ev w = Some (uid, ds) ->
    first_mpps uid (store w) = Some mp ->
    unique_accessions (store w) ->
    let w1 := snd (handle_set E ev w) in
    forall fm fd fa,
    exists rows,
      fst (get_worklist_items fm fd fa w) = Ok rows
      /\ fst (get_worklist_items fm fd fa w1)
         = Ok (List.filter (other_than (mpps_accession_number mp)) rows).
Proof.
  intros ev w uid ds mp Ht Hmp Hu w1 fm fd fa.
  pose proof (handle_set_spec ev w) as H. unfold wp in H. fold w1 in H.
  rewrite Ht in H. cbv zeta in H. destruct H as (_ & _ & Hs & _).
  unfold completed in Hs. rewrite Hmp in Hs. cbv zeta in Hs.
  change (first_item ?a (set_mpps_completed uid ?t ?s))
    with (first_item a s) in Hs.
  exists (select_worklist_items fm fd fa (store w)).
  rewrite !get_worklist_items_run. simpl. split; [reflexivity |]. f_equal.
  destruct (first_item (mpps_accession_number mp) (store w)) as [it |] eqn:Hit.
  - rewrite Hs.
    rewrite (select_after_status fm fd fa (mpps_accession_number mp) COMPLETED
               (set_mpps_completed uid (now E (clock w)) (store w)));
      [reflexivity | discriminate | exact Hu].
  - rewrite Hs.
    change (select_worklist_items fm fd fa (set_mpps_completed uid ?t ?s))
      with (select_worklist_items fm fd fa s).
    symmetry. apply filter_other_than_all.
    rewrite select_by_item. apply flat_map_rows_other.
    intros Hin. apply in_map_iff in Hin. destruct Hin as (x & Hx & Hin).
    unfold first_item in Hit. apply (find_none _ _ Hit) in Hin.
    apply String.eqb_neq in Hin. congruence.
Qed.

(** ** Stripped text *)

Lemma lstrip_ascii_head (l : list ascii) : nonspace_head (lstrip_ascii l).
Proof.
  induction l as [| c r IH]; simpl; [exact I |].
  destruct (is_space (N_of_ascii c)) eqn:Hc; [exact IH | exact Hc].
Qed.

Lemma lstrip_ascii_fixed (l : list ascii) :
  nonspace_head l -> lstrip_ascii l = l.
Proof.
  destruct l as [| c r]; simpl; [reflexivity | intros ->; reflexivity].
Qed.

Lemma lstrip_ascii_suffix (l : list ascii) :
  exists pre, l = (pre ++ lstrip_ascii l)%list.
Proof.
  induction l as [| c r [pre IH]]; simpl; [exists []; reflexivity |].
  destruct (is_space (N_of_ascii c)).
  - exists (c :: pre). simpl. rewrite <- IH. reflexivity.
  - exists []. reflexivity.
Qed.

Lemma nonspace_head_app (a b : list ascii) :
  nonspace_head (a ++ b) -> a <> [] -> nonspace_head a.
Proof. destruct a; simpl; [congruence | auto]. Qed.

Lemma strip_ascii_idempotent (l : list ascii) :
  strip_ascii (strip_ascii l) = strip_ascii l.
Proof.
  unfold strip_ascii.
  set (m := lstrip_ascii l). set (n := lstrip_ascii (rev m)).
  assert (Hn : lstrip_ascii n = n)
    by (apply lstrip_ascii_fixed, lstrip_ascii_head).
  assert (Hrev : lstrip_ascii (rev n) = rev n).
  { apply lstrip_ascii_fixed.
    destruct (lstrip_ascii_suffix (rev m)) as [pre Hpre]. fold n in Hpre.
    assert (Hm : m = (rev n ++ rev pre)%list).
    { rewrite <- rev_app_distr, <- Hpre, rev_involutive. reflexivity. }
    destruct n as [| x n']; [exact I |].
    apply (nonspace_head_app _ (rev pre)).
    - rewrite <- Hm. apply lstrip_ascii_head.
    - simpl. intros H. apply app_eq_nil in H. destruct H; discriminate. }
  rewrite Hrev, rev_involutive, Hn. reflexivity.
Qed.

Lemma str_strip_stripped (s : string) : stripped (str_strip s).
Proof.
  unfold stripped, str_strip.
  rewrite list_ascii_of_string_of_list_ascii, strip_ascii_idempotent.
  reflexivity.
Qed.

Lemma lstrip_ascii_In (c : ascii) (l : list ascii) :
  In c (lstrip_ascii l) -> In c l.
Proof.
  destruct (lstrip_ascii_suffix l) as [pre Hpre]. intros H.
  rewrite Hpre. apply in_or_app. right. exact H.
Qed.

Lemma str_strip_In (c : ascii) (s : string) :
  In c (list_ascii_of_string (str_strip s)) ->
  In c (list_ascii_of_string s).
Proof.
  unfold str_strip, strip_ascii.
  rewrite list_ascii_of_string_of_list_ascii. intros H.
  apply in_rev, lstrip_ascii_In, in_rev, lstrip_ascii_In in H. exact H.
Qed.


(** ** The worklist answers: study identifiers *)

Lemma find_update_first_other {A} (p q : A -> bool) (f : A -> A)
  (l : list A) :
  (forall x, p x = true -> q x = false) ->
  (forall x, p x = true -> q (f x) = false) ->
  List.find q (update_first p f l) = List.find q l.
Proof.
  intros Hpq Hpf. induction l as [| x r IH]; simpl; [reflexivity |].
  destruct (p x) eqn:Hx; simpl.
  - rewrite (Hpq x Hx), (Hpf x Hx). reflexivity.
  - destruct (q x); [reflexivity | exact IH].
Qed.

Lemma first_item_set_uid_other (a a' u : string) (s : Store) :
  a' <> a ->
  first_item a' (set_item_study_uid a u s) = first_item a' s.
Proof.
  intros Hne. unfold first_item, set_item_study_uid. simpl.
  apply find_update_first_other; intros x Hx; apply String.eqb_eq in Hx;
    apply String.eqb_neq; simpl; congruence.
Qed.

Lemma stored_uid_set_other (a a' u : string) (s : Store) :
  a' <> a -> stored_uid a' (set_item_study_uid a u s) = stored_uid a' s.
Proof.
  intros Hne. unfold stored_uid. rewrite first_item_set_uid_other by exact Hne.
  reflexivity.
Qed.

Lemma stored_uid_set_same (a u : string) (s : Store) :
  first_item a s <> None ->
  stored_uid a (set_item_study_uid a u s) = Some u.
Proof.
  intros Hex. unfold stored_uid, first_item, set_item_study_uid. simpl.
  rewrite find_update_first by reflexivity.
  unfold first_item in Hex.
  destruct (List.find _ _); [reflexivity | congruence].
Qed.

Lemma accessions_set_uid (a u : string) (s : Store) :
  map accession_number (worklist_items (set_item_study_uid a u s))
  = map accession_number (worklist_items s).
Proof.
  unfold set_item_study_uid. simpl.
  induction (worklist_items s) as [| x r IH]; simpl; [reflexivity |].
  destruct (String.eqb (accession_number x) a); simpl; [reflexivity |].
  rewrite IH. reflexivity.
Qed.

Lemma find_unique_item (l : list WorklistItem) (it : WorklistItem) :
  NoDup (map accession_number l) -> In it l ->
  List.find (fun x => String.eqb (accession_number x) (accession_number it)) l
  = Some it.
Proof.
  induction l as [| x r IH]; simpl; [intros _ [] |].
  intros Hu Hin. apply NoDup_cons in Hu. destruct Hu as [Hx Hu].
  destruct Hin as [-> | Hin].
  - rewrite String.eqb_refl. reflexivity.
  - destruct (String.eqb (accession_number x) (accession_number it)) eqn:He.
    + apply String.eqb_eq in He. exfalso. apply Hx. rewrite He.
      apply list_elem_of_In, in_map, Hin.
    + apply IH; assumption.
Qed.

Lemma filter_unique_patient (ps : list Patient) (pid : string) :
  NoDup (map patient_id ps) ->
  (length (List.filter (fun p => String.eqb (patient_id p) pid) ps) <= 1)%nat.
Proof.
  induction ps as [| p r IH]; simpl; [lia |].
  intros Hu. apply NoDup_cons in Hu. destruct Hu as [Hp Hu].
  destruct (String.eqb (patient_id p) pid) eqn:He; [| apply IH, Hu].
  apply String.eqb_eq in He. simpl.
  assert (Hnone : List.filter (fun q => String.eqb (patient_id q) pid) r = []).
  { destruct (List.filter _ r) as [| q t] eqn:Hf; [reflexivity |].
    assert (Hin : In q (List.filter
                          (fun q => String.eqb (patient_id q) pid) r))
      by (rewrite Hf; left; reflexivity).
    apply filter_In in Hin. destruct Hin as [Hin Hq].
    apply String.eqb_eq in Hq. exfalso. apply Hp. rewrite He, <- Hq.
    apply list_elem_of_In, in_map, Hin. }
  rewrite Hnone. simpl. lia.
Qed.

Lemma item_rows_length (fm fd fa : option string) (ps : list Patient)
  (it : WorklistItem) :
  NoDup (map patient_id ps) ->
  (length (item_rows fm fd fa ps it) <= 1)%nat.
Proof.
  intros Hu. unfold item_rows. rewrite length_map.
  etransitivity; [apply List.filter_length_le |]. rewrite length_map.
  apply filter_unique_patient, Hu.
Qed.

Lemma select_accessions_NoDup (fm fd fa : option string) (s : Store) :
  unique_accessions s -> unique_patients s ->
  NoDup (map r_accession_number (select_worklist_items fm fd fa s)).
Proof.
  unfold unique_accessions, unique_patients. intros Ha Hp.
  rewrite select_by_item.
  induction (worklist_items s) as [| it r IH]; simpl; [constructor |].
  apply NoDup_cons in Ha. destruct Ha as [Hit Ha].
  rewrite map_app. apply NoDup_app. split; [| split; [| apply IH, Ha]].
  - pose proof (item_rows_length fm fd fa _ it Hp) as Hlen.
    destruct (item_rows fm fd fa (patients s) it) as [| x [| y t]];
      simpl in *; [constructor | apply NoDup_singleton | lia].
  - intros a Hin1 Hin2.
    apply list_elem_of_In, in_map_iff in Hin1.
    destruct Hin1 as (row & <- & Hrow).
    pose proof (item_rows_accession fm fd fa (patients s) it) as Hacc.
    rewrite List.Forall_forall in Hacc. rewrite (Hacc row Hrow) in Hin2.
    apply list_elem_of_In in Hin2.
    pose proof (flat_map_rows_other fm fd fa (patients s)
                  (accession_number it) r) as Hother.
    rewrite List.Forall_forall in Hother.
    apply in_map_iff in Hin2. destruct Hin2 as (row' & Heq & Hrow').
    apply (Hother (fun H => Hit (proj2 (list_elem_of_In _ _) H)) row' Hrow').
    exact Heq.
Qed.

Lemma select_rows_in_store (fm fd fa : option string) (s : Store) :
  unique_accessions s ->
  Forall (row_in_store s) (select_worklist_items fm fd fa s).
Proof.
  intros Hu. rewrite select_worklist_items_satisfies.
  apply List.Forall_forall. intros row Hrow. apply in_map_iff in Hrow.
  destruct Hrow as ([it p] & <- & Hin). apply filter_In in Hin.
  destruct Hin as [Hin _]. apply join_patient_In in Hin.
  destruct Hin as (Hit & _).
  unfold row_in_store, stored_uid, first_item. simpl.
  rewrite (find_unique_item _ it Hu Hit). split; [discriminate | reflexivity].
Qed.

(** One turn of the loop of [find_worklist]: a row with a non-empty study
    identifier is answered with it, stripped, and nothing is written;
    otherwise a fresh identifier is stripped, answered and written to the
    item of the row. *)
Lemma build_worklist_object_step (row : Row) (acc : list WorklistDataset)
  (w : World) :
  first_item (r_accession_number row) (store w) <> None ->
  wp (build_worklist_object E row acc)
     (fun r w' =>
        exists uid,
          r = Ok (acc ++ [answer_of row uid])%list
          /\ uid_step row (store w) (store w') uid) w.
Proof.
  intros Hex. unfold build_worklist_object. cbv zeta.
  assert (Hgen :
    r_study_instance_uid row = None \/ r_study_instance_uid row = Some "" ->
    wp (let! uid := new_uid E in
        let! success :=
          update_study_instance_uid (r_accession_number row)
                                    (str_strip uid) in
        (if negb success
         then LogWarning "Error updating study UID"
         else LogInfo "Updated study UID") ;;
        ret (str_strip uid))
       (fun r s' =>
          match r with
          | Ok uid =>
              wp (ret (acc ++ [answer_of row uid])%list)
                 (fun r w' =>
                    exists uid,
                      r = Ok (acc ++ [answer_of row uid])%list
                      /\ uid_step row (store w) (store w') uid) s'
          | Raise e => False
          end) w).
  { intros Hrow. wp_steps.
    eapply wp_mono; [| apply update_study_instance_uid_spec].
    cbv beta. intros r w' (b & -> & _ & Hs). simpl in Hs.
    destruct (first_item (r_accession_number row) (store w)) eqn:Hit;
      [| congruence].
    destruct b; cbn [negb]; wp_steps; eexists; (split; [reflexivity |]);
      right; simpl; (split; [exact Hs |]);
      (split; [apply str_strip_stripped | exact Hrow]). }
  wp_step.
  destruct (r_study_instance_uid row) as [existing |] eqn:Hrow.
  - destruct (nonempty existing) eqn:Hne.
    + wp_steps. exists (str_strip existing). split; [reflexivity |]. left.
      apply nonempty_true in Hne. split; [reflexivity |].
      exists existing. auto.
    + eapply wp_mono; [| apply Hgen].
      * intros [uid | e] s'; [exact id | intros []].
      * right. f_equal. unfold nonempty in Hne.
        apply negb_false_iff, String.eqb_eq in Hne. exact Hne.
  - eapply wp_mono; [| apply Hgen; auto].
    intros [uid | e] s'; [exact id | intros []].
Qed.

Lemma for_each_build_uids (s1 : Store) (rows : list Row) :
  forall (acc : list WorklistDataset) (w : World),
    NoDup (map r_accession_number rows ++ map AccessionNumber acc) ->
    Forall (row_in_store s1) rows ->
    Forall (row_in_store (store w)) rows ->
    Forall (persisted (store w)) acc ->
    Forall (reuses s1) acc ->
    unique_accessions (store w) ->
    unique_patients (store w) ->
    wp (for_each rows (build_worklist_object E) acc)
       (fun r w' =>
          exists recs,
            r = Ok recs
            /\ Forall (persisted (store w')) recs
            /\ Forall (reuses s1) recs
            /\ unique_accessions (store w')
            /\ unique_patients (store w')
            /\ map AccessionNumber recs
               = (map AccessionNumber acc ++ map r_accession_number rows)%list)
       w.
Proof.
  induction rows as [| row rest IH];
    intros acc w Hnd H1 Hw Hper Hre Hua Hup; simpl for_each.
  - wp_steps. exists acc. rewrite app_nil_r. auto 10.
  - inversion H1 as [| ? ? [_ Hrow1] Hrest1]; subst.
    inversion Hw as [| ? ? [Hex Hroww] Hrestw]; subst.
    simpl in Hnd. apply NoDup_cons in Hnd. destruct Hnd as [Hfresh Hnd].
    assert (Hrest_ne : forall r', In r' rest ->
              r_accession_number r' <> r_accession_number row).
    { intros r' Hin Heq. apply Hfresh. rewrite <- Heq.
      apply list_elem_of_In, in_or_app. left. apply in_map, Hin. }
    assert (Hacc_ne : forall rec, In rec acc ->
              AccessionNumber rec <> r_accession_number row).
    { intros rec Hin Heq. apply Hfresh. rewrite <- Heq.
      apply list_elem_of_In, in_or_app. right. apply in_map, Hin. }
    wp_step.
    eapply wp_mono; [| apply build_worklist_object_step, Hex].
    cbv beta. intros r w' (uid & -> & Hcase).
    assert (Hnd' : NoDup (map r_accession_number rest
                          ++ map AccessionNumber (acc ++ [answer_of row uid]))).
    { rewrite map_app. simpl.
      apply NoDup_app in Hnd. destruct Hnd as (N1 & N2 & N3).
      apply NoDup_app. split; [exact N1 |]. split.
      - intros a Ha Hin. apply list_elem_of_In, in_app_or in Hin.
        destruct Hin as [Hin | [<- | []]].
        + apply (N2 a Ha), list_elem_of_In, Hin.
        + apply list_elem_of_In, in_map_iff in Ha.
          destruct Ha as (r' & Heq & Hr'). apply (Hrest_ne r' Hr' Heq).
      - apply NoDup_app. split; [exact N3 |].
        split; [| apply NoDup_singleton].
        intros a Ha Hin. apply list_elem_of_singleton in Hin. subst a.
        apply list_elem_of_In, in_map_iff in Ha.
        destruct Ha as (rec & Heq & Hrec). apply (Hacc_ne rec Hrec Heq). }
    assert (Hfinish : forall recs,
              map AccessionNumber recs
              = (map AccessionNumber (acc ++ [answer_of row uid])
                 ++ map r_accession_number rest)%list ->
              map AccessionNumber recs
              = (map AccessionNumber acc
                 ++ r_accession_number row
                    :: map r_accession_number rest)%list).
    { intros recs ->. rewrite map_app, <- app_assoc. reflexivity. }
    destruct Hcase as [(Hs & e & Hu & Hne & He) | (Hs & Hstr & Hnone)].
    + eapply wp_mono; [| apply (IH _ w' Hnd' Hrest1)].
      * cbv beta. intros r w'' (recs & -> & P1 & P2 & P3 & P4 & P5).
        exists recs. split; [reflexivity |]. repeat (split; [assumption |]).
        apply (Hfinish recs P5).
      * rewrite Hs. exact Hrestw.
      * rewrite Hs. apply Forall_app. split; [exact Hper |].
        constructor; [| constructor]. unfold persisted. simpl.
        rewrite Hroww, Hu, He. reflexivity.
      * apply Forall_app. split; [exact Hre |].
        constructor; [| constructor]. unfold reuses. simpl.
        rewrite Hrow1, Hu. intros u [= <-] _. exact He.
      * rewrite Hs. exact Hua.
      * rewrite Hs. exact Hup.
    + eapply wp_mono; [| apply (IH _ w' Hnd' Hrest1)].
      * cbv beta. intros r w'' (recs & -> & P1 & P2 & P3 & P4 & P5).
        exists recs. split; [reflexivity |]. repeat (split; [assumption |]).
        apply (Hfinish recs P5).
      * rewrite Hs. apply List.Forall_forall. intros r' Hr'.
        rewrite List.Forall_forall in Hrestw.
        destruct (Hrestw r' Hr') as [He Hst].
        unfold row_in_store.
        rewrite first_item_set_uid_other, stored_uid_set_other
          by (apply Hrest_ne, Hr'). auto.
      * rewrite Hs. apply Forall_app. split.
        -- apply List.Forall_forall. intros rec Hrec.
           rewrite List.Forall_forall in Hper. unfold persisted.
           rewrite stored_uid_set_other by (apply Hacc_ne, Hrec).
           apply Hper, Hrec.
        -- constructor; [| constructor]. unfold persisted. simpl.
           rewrite (stored_uid_set_same _ _ _ Hex). simpl. rewrite Hstr.
           reflexivity.
      * apply Forall_app. split; [exact Hre |].
        constructor; [| constructor]. unfold reuses. simpl.
        rewrite Hrow1. intros u Hu Hne.
        destruct Hnone as [Hn | Hn]; rewrite Hn in Hu; congruence.
      * rewrite Hs. unfold unique_accessions.
        rewrite accessions_set_uid. exact Hua.
      * rewrite Hs. exact Hup.
Qed.

Lemma stored_uid_grows (a u : string) (s s' : Store)
  (fl : list WorklistItem) :
  worklist_items s' = (worklist_items s ++ fl)%list ->
  stored_uid a s = Some u -> stored_uid a s' = Some u.
Proof.
  unfold stored_uid, first_item. intros -> H. rewrite find_app_first.
  destruct (List.find _ (worklist_items s)); [exact H | discriminate].
Qed.

Lemma find_worklist_uids (requestedDS : Identifier) (w : World) :
  unique_accessions (store w) ->
  unique_patients (store w) ->
  wp (find_worklist E requestedDS)
     (fun r w' =>
        exists recs,
          r = Ok recs
          /\ Forall (persisted (store w')) recs
          /\ Forall (reuses (store w)) recs
          /\ unique_accessions (store w')
          /\ unique_patients (store w')
          /\ NoDup (map AccessionNumber recs)) w.
Proof.
  intros Hua Hup. unfold find_worklist. wp_steps.
  apply wp_total; [apply sync_total |]. intros n w1 Hrun.
  assert (H1 : unique_accessions (store w1)
               /\ unique_patients (store w1)
               /\ exists fl, worklist_items (store w1)
                             = (worklist_items (store w) ++ fl)%list).
  { match type of Hrun with
    | sync_emr_orders E ?wx = _ =>
        pose proof (sync_unique_accessions wx Hua) as A1;
        pose proof (sync_grown_run wx) as A2
    end.
    rewrite Hrun in A1, A2. simpl in A1, A2.
    destruct A2 as (_ & _ & A3 & ps & fl & _ & _ & A4 & _).
    split; [exact A1 |]. split; [apply A3, Hup |]. exists fl. exact A4. }
  destruct H1 as (Hua1 & Hup1 & fl & Hfl).
  assert (Hrest : forall w2 sps_date sps_modality accession,
    store w2 = store w1 ->
    wp (LogInfo "Searching for worklist items" ;;
        let! db_items :=
          get_worklist_items sps_modality sps_date accession in
        LogInfo "Found worklist items in database" ;;
        let! worklist_objects :=
          for_each db_items (build_worklist_object E) [] in
        LogInfo "Returning worklist objects" ;;
        ret worklist_objects)
       (fun r w' =>
          exists recs,
            r = Ok recs
            /\ Forall (persisted (store w')) recs
            /\ Forall (reuses (store w)) recs
            /\ unique_accessions (store w')
            /\ unique_patients (store w')
            /\ NoDup (map AccessionNumber recs)) w2).
  { intros w2 sps_date sps_modality accession Hs2. wp_steps.
    unfold wp at 1. rewrite get_worklist_items_run. cbn [fst snd].
    wp_steps. simpl store. rewrite Hs2.
    eapply wp_mono;
      [| apply (for_each_build_uids (store w1)); simpl store; rewrite ?Hs2;
         [ rewrite app_nil_r; apply select_accessions_NoDup; assumption
         | apply select_rows_in_store; assumption
         | apply select_rows_in_store; assumption
         | constructor | constructor | assumption | assumption ] ].
    cbv beta. intros r w' (recs & -> & P1 & P2 & P3 & P4 & P5).
    wp_steps. exists recs. split; [reflexivity |]. simpl store.
    split; [exact P1 |]. split.
    - eapply List.Forall_impl; [| exact P2]. intros rec Hrec u Hu Hne.
      apply Hrec; [| exact Hne]. eapply stored_uid_grows; eassumption.
    - split; [exact P3 |]. split; [exact P4 |].
      rewrite P5. simpl.
      apply select_accessions_NoDup; assumption. }
  destruct (0 <? n)%nat; wp_steps;
    destruct (q_ScheduledProcedureStepSequence requestedDS) as [[| q0 ?] |];
    apply Hrest; reflexivity.
Qed.

Lemma find_worklist_uids_run (requestedDS : Identifier) (w : World) :
  unique_accessions (store w) ->
  unique_patients (store w) ->
  exists recs w',
    find_worklist E requestedDS w = (Ok recs, w')
    /\ Forall (persisted (store w')) recs
    /\ Forall (reuses (store w)) recs
    /\ unique_accessions (store w')
    /\ unique_patients (store w')
    /\ NoDup (map AccessionNumber recs).
Proof.
  intros Hua Hup. pose proof (find_worklist_uids requestedDS w Hua Hup) as H.
  unfold wp in H. destruct (find_worklist E requestedDS w) as [r w'].
  simpl in H. destruct H as (recs & -> & H). exists recs, w'. auto.
Qed.

(** X18. Every study identifier a worklist query answers with is the one the
    store holds for the accession number of the answer when the query returns,
    without the white space at its ends, which the dataset drops when the
    identifier is assigned; and no accession number is answered twice. *)
Theorem find_persists_study_uids :
  forall (requestedDS : Identifier) (w : World),
    unique_accessions (store w) ->
    unique_patients (store w) ->
    exists recs w',
      find_worklist E requestedDS w = (Ok recs, w')
      /\ Forall (persisted (store w')) recs
      /\ NoDup (map AccessionNumber recs).
Proof.
  intros id w Hua Hup.
  destruct (find_worklist_uids_run id w Hua Hup)
    as (recs & w' & Hrun & P1 & _ & _ & _ & P5).
  exists recs, w'. auto.
Qed.

(** X19. An item that has a non-empty study identifier when the query starts
    is answered with that identifier, without the white space at its ends,
    which the dataset drops when the identifier is assigned. *)
Theorem find_reuses_stored_uids :
  forall (requestedDS : Identifier) (w : World),
    unique_accessions (store w) ->
    unique_patients (store w) ->
    exists recs w',
      find_worklist E requestedDS w = (Ok recs, w')
      /\ Forall (reuses (store w)) recs.
Proof.
  intros id w Hua Hup.
  destruct (find_worklist_uids_run id w Hua Hup)
    as (recs & w' & Hrun & _ & P2 & _).
  exists recs, w'. auto.
Qed.

(** X20. The study identifier of an order is stable. Two worklist queries one
    after the other, with any two identifiers, answer an accession number with
    the same study identifier, provided the first one is not the empty
    string. *)
Theorem find_twice_same_study_uid :
  forall (id1 id2 : Identifier) (w : World),
    unique_accessions (store w) ->
    unique_patients (store w) ->
    exists recs1 w1 recs2 w2,
      find_worklist E id1 w = (Ok recs1, w1)
      /\ find_worklist E id2 w1 = (Ok recs2, w2)
      /\ forall rec1 rec2,
           In rec1 recs1 -> In rec2 recs2 ->
           AccessionNumber rec2 = AccessionNumber rec1 ->
           StudyInstanceUID rec1 <> "" ->
           StudyInstanceUID rec2 = StudyInstanceUID rec1.
Proof.
  intros id1 id2 w Hua Hup.
  destruct (find_worklist_uids_run id1 w Hua Hup)
    as (recs1 & w1 & Hrun1 & P1 & _ & Hua1 & Hup1 & _).
  destruct (find_worklist_uids_run id2 w1 Hua1 Hup1)
    as (recs2 & w2 & Hrun2 & _ & Q2 & _).
  exists recs1, w1, recs2, w2. split; [exact Hrun1 |]. split; [exact Hrun2 |].
  intros rec1 rec2 Hin1 Hin2 Hacc Hne.
  rewrite List.Forall_forall in P1, Q2.
  pose proof (P1 rec1 Hin1) as H1. unfold persisted in H1.
  destruct (stored_uid (AccessionNumber rec1) (store w1)) as [u |] eqn:Hu;
    [| discriminate].
  simpl in H1. injection H1 as H1. rewrite <- H1.
  apply (Q2 rec2 Hin2); [rewrite Hacc; exact Hu |].
  intros ->. apply Hne. rewrite <- H1. reflexivity.
Qed.

(** ** The responses of a C-FIND *)

Lemma run_query_returns (id : Identifier) (w : World) :
  exists recs w', run_query E id w = (Ok recs, w').
Proof.
  pose proof (find_worklist_spec id (add_log Info "C-FIND request received" w))
    as H.
  unfold wp in H. destruct H as (recs & Hr & _).
  unfold run_query, bind, LogInfo, orthanc_Log, modify.
  destruct (find_worklist E id _) as [r w']. simpl in Hr. subst r.
  eauto.
Qed.

Lemma consume_start (id : Identifier) (c : bool) (cs : list bool)
  (w w' : World) (recs : list WorklistDataset) :
  run_query E id w = (Ok recs, w') ->
  consume E (handle_find id) (c :: cs) w
  = consume E (FindLoop recs) (c :: cs) w'.
Proof.
  intros Hrun. cbn [consume]. unfold bind at 1 3.
  assert (Hn : find_next E (handle_find id) c w = (Ok (find_loop recs c), w')).
  { unfold handle_find, find_next, try_except, bind. 
    unfold run_query, bind in Hrun.
    destruct (LogInfo "C-FIND request received" w) as [[[] | e] w0];
      [| discriminate].
    destruct (find_worklist E id w0) as [[ds | e] w1]; [| discriminate].
    injection Hrun as -> ->. reflexivity. }
  rewrite Hn. reflexivity.
Qed.

Lemma consume_last (cs : list bool) (w : World) :
  exists g, consume E FindLast cs w = (Ok (g, []), w).
Proof. destruct cs; cbn [consume]; eexists; reflexivity. Qed.

Lemma consume_pending (pre rest : list WorklistDataset) (cs : list bool)
  (w : World) (g : find_gen) (ys : list (Z * option WorklistDataset)) :
  consume E (FindLoop rest) cs w = (Ok (g, ys), w) ->
  consume E (FindLoop (pre ++ rest)) (repeat false (length pre) ++ cs) w
  = (Ok (g, map pending pre ++ ys)%list, w).
Proof.
  intros Hrest. induction pre as [| x pre IH]; [exact Hrest |].
  simpl length. simpl repeat. simpl app. cbn [consume find_next find_loop].
  unfold bind at 1. unfold ret at 1. cbv beta iota.
  unfold bind. rewrite IH. reflexivity.
Qed.

(** X21. The responses of a C-FIND that is not cancelled while records remain:
    one pending response (0xFF00) with each answer of the query, in the order
    of the answers, then the final response 0x0000 without dataset; a
    cancellation flagged once the last record has been yielded is not seen.
    Further resumptions yield nothing. *)
Theorem find_yields_every_answer :
  forall (id : Identifier) (w : World),
  exists recs w',
    run_query E id w = (Ok recs, w')
    /\ forall (c : bool) (cs : list bool),
       exists g,
         consume E (handle_find id)
                 (repeat false (length recs) ++ c :: cs) w
         = (Ok (g, map pending recs ++ [(0x0000, None)])%list, w').
Proof.
  intros id w. destruct (run_query_returns id w) as (recs & w' & Hrun).
  exists recs, w'. split; [exact Hrun |]. intros c cs.
  destruct (consume_last cs w') as (g & Hlast). exists g.
  assert (Hloop : consume E (FindLoop (recs ++ []))
                    (repeat false (length recs) ++ c :: cs) w'
                  = (Ok (g, map pending recs ++ [(0x0000, None)])%list, w')).
  { apply consume_pending. cbn [consume find_next find_loop].
    unfold bind at 1. unfold ret at 1. cbv beta iota.
    unfold bind. rewrite Hlast. reflexivity. }
  rewrite app_nil_r in Hloop. rewrite <- Hloop.
  destruct recs as [| x recs]; simpl repeat; simpl app;
    apply (consume_start id _ _ w w' _ Hrun).
Qed.

(** X22. The responses of a C-FIND cancelled while records remain: the pending
    responses of the records yielded before the cancellation is seen, then the
    response 0xFE00 without dataset, and nothing after it whatever the later
    resumptions; the records not yet yielded are dropped. *)
Theorem find_cancelled_stops :
  forall (id : Identifier) (w : World),
  exists recs w',
    run_query E id w = (Ok recs, w')
    /\ forall (pre rest : list WorklistDataset) (cs : list bool),
       recs = (pre ++ rest)%list -> rest <> [] ->
       exists g,
         consume E (handle_find id)
                 (repeat false (length pre) ++ true :: cs) w
         = (Ok (g, map pending pre ++ [(0xFE00, None)])%list, w').
Proof.
  intros id w. destruct (run_query_returns id w) as (recs & w' & Hrun).
  exists recs, w'. split; [exact Hrun |]. intros pre rest cs -> Hrest.
  destruct rest as [| x rest]; [congruence |].
  destruct (consume_last cs w') as (g & Hlast). exists g.
  assert (Hloop : consume E (FindLoop (pre ++ x :: rest))
                    (repeat false (length pre) ++ true :: cs) w'
                  = (Ok (g, map pending pre ++ [(0xFE00, None)])%list, w')).
  { apply consume_pending. cbn [consume find_next find_loop].
    unfold bind at 1. unfold ret at 1. cbv beta iota.
    unfold bind. rewrite Hlast. reflexivity. }
  rewrite <- Hloop.
  destruct pre as [| y pre]; simpl repeat; simpl app;
    apply (consume_start id _ _ w w' _ Hrun).
Qed.

(** ** The device mappings *)

Lemma with_mappings_refl (d : Session) : with_mappings [] d d.
Proof. unfold with_mappings. rewrite app_nil_r. auto 10. Qed.

Lemma with_mappings_trans (l l' : list ModalityAET) (d d' d'' : Session) :
  with_mappings l d d' -> with_mappings l' d' d'' ->
  with_mappings (l ++ l') d d''.
Proof.
  unfold with_mappings.
  intros (A1 & A2 & A3 & A4 & A5 & A6 & A7 & A8)
         (B1 & B2 & B3 & B4 & B5 & B6 & B7 & B8).
  rewrite B1, A1, app_assoc. repeat split; congruence.
Qed.

Lemma for_each_add_mapping (m : string) (aets : list string) :
  forall (d : Session) (w : World)
         (Q : result unit -> Session * World -> Prop),
    (forall d', with_mappings
                  (map (fun a => {| ma_modality := m; ma_aet := str_strip a |})
                       aets) d d' ->
                Q (Ok tt) (d', w)) ->
    wp (for_each aets
          (fun aet_ (_ : unit) =>
             liftS (mutate (add_mapping {| ma_modality := m;
                                           ma_aet := str_strip aet_ |})))
          tt) Q (d, w).
Proof.
  induction aets as [| a r IH]; intros d w Q HQ; simpl for_each.
  - wp_steps. apply HQ, with_mappings_refl.
  - wp_steps. apply IH. intros d' Hd'. apply HQ.
    simpl map.
    assert (H1 : with_mappings
                   [{| ma_modality := m; ma_aet := str_strip a |}] d
                   (on_view (add_mapping {| ma_modality := m;
                                            ma_aet := str_strip a |}) d)).
    { unfold with_mappings. simpl. repeat split; reflexivity. }
    exact (with_mappings_trans _ _ _ _ _ H1 Hd').
Qed.

Lemma for_each_variable (environ : list (string * string)) :
  forall (d : Session) (w : World)
         (Q : result unit -> Session * World -> Prop),
    (forall d' w',
        with_mappings (flat_map mappings_of_variable environ) d d' ->
        same_but_log w w' ->
        Q (Ok tt) (d', w')) ->
    wp (for_each environ
          (fun kv (_ : unit) =>
             let key := fst kv in
             let value := snd kv in
             if String.prefix MODALITY_AET_ key then
               liftW (LogInfo "Loading modality-AET mapping") ;;
               let modality_ := replace_with_empty MODALITY_AET_ key in
               let aets := split_on "," value in
               for_each aets
                 (fun aet_ (_ : unit) =>
                    let mapping :=
                      {| ma_modality := str_strip modality_;
                         ma_aet := str_strip aet_ |} in
                    liftS (mutate (add_mapping mapping)))
                 tt
             else ret tt)
          tt) Q (d, w).
Proof.
  induction environ as [| kv r IH]; intros d w Q HQ; simpl for_each.
  - wp_steps. apply HQ; [apply with_mappings_refl |].
    unfold same_but_log. auto.
  - wp_step. cbv zeta. simpl flat_map in HQ.
    unfold mappings_of_variable at 1 in HQ.
    destruct (String.prefix MODALITY_AET_ (fst kv)).
    + wp_steps. apply for_each_add_mapping. intros d1 Hd1.
      apply IH. intros d' w' Hd' Hsame. apply HQ.
      * exact (with_mappings_trans _ _ _ _ _ Hd1 Hd').
      * exact Hsame.
    + wp_steps. apply IH. intros d' w' Hd' Hsame. apply HQ; assumption.
Qed.

Lemma load_modality_aets_run (environ : list (string * string)) (w : World) :
  exists w',
    load_modality_aets environ w = (Ok tt, w')
    /\ modality_aets (store w') = flat_map mappings_of_variable environ
    /\ patients (store w') = patients (store w)
    /\ worklist_items (store w') = worklist_items (store w)
    /\ mpps_tracking (store w') = mpps_tracking (store w)
    /\ managed_instances w' = managed_instances w
    /\ emr w' = emr w.
Proof.
  assert (H : wp (load_modality_aets environ)
                 (fun r w' =>
                    r = Ok tt
                    /\ modality_aets (store w')
                       = flat_map mappings_of_variable environ
                    /\ patients (store w') = patients (store w)
                    /\ worklist_items (store w') = worklist_items (store w)
                    /\ mpps_tracking (store w') = mpps_tracking (store w)
                    /\ managed_instances w' = managed_instances w
                    /\ emr w' = emr w) w).
  { unfold load_modality_aets. wp_steps.
    apply for_each_variable. intros d' w' Hd' Hsame.
    destruct Hd' as (A1 & A2 & A3 & A4 & A5 & A6 & A7 & A8). simpl in *.
    destruct Hsame as (S1 & S2 & S3 & _).
    wp_steps. apply wp_flush; cbv beta iota.
    - intros Hf. rewrite A8 in Hf. discriminate.
    - intros _ s Hs. unfold flush_rows in Hs. rewrite A5, A6, A7 in Hs.
      simpl in Hs. injection Hs as <-. wp_steps.
      unfold publish; simpl fst; simpl snd. wp_steps. simpl. auto 10.
    - intros _ Hs. unfold flush_rows in Hs. rewrite A5, A6, A7 in Hs.
      discriminate. }
  unfold wp in H. destruct (load_modality_aets environ w) as [r w'].
  simpl in H. destruct H as (-> & H). exists w'. auto.
Qed.

Lemma split_on_nonempty (sep : ascii) (s : string) : split_on sep s <> [].
Proof.
  destruct s as [| c r]; simpl; [discriminate |].
  destruct (Ascii.eqb c sep); [discriminate |].
  destruct (split_on sep r); discriminate.
Qed.

Lemma split_on_pieces (sep : ascii) (s : string) :
  Forall (fun p => ~ In sep (list_ascii_of_string p)) (split_on sep s).
Proof.
  induction s as [| c r IH]; simpl.
  - constructor; [intros [] | constructor].
  - destruct (Ascii.eqb c sep) eqn:Hc.
    + constructor; [intros [] | exact IH].
    + apply Ascii.eqb_neq in Hc.
      destruct (split_on sep r) as [| h t]; simpl.
      * constructor; [| constructor]. simpl. intros [H | []]. congruence.
      * inversion IH as [| ? ? Hh Ht]; subst. constructor; [| exact Ht].
        simpl. intros [H | H]; [congruence | exact (Hh H)].
Qed.

Lemma split_on_length (sep : ascii) (s : string) :
  length (split_on sep s) = S (count_char sep s).
Proof.
  induction s as [| c r IH]; simpl; [reflexivity |].
  destruct (Ascii.eqb c sep); simpl; [rewrite IH; reflexivity |].
  pose proof (split_on_nonempty sep r) as Hne.
  destruct (split_on sep r) as [| h t]; [congruence |].
  simpl in *. exact IH.
Qed.

Lemma prefix_length (a b : string) :
  String.prefix a b = true -> (String.length a <= String.length b)%nat.
Proof.
  revert b. induction a as [| x a IH]; intros b; [simpl; lia |].
  destruct b as [| y b]; simpl; [discriminate |].
  destruct (ascii_dec x y); [| discriminate].
  intros H. apply IH in H. lia.
Qed.

Lemma prefix_append (a b : string) : String.prefix a (a ++ b) = true.
Proof.
  induction a as [| x a IH]; simpl; [destruct b; reflexivity |].
  destruct (ascii_dec x x); [exact IH | congruence].
Qed.

Lemma remove_from_skip (old pre s : string) :
  remove_from old (String.length pre) (pre ++ s) = remove_from old 0 s.
Proof. induction pre as [| x pre IH]; simpl; [reflexivity | exact IH]. Qed.

Lemma remove_from_short (old s : string) :
  (String.length s < String.length old)%nat -> remove_from old 0 s = s.
Proof.
  induction s as [| c r IH]; intros Hlen; [reflexivity |].
  cbn [remove_from].
  destruct (String.prefix old (String c r)) eqn:Hp.
  - apply prefix_length in Hp. lia.
  - rewrite IH; [reflexivity | simpl in Hlen; lia].
Qed.

Lemma replace_prefixed (old m : string) :
  old <> EmptyString ->
  (String.length m < String.length old)%nat ->
  replace_with_empty old (old ++ m) = m.
Proof.
  intros Hne Hlen. unfold replace_with_empty.
  destruct old as [| c r] eqn:Hold; [congruence |].
  change ((String c r ++ m)%string) with (String c (r ++ m)%string).
  cbn [remove_from].
  change (String c (r ++ m)%string) with ((String c r ++ m)%string).
  rewrite prefix_append.
  replace (String.length (String c r) - 1)%nat with (String.length r)
    by (simpl; lia).
  rewrite remove_from_skip. apply remove_from_short. exact Hlen.
Qed.

(** X23. [load_modality_aets] always returns and rebuilds the table of the
    device mappings from the environment alone: whatever mappings the store
    held are dropped, so two loads of one environment give the same table from
    any two states; the patients, the worklist items, the tracking rows, the
    managed instances and the order source are left alone. *)
Theorem load_modality_aets_rebuilds_table :
  forall (environ : list (string * string)) (w : World),
  exists w',
    load_modality_aets environ w = (Ok tt, w')
    /\ patients (store w') = patients (store w)
    /\ worklist_items (store w') = worklist_items (store w)
    /\ mpps_tracking (store w') = mpps_tracking (store w)
    /\ managed_instances w' = managed_instances w
    /\ emr w' = emr w
    /\ forall w2,
         modality_aets (store (snd (load_modality_aets environ w2)))
         = modality_aets (store w').
Proof.
  intros environ w.
  destruct (load_modality_aets_run environ w)
    as (w' & Hrun & Ha & Hp & Hi & Hm & Hma & He).
  exists w'. repeat (split; [assumption |]). intros w2.
  destruct (load_modality_aets_run environ w2) as (w2' & Hrun2 & Ha2 & _).
  rewrite Hrun2. simpl. congruence.
Qed.

(** X24. Every mapping [load_modality_aets] stores has a modality and a device
    name without white space at either end, and a device name without comma. *)
Theorem loaded_mappings_are_stripped :
  forall (environ : list (string * string)) (w : World),
    Forall (fun ma =>
              stripped (ma_modality ma) /\ stripped (ma_aet ma)
              /\ ~ In ","%char (list_ascii_of_string (ma_aet ma)))
           (modality_aets (store (snd (load_modality_aets environ w)))).
Proof.
  intros environ w.
  destruct (load_modality_aets_run environ w) as (w' & Hrun & Ha & _).
  rewrite Hrun. simpl. rewrite Ha. apply List.Forall_forall. intros ma Hin.
  apply in_flat_map in Hin. destruct Hin as (kv & _ & Hin).
  unfold mappings_of_variable in Hin.
  destruct (String.prefix MODALITY_AET_ (fst kv)); [| destruct Hin].
  apply in_map_iff in Hin. destruct Hin as (a & <- & Ha'). simpl.
  split; [apply str_strip_stripped |]. split; [apply str_strip_stripped |].
  intros Hc. apply str_strip_In in Hc.
  pose proof (split_on_pieces ","%char (snd kv)) as Hp.
  rewrite List.Forall_forall in Hp. exact (Hp a Ha' Hc).
Qed.

(** X25. Every environment variable whose name begins with MODALITY_AET_ gives
    one mapping more than its value has commas, so at least one, also for an
    empty value; the other variables give none. *)
Theorem loaded_mappings_count :
  forall (environ : list (string * string)) (w : World),
    length (modality_aets (store (snd (load_modality_aets environ w))))
    = list_sum
        (map (fun kv => if String.prefix MODALITY_AET_ (fst kv)
                        then S (count_char ","%char (snd kv))
                        else 0%nat) environ).
Proof.
  intros environ w.
  destruct (load_modality_aets_run environ w) as (w' & Hrun & Ha & _).
  rewrite Hrun. simpl. rewrite Ha. clear.
  induction environ as [| kv r IH]; simpl; [reflexivity |].
  rewrite length_app, IH. f_equal. unfold mappings_of_variable.
  destruct (String.prefix MODALITY_AET_ (fst kv)); [| reflexivity].
  rewrite length_map. apply split_on_length.
Qed.

(** X26. After a load, [get_aets_for_modality] answers a modality with the
    device names of the variables that stand for it, stripped, in the order of
    the environment and, within a value, from left to right; for no modality
    it answers nothing. *)
Theorem get_aets_after_load :
  forall (environ : list (string * string)) (w : World) (m : string),
    let w' := snd (load_modality_aets environ w) in
    get_aets_for_modality (Some m) w'
    = (Ok (flat_map (aets_of_variable m) environ), w')
    /\ get_aets_for_modality None w' = (Ok [], w').
Proof.
  intros environ w m w'. split; [| reflexivity].
  change (get_aets_for_modality (Some m) w')
    with (Ok (aets_for (Some m) (store w')) : result (list string), w').
  f_equal. f_equal. unfold w'.
  destruct (load_modality_aets_run environ w) as (w1 & Hrun & Ha & _).
  rewrite Hrun. simpl snd. unfold aets_for. rewrite Ha. clear.
  induction environ as [| kv r IH]; simpl; [reflexivity |].
  rewrite List.filter_app, map_app, IH. f_equal.
  unfold mappings_of_variable, aets_of_variable.
  destruct (String.prefix MODALITY_AET_ (fst kv)); [| reflexivity].
  simpl andb.
  induction (split_on "," (snd kv)) as [| a t IHt]; simpl.
  - destruct (String.eqb _ m); reflexivity.
  - destruct (String.eqb _ m) eqn:Hm; simpl; [f_equal |]; exact IHt.
Qed.

(** X27. The variable MODALITY_AET_<m>, for a modality code shorter than the
    prefix, stands for the modality <m> stripped, with one device for each
    piece of its value between commas. *)
Theorem variable_names_modality :
  forall (m value : string) (w : World),
    (String.length m < String.length MODALITY_AET_)%nat ->
    modality_aets
      (store (snd (load_modality_aets
                     [((MODALITY_AET_ ++ m)%string, value)] w)))
    = map (fun a => {| ma_modality := str_strip m; ma_aet := str_strip a |})
          (split_on "," value).
Proof.
  intros m value w Hlen.
  destruct (load_modality_aets_run [((MODALITY_AET_ ++ m)%string, value)] w)
    as (w' & Hrun & Ha & _).
  rewrite Hrun. simpl snd. rewrite Ha. simpl flat_map. rewrite app_nil_r.
  unfold mappings_of_variable. simpl fst. simpl snd.
  rewrite prefix_append, replace_prefixed; [reflexivity | discriminate |].
  exact Hlen.
Qed.

(** ** Romanization: what the romanizer is given *)

Lemma rev_spaced (s : ustr) :
  rev (spaced s) = flat_map (fun c => [32%N; c]) (rev s).
Proof.
  unfold spaced. induction s as [| c r IH]; [reflexivity |].
  change (flat_map (fun c0 => [c0; 32%N]) (c :: r))
    with ([c; 32%N] ++ flat_map (fun c0 => [c0; 32%N]) r)%list.
  rewrite rev_app_distr, IH. simpl rev. rewrite flat_map_app. reflexivity.
Qed.

Lemma separated_snoc (u : ustr) (l : N) :
  separated (u ++ [l])%list = (spaced u ++ [l])%list.
Proof.
  induction u as [| c u IH]; [reflexivity |].
  change ((c :: u) ++ [l])%list with (c :: (u ++ [l]))%list.
  cbn [separated]. rewrite IH.
  destruct (u ++ [l])%list eqn:Hu; [| reflexivity].
  apply app_eq_nil in Hu. destruct Hu; discriminate.
Qed.

Lemma strip_spaced (name : ustr) :
  nonspace_ends name -> strip (spaced name) = separated name.
Proof.
  intros [Hhead Hlast]. unfold strip.
  assert (H1 : lstrip (spaced name) = spaced name).
  { destruct name as [| c r]; [reflexivity |]. simpl.
    rewrite (Hhead c eq_refl). reflexivity. }
  rewrite H1, rev_spaced.
  destruct (rev name) as [| l t] eqn:Hrev.
  - apply (f_equal (@rev N)) in Hrev. rewrite rev_involutive in Hrev.
    subst name. reflexivity.
  - assert (Hname : name = (rev t ++ [l])%list).
    { apply (f_equal (@rev N)) in Hrev. rewrite rev_involutive in Hrev.
      exact Hrev. }
    assert (Hl : is_space l = false).
    { apply Hlast. rewrite Hname. apply last_snoc. }
    simpl flat_map. cbn [lstrip].
    change (is_space 32) with true. cbv iota. cbn [lstrip]. rewrite Hl.
    change (l :: flat_map (fun c => [32%N; c]) t)
      with ([l] ++ flat_map (fun c => [32%N; c]) t)%list.
    rewrite rev_app_distr. simpl rev at 2.
    rewrite Hname, separated_snoc. f_equal.
    rewrite <- (rev_involutive t) at 1. rewrite <- rev_spaced.
    apply rev_involutive.
Qed.

(** X28. A name with a Hangul syllable, without white space at its ends, is
    handed to the romanizer with one blank between each two characters, and
    the answer of the romanizer is returned in upper case; when the romanizer
    fails the name comes back as it is and the error is logged. *)
Theorem translate_romanizes_separated_name :
  forall (name : ustr) (w : World),
    has_korean name = true ->
    nonspace_ends name ->
    let run := translate_korean_to_english_name E name w in
    fst run = Ok (match romanize E (separated name) with
                  | Some r => upper_ustr E r
                  | None => name
                  end)
    /\ (romanize E (separated name) = None ->
        log (snd run)
        = (log w ++ [(Error, "Error translating Korean name")])%list).
Proof.
  intros name w Hk Hends run. unfold run. split.
  - rewrite translate_value, Hk, strip_spaced by exact Hends. reflexivity.
  - intros Hnone.
    unfold translate_korean_to_english_name, try_except.
    rewrite Hk. simpl negb. cbv iota.
    rewrite strip_spaced by exact Hends. rewrite Hnone. reflexivity.
Qed.

(** ** The study identifier of an item *)

(** X29. [update_study_instance_uid] always returns; it answers True exactly
    when the store holds an item with the accession number, and then the store
    holds the study identifier for that accession number; it answers False
    without changing the store. In both cases the items of the other accession
    numbers, the accession numbers themselves and the other tables are left
    alone. *)
Theorem update_study_instance_uid_writes :
  forall (a uid : string) (w : World),
  exists (b : bool) (w' : World),
    update_study_instance_uid a uid w = (Ok b, w')
    /\ (b = true <-> first_item a (store w) <> None)
    /\ (b = true -> stored_uid a (store w') = Some uid)
    /\ (b = false -> store w' = store w)
    /\ (forall a', a' <> a ->
                   first_item a' (store w') = first_item a' (store w))
    /\ map accession_number (worklist_items (store w'))
       = map accession_number (worklist_items (store w))
    /\ patients (store w') = patients (store w)
    /\ mpps_tracking (store w') = mpps_tracking (store w)
    /\ modality_aets (store w') = modality_aets (store w).
Proof.
  intros a uid w.
  assert (H : wp (update_study_instance_uid a uid)
                 (fun r w' =>
                    match first_item a (store w) with
                    | Some _ =>
                        r = Ok true
                        /\ store w' = set_item_study_uid a uid (store w)
                    | None => r = Ok false /\ store w' = store w
                    end) w).
  { unfold update_study_instance_uid. wp_steps.
    apply wp_query; [intros _ | discriminate]. cbv beta iota. simpl view.
    destruct (first_item a (store w)).
    - wp_steps.
      apply wp_flush; cbv beta iota;
        [discriminate | intros _ s Hs | intros _ Hs];
        unfold flush_rows in Hs; simpl in Hs; [| discriminate].
      injection Hs as <-. wp_steps. simpl. auto.
    - wp_steps. simpl. auto. }
  unfold wp in H.
  destruct (update_study_instance_uid a uid w) as [r w']. simpl in H.
  destruct (first_item a (store w)) as [it |] eqn:Hit.
  - destruct H as (-> & Hs). exists true, w'. split; [reflexivity |].
    rewrite Hs. split; [split; [discriminate | reflexivity] |].
    split; [intros _; apply stored_uid_set_same; congruence |].
    split; [discriminate |].
    split; [intros a' Hne; apply first_item_set_uid_other, Hne |].
    split; [apply accessions_set_uid |]. auto.
  - destruct H as (-> & Hs). exists false, w'. split; [reflexivity |].
    rewrite Hs. split; [split; [discriminate | congruence] |].
    split; [discriminate |]. auto 10.
Qed.

End Properties.

(** C1, at the failing input.  A batch that holds the same order twice: the
    second copy finds the patient the first one created, so nothing is
    flushed, and the lookup of the accession number cannot see the item the
    first copy added and has not flushed.  Both items are added, the commit
    violates the uniqueness of the accession number, and the run returns 0
    with an empty worklist instead of one item. *)
Theorem sync_duplicate_orders_in_one_batch :
  let w := world_of empty_store (Some [emr_row order42; emr_row order42]) in
  fetched (last_seq (store w)) w = [order42; order42]
  /\ map (fun o => option_map accession_of_seq (PcsOdrSeq o))
         (fetched (last_seq (store w)) w)
     = [Some "00000042"; Some "00000042"]
  /\ fst (sync_emr_orders E0 w) = Ok 0%nat
  /\ worklist_items (store (snd (sync_emr_orders E0 w))) = [].
Proof. vm_compute. repeat split. Qed.

(** The same order alone is absorbed, and a second run skips it. *)
Example sync_single_order_then_again :
  let w := world_of empty_store (Some [emr_row order42]) in
  let w1 := snd (sync_emr_orders E0 w) in
  fst (sync_emr_orders E0 w) = Ok 1%nat
  /\ store w1 = store1
  /\ fst (sync_emr_orders E0 w1) = Ok 0%nat
  /\ store (snd (sync_emr_orders E0 w1)) = store1.
Proof. vm_compute. repeat split. Qed.

(** An order whose accession number an item of the store already carries
    is skipped. *)
Example sync_existing_order_skipped :
  let w := world_of store_sample (Some [emr_row order42]) in
  exists w', sync_emr_orders E0 w = (Ok 0%nat, w')
             /\ worklist_items (store w') = worklist_items store_sample.
Proof.
  intros w. apply sync_skips_existing_orders.
  repeat constructor.
Qed.

(** An order of the year 999 for a patient with a Hangul name: the date of
    the item is the seven characters 9990102, and the romanized name is
    stored in upper case, the sharp s as SS. *)
Example sync_order_of_year_999 :
  let w := world_of empty_store (Some [emr_row order_999]) in
  let s' := store (snd (sync_emr_orders E1 w)) in
  fst (sync_emr_orders E1 w) = Ok 1%nat
  /\ map (fun it => (accession_number it, appointment_date it,
                     appointment_time it)) (worklist_items s')
     = [("00000007", "9990102", "030405")]
  /\ map patient_eng_name (patients s')
     = [Some [71; 73; 77; 32; 201; 83; 83]%N].
Proof. vm_compute. repeat split. Qed.

Lemma start_then_complete_witness :
  let w := world_of store1 None in
  let w1 := snd (handle_create E0 start_event w) in
  let w2 := snd (handle_set E0 complete_event w1) in
  let v := world_of store_done None in
  let v1 := snd (handle_create E0 start_event v) in
  let v2 := snd (handle_set E0 complete_event v1) in
  let u := world_of store_restarted None in
  let u1 := snd (handle_create E0 start_event u) in
  let u2 := snd (handle_set E0 complete_event u1) in
  (validated_start start_event w "1.2.3"
   /\ step_reference start_attributes = Some ("CT", "00000042", "1.2.840.1")
   /\ first_item "00000042" store1 = Some (item_of "00000042" 42)
   /\ tracked complete_event w1 <> None
   /\ has_sop "1.2.3" store1 = false
   /\ status_code (fst (handle_create E0 start_event w)) = Some 0x0000
   /\ status_code (fst (handle_set E0 complete_event w1)) = Some 0x0000
   /\ map (item_status "00000042") [store w; store w1; store w2]
      = [Some SCHEDULED; Some IN_PROGRESS; Some COMPLETED])
  /\ (validated_start start_event v "1.2.3"
      /\ first_item "00000042" store_done
         = Some (with_status COMPLETED (item_of "00000042" 42))
      /\ tracked complete_event v1 <> None
      /\ has_sop "1.2.3" store_done = false
      /\ map (item_status "00000042") [store v; store v1; store v2]
         = [Some COMPLETED; Some IN_PROGRESS; Some COMPLETED])
  /\ (validated_start start_event u "1.2.3"
      /\ first_item "00000042" store_restarted
         = Some (item_of "00000042" 42)
      /\ tracked complete_event u1 <> None
      /\ has_sop "1.2.3" store_restarted = true
      /\ status_code (fst (handle_create E0 start_event u)) = Some 0x0000
      /\ status_code (fst (handle_set E0 complete_event u1)) = Some 0x0000
      /\ store u1 = store u
      /\ first_mpps "1.2.3" store_restarted
         = Some (in_progress_row "1.2.3" "CT" "00000043" "1.2.840.1" d0)
      /\ map (item_status "00000042") [store u; store u1; store u2]
         = [Some SCHEDULED; Some SCHEDULED; Some SCHEDULED]).
Proof.
  intros w w1 w2 v v1 v2 u u1 u2.
  assert (Hw : validated_start start_event w "1.2.3").
  { split; [reflexivity |]. split; [reflexivity |].
    exists "in progress". split; reflexivity. }
  assert (Hv : validated_start start_event v "1.2.3").
  { split; [reflexivity |]. split; [reflexivity |].
    exists "in progress". split; reflexivity. }
  assert (Hu : validated_start start_event u "1.2.3").
  { split; [reflexivity |]. split; [reflexivity |].
    exists "in progress". split; reflexivity. }
  assert (Tw : tracked complete_event w1 <> None)
    by (vm_compute; discriminate).
  assert (Tv : tracked complete_event v1 <> None)
    by (vm_compute; discriminate).
  assert (Tu : tracked complete_event u1 <> None)
    by (vm_compute; discriminate).
  destruct (start_then_complete E0 start_event empty_dataset w
              "1.2.3" "CT" "00000042" "1.2.840.1" (item_of "00000042" 42)
              Hw eq_refl eq_refl Tw) as (W1 & W2 & W3 & _).
  destruct (start_then_complete E0 start_event empty_dataset v
              "1.2.3" "CT" "00000042" "1.2.840.1"
              (with_status COMPLETED (item_of "00000042" 42))
              Hv eq_refl eq_refl Tv) as (_ & _ & V3 & _).
  destruct (start_then_complete E0 start_event empty_dataset u
              "1.2.3" "CT" "00000042" "1.2.840.1" (item_of "00000042" 42)
              Hu eq_refl eq_refl Tu) as (U1 & U2 & _ & U4).
  split; [| split].
  - split; [exact Hw |]. split; [reflexivity |]. split; [reflexivity |].
    split; [exact Tw |]. split; [reflexivity |]. split; [exact W1 |].
    split; [exact W2 | exact (W3 eq_refl)].
  - split; [exact Hv |]. split; [reflexivity |]. split; [exact Tv |].
    split; [reflexivity | exact (V3 eq_refl)].
  - split; [exact Hu |]. split; [reflexivity |]. split; [exact Tu |].
    split; [reflexivity |]. split; [exact U1 |]. split; [exact U2 |].
    destruct (U4 eq_refl) as (U5 & row & Hrow & U6).
    split; [exact U5 |]. split; [reflexivity |].
    change (first_mpps "1.2.3" (store u))
      with (Some (in_progress_row "1.2.3" "CT" "00000043" "1.2.840.1" d0))
      in Hrow.
    injection Hrow as <-. exact U6.
Defined.

(** C2 as stated fails: the table of managed instances is empty after a
    restart while the store still holds the tracking row of step 1.2.3.  The
    start event that names the SCHEDULED item 00000042 passes every
    validation and is answered 0x0000, as is the completion, and the item is
    SCHEDULED before, between and after them. *)
Lemma lifecycle_broken_by_old_tracking_row :
  ~ lifecycle_in_order E0 start_event empty_dataset
      (world_of store_restarted None).
Proof.
  unfold lifecycle_in_order. intros H.
  assert (Hv : validated_start start_event (world_of store_restarted None)
                               "1.2.3").
  { split; [reflexivity |]. split; [reflexivity |].
    exists "in progress". split; reflexivity. }
  specialize (H "1.2.3" "CT" "00000042" "1.2.840.1" (item_of "00000042" 42)
                Hv eq_refl eq_refl eq_refl).
  cbv zeta in H.
  assert (Ht : tracked complete_event
                 (snd (handle_create E0 start_event
                         (world_of store_restarted None))) <> None)
    by (vm_compute; discriminate).
  specialize (H Ht). vm_compute in H. discriminate H.
Qed.

Lemma handle_create_status_codes_witness :
  let w := world_of store1 None in
  let w1 := snd (handle_create E0 start_event w) in
  fst (handle_create E0 (start_with None (Some "IN PROGRESS")) w)
  = Ok (0x0106, None)
  /\ (managed_instances w1 !! "1.2.3" <> None
      /\ fst (handle_create E0 start_event w1) = Ok (0x0111, None))
  /\ fst (handle_create E0 (start_with (Some "1.2.3") None) w)
     = Ok (0x0120, None)
  /\ (upper "COMPLETED" <> ustr_of_string "IN PROGRESS"
      /\ fst (handle_create E0 (start_with (Some "1.2.3") (Some "COMPLETED")) w)
         = Ok (0x0106, None))
  /\ (upper "in progress" = ustr_of_string "IN PROGRESS"
      /\ fst (handle_create E0 start_event w)
         = Ok (0x0000, Some (new_step "1.2.3" start_attributes)))
  /\ (upper sharp_s_status = ustr_of_string "IN PROGRESS"
      /\ status_code
           (fst (handle_create E0
                   (start_with (Some "1.2.3") (Some sharp_s_status)) w))
         = Some 0x0000)
  /\ (ascii_text "in progress"
      /\ (upper "in progress" = ustr_of_string "IN PROGRESS"
          <-> capitals "in progress" = "IN PROGRESS")).
Proof.
  intros w w1.
  assert (Hm : managed_instances w1 !! "1.2.3" <> None)
    by (vm_compute; discriminate).
  assert (Hc : upper "COMPLETED" <> ustr_of_string "IN PROGRESS")
    by (vm_compute; discriminate).
  assert (Ha : ascii_text "in progress").
  { unfold ascii_text. simpl. repeat constructor. }
  destruct (handle_create_status_codes E0
              (start_with None (Some "IN PROGRESS")) w)
    as (A1 & _).
  destruct (handle_create_status_codes E0 start_event w1)
    as (_ & A2 & _).
  destruct (handle_create_status_codes E0 (start_with (Some "1.2.3") None) w)
    as (_ & _ & A3 & _).
  destruct (handle_create_status_codes E0
              (start_with (Some "1.2.3") (Some "COMPLETED")) w)
    as (_ & _ & _ & A4 & _).
  destruct (handle_create_status_codes E0 start_event w)
    as (_ & _ & _ & _ & A5 & A6).
  destruct (handle_create_status_codes E0
              (start_with (Some "1.2.3") (Some sharp_s_status)) w)
    as (_ & _ & _ & _ & A7 & _).
  split; [exact (A1 eq_refl) |].
  split; [split; [exact Hm | exact (A2 "1.2.3" eq_refl Hm)] |].
  split; [exact (A3 "1.2.3" eq_refl eq_refl eq_refl) |].
  split; [split; [exact Hc
                 | exact (A4 "1.2.3" "COMPLETED" eq_refl eq_refl eq_refl Hc)] |].
  split; [split; [reflexivity
                 | exact (A5 "1.2.3" "in progress"
                             eq_refl eq_refl eq_refl eq_refl)] |].
  split; [split; [reflexivity
                 | rewrite (A7 "1.2.3" sharp_s_status
                               eq_refl eq_refl eq_refl eq_refl);
                   reflexivity] |].
  split; [exact Ha | exact (A6 "in progress" Ha)].
Defined.

Lemma handle_set_status_codes_witness :
  let w := world_of store1 None in
  let w1 := snd (handle_create E0 start_event w) in
  let v1 := snd (handle_create E0 start_event (world_of empty_store None)) in
  let step := new_step "1.2.3" start_attributes in
  (tracked complete_event_mods w = None
   /\ status_code (fst (handle_set E0 complete_event_mods w)) = Some 0x0112)
  /\ (tracked complete_event_mods w1 = Some ("1.2.3", step)
      /\ exists ds',
           fst (handle_set E0 complete_event_mods w1) = Ok (0x0000, Some ds')
           /\ managed_instances (snd (handle_set E0 complete_event_mods w1))
                !! "1.2.3" = Some ds'
           /\ PerformedProcedureStepStatus ds' = Some "COMPLETED"
           /\ ds_other ds' !! "PerformedProcedureStepEndDate"
              = Some "20250101"
           /\ ds_Modality ds' = Some "CT"
           /\ SOPInstanceUID ds' = Some "1.2.3"
           /\ ScheduledStepAttributesSequence ds'
              = ScheduledStepAttributesSequence start_attributes)
  /\ (tracked complete_event_mods v1 = Some ("1.2.3", step)
      /\ first_mpps "1.2.3" (store v1) = None
      /\ status_code (fst (handle_set E0 complete_event_mods v1))
         = Some 0x0000
      /\ store (snd (handle_set E0 complete_event_mods v1)) = store v1
      /\ In (Warning, "Failed to record MPPS completion")
            (log (snd (handle_set E0 complete_event_mods v1)))).
Proof.
  intros w w1 v1 step.
  assert (Tw : tracked complete_event_mods w1 = Some ("1.2.3", step))
    by (vm_compute; reflexivity).
  assert (Tv : tracked complete_event_mods v1 = Some ("1.2.3", step))
    by (vm_compute; reflexivity).
  destruct (handle_set_status_codes E0 complete_event_mods w) as (A1 & _).
  destruct (handle_set_status_codes E0 complete_event_mods w1) as (_ & A2).
  destruct (handle_set_status_codes E0 complete_event_mods v1) as (_ & A3).
  destruct (A2 "1.2.3" step Tw) as (R2 & U2 & M2 & _).
  destruct (A3 "1.2.3" step Tv) as (R3 & _ & _ & S3).
  destruct U2 as (_ & Usop & Ust & Umod & Useq & Uother).
  split; [split; [reflexivity | exact (proj2 A1 eq_refl)] |].
  split.
  - split; [exact Tw |].
    exists (ds_update step (set_attribute_list complete_event_mods)).
    split; [exact R2 |]. split; [exact M2 |]. split; [exact Ust |].
    split; [exact (Uother "PerformedProcedureStepEndDate") |].
    split; [exact Umod |]. split; [exact Usop | exact Useq].
  - split; [exact Tv |]. split; [reflexivity |].
    split; [rewrite R3; reflexivity |]. exact (S3 eq_refl).
Defined.



Lemma translate_plain_name_unchanged_witness :
  (forall c, In c (ustr_of_string "SMITH") -> ~ hangul_block c)
  /\ translate_korean_to_english_name E0 (ustr_of_string "SMITH")
       (world_of empty_store None)
     = (Ok (ustr_of_string "SMITH"), world_of empty_store None).
Proof.
  assert (H : forall c, In c (ustr_of_string "SMITH") -> ~ hangul_block c).
  { intros c Hc. unfold hangul_block. simpl in Hc.
    destruct Hc as [<- | [<- | [<- | [<- | [<- | []]]]]]; lia. }
  split; [exact H |].
  exact (proj1 (translate_plain_name_unchanged E0)
           (ustr_of_string "SMITH") (world_of empty_store None) H).
Defined.

Lemma handle_create_without_item_witness :
  let w := world_of empty_store None in
  let w' := snd (handle_create E0 start_event w) in
  validated_start start_event w "1.2.3"
  /\ first_item "00000042" (store w) = None
  /\ fst (handle_create E0 start_event w)
     = Ok (0x0000, Some (new_step "1.2.3" start_attributes))
  /\ managed_instances w' !! "1.2.3"
     = Some (new_step "1.2.3" start_attributes)
  /\ store w' = store w.
Proof.
  intros w w'.
  assert (Hv : validated_start start_event w "1.2.3").
  { split; [reflexivity |]. split; [reflexivity |].
    exists "in progress". split; reflexivity. }
  pose proof (handle_create_without_item E0 start_event w "1.2.3" Hv)
    as (H1 & H2 & H3 & H4 & H5).
  split; [exact Hv |]. split; [reflexivity |]. split; [exact H1 |].
  split; [exact (H3 eq_refl) |].
  exact (H5 "CT" "00000042" "1.2.840.1" eq_refl eq_refl).
Defined.

Lemma find_effects_at_first_resumption_witness :
  let w := world_of store2 None in
  resumed FindLast
  /\ snd (find_next E0 FindLast false w) = w
  /\ snd (consume E0 (handle_find any_query) [false] w)
     = snd (consume E0 (handle_find any_query) [false; false; false] w).
Proof.
  intros w.
  pose proof (find_effects_at_first_resumption E0 any_query w)
    as (_ & H2 & H3).
  split; [exact I |]. split; [exact (H3 FindLast false w I) |].
  rewrite (H2 false [false; false]). exact (H2 false []).
Defined.

(** C6 as stated fails: with two scheduled items that lack a study
    identifier, a caller that takes one record and abandons the sequence
    leaves a study identifier written for the second, never yielded,
    record. *)
Lemma find_writes_for_unyielded_records :
  ~ writes_confined_to_yielded E0 any_query [false] (world_of store2 None).
Proof.
  unfold writes_confined_to_yielded. intros H.
  assert (Hin : In "00000043"
            (written (store (world_of store2 None))
               (store (snd (consume E0 (handle_find any_query) [false]
                              (world_of store2 None)))))).
  { vm_compute. right. left. reflexivity. }
  apply H in Hin. vm_compute in Hin.
  destruct Hin as [Hin | []]. discriminate Hin.
Qed.

(** The scenario of the specification: order 42 is synchronized into item
    00000042, a query returns it, a start event moves it to IN PROGRESS and
    the next query no longer returns it. *)
Example concrete_scenario :
  let w0 := world_of empty_store (Some [emr_row order42]) in
  let w1 := snd (sync_emr_orders E0 w0) in
  let w2 := snd (find_worklist E0 any_query w1) in
  let w3 := snd (handle_create E0 start_event w2) in
  map (fun it => (accession_number it, status it)) (worklist_items (store w1))
  = [("00000042", SCHEDULED)]
  /\ option_map (map AccessionNumber)
       (match fst (find_worklist E0 any_query w1) with
        | Ok l => Some l | Raise _ => None end)
     = Some ["00000042"]
  /\ item_status "00000042" (store w3) = Some IN_PROGRESS
  /\ fst (find_worklist E0 any_query w3) = Ok [].
Proof. vm_compute. repeat split. Qed.

(** ** Further properties at concrete inputs *)

Lemma accession_of_seq_injective_witness :
  accession_of_seq 42 = accession_of_seq 42 /\ (42 : Z) = 42.
Proof.
  split; [reflexivity |].
  exact (proj1 (proj2 accession_of_seq_injective) 42 42 eq_refl).
Defined.

Lemma sync_keeps_items_with_patients_witness :
  let w := world_of store1 (Some [emr_row order42; emr_row order43]) in
  items_have_patients (store w)
  /\ items_have_patients (store (snd (sync_emr_orders E0 w))).
Proof.
  intros w.
  assert (H : items_have_patients (store w)).
  { intros it [<- | []]. reflexivity. }
  split; [exact H |].
  exact (sync_keeps_items_with_patients E0 w H).
Defined.

Lemma sync_keeps_unique_patients_witness :
  let w := world_of store1 (Some [emr_row order42; emr_row order43]) in
  unique_patients (store w)
  /\ unique_patients (store (snd (sync_emr_orders E0 w))).
Proof.
  intros w.
  assert (H : unique_patients (store w)).
  { unfold unique_patients. simpl. apply NoDup_singleton. }
  split; [exact H |].
  exact (sync_keeps_unique_patients E0 w H).
Defined.

Lemma sync_items_above_cursor_witness :
  let w := world_of store1 (Some [emr_row order42; emr_row order43]) in
  let fl := [item_of "00000043" 43] in
  appended (store w) (store (snd (sync_emr_orders E0 w))) fl
  /\ Forall (fun it =>
               exists seq, emr_order_seq it = Some seq /\ seq <> 0
                 /\ forall l, last_seq (store w) = Some l -> l < seq) fl.
Proof.
  intros w fl.
  assert (H : appended (store w) (store (snd (sync_emr_orders E0 w))) fl).
  { vm_compute. reflexivity. }
  split; [exact H |].
  exact (sync_items_above_cursor E0 w fl H).
Defined.

Lemma sync_source_unreachable_witness :
  let w := world_of store1 None in
  emr w = None
  /\ fst (sync_emr_orders E0 w) = Ok 0%nat
  /\ store (snd (sync_emr_orders E0 w)) = store w.
Proof.
  intros w. split; [reflexivity |].
  exact (sync_source_unreachable E0 w eq_refl).
Defined.

Lemma duplicate_start_refused_witness :
  let w := world_of store1 None in
  let w1 := snd (handle_create E0 start_event w) in
  validated_start start_event w "1.2.3"
  /\ step_key "1.2.3" start_attributes = "1.2.3"
  /\ fst (handle_create E0 start_event w1) = Ok (0x0111, None)
  /\ same_but_log w1 (snd (handle_create E0 start_event w1)).
Proof.
  intros w w1.
  assert (Hv : validated_start start_event w "1.2.3").
  { split; [reflexivity |]. split; [reflexivity |].
    exists "in progress". split; reflexivity. }
  split; [exact Hv |]. split; [reflexivity |].
  exact (duplicate_start_refused E0 start_event start_event w "1.2.3"
           Hv eq_refl eq_refl).
Defined.

Lemma renamed_start_accepted_again_witness :
  let w := world_of store1 None in
  let w1 := snd (handle_create E0 renamed_start_event w) in
  validated_start renamed_start_event w "1.2.3"
  /\ status_code (fst (handle_create E0 renamed_start_event w1)) = Some 0x0000
  /\ managed_instances w1 !! "1.2.3" = None
  /\ is_Some (managed_instances w1 !! "9.9.9").
Proof.
  intros w w1.
  assert (Hv : validated_start renamed_start_event w "1.2.3").
  { split; [reflexivity |]. split; [reflexivity |].
    exists "in progress". split; reflexivity. }
  split; [exact Hv |].
  exact (renamed_start_accepted_again E0 renamed_start_event w
           "1.2.3" "9.9.9" Hv eq_refl ltac:(discriminate)).
Defined.

Lemma start_reaches_order_source_witness :
  let w := world_of store1 (Some [emr_row order42]) in
  let w' := snd (handle_create E0 start_event w) in
  validated_start start_event w "1.2.3"
  /\ emr_order_seq (item_of "00000042" 42) = Some 42
  /\ emr_pushed 42 "IP" (emr w) (emr w')
  /\ store w' = started "1.2.3" "CT" "00000042" "1.2.840.1"
                        (now E0 (clock w)) (store w).
Proof.
  intros w w'.
  assert (Hv : validated_start start_event w "1.2.3").
  { split; [reflexivity |]. split; [reflexivity |].
    exists "in progress". split; reflexivity. }
  split; [exact Hv |]. split; [reflexivity |].
  exact (proj1 (start_reaches_order_source E0 start_event w "1.2.3" Hv)
           "CT" "00000042" "1.2.840.1" (item_of "00000042" 42) 42
           eq_refl eq_refl eq_refl eq_refl ltac:(discriminate)).
Defined.

Lemma completion_reaches_order_source_witness :
  let w := world_of store1 (Some [emr_row order42]) in
  let w1 := snd (handle_create E0 start_event w) in
  let w2 := snd (handle_set E0 complete_event w1) in
  first_mpps "1.2.3" (store w1)
  = Some (in_progress_row "1.2.3" "CT" "00000042" "1.2.840.1" d0)
  /\ emr_pushed 42 "CO" (emr w1) (emr w2).
Proof.
  intros w w1 w2.
  assert (Hm : first_mpps "1.2.3" (store w1)
               = Some (in_progress_row "1.2.3" "CT" "00000042" "1.2.840.1" d0)).
  { vm_compute. reflexivity. }
  split; [exact Hm |].
  refine (proj1 (completion_reaches_order_source E0 complete_event w1)
            "1.2.3" (new_step "1.2.3" start_attributes) _
            (with_status IN_PROGRESS (item_of "00000042" 42)) 42
            _ Hm _ eq_refl ltac:(discriminate)).
  - vm_compute. reflexivity.
  - vm_compute. reflexivity.
Defined.

Lemma started_item_leaves_worklist_witness :
  let w := world_of store2 None in
  let w1 := snd (handle_create E0 start_event w) in
  validated_start start_event w "1.2.3"
  /\ unique_accessions (store w)
  /\ exists rows,
       fst (get_worklist_items None None None w) = Ok rows
       /\ fst (get_worklist_items None None None w1)
          = Ok (List.filter (other_than "00000042") rows).
Proof.
  intros w w1.
  assert (Hv : validated_start start_event w "1.2.3").
  { split; [reflexivity |]. split; [reflexivity |].
    exists "in progress". split; reflexivity. }
  assert (Hu : unique_accessions (store w)).
  { unfold unique_accessions. simpl.
    apply (bool_decide_unpack _). vm_compute. exact I. }
  split; [exact Hv |]. split; [exact Hu |].
  exact (started_item_leaves_worklist E0 start_event w
           "1.2.3" "CT" "00000042" "1.2.840.1" Hv eq_refl eq_refl Hu
           None None None).
Defined.

Lemma completed_item_leaves_worklist_witness :
  let w := world_of store2 None in
  let w1 := snd (handle_create E0 start_event w) in
  let w2 := snd (handle_set E0 complete_event w1) in
  unique_accessions (store w1)
  /\ exists rows,
       fst (get_worklist_items None None None w1) = Ok rows
       /\ fst (get_worklist_items None None None w2)
          = Ok (List.filter (other_than "00000042") rows).
Proof.
  intros w w1 w2.
  assert (Hu : unique_accessions (store w1)).
  { unfold unique_accessions.
    apply (bool_decide_unpack _). vm_compute. exact I. }
  split; [exact Hu |].
  refine (completed_item_leaves_worklist E0 complete_event w1 "1.2.3"
            (new_step "1.2.3" start_attributes)
            (in_progress_row "1.2.3" "CT" "00000042" "1.2.840.1" d0)
            _ _ Hu None None None).
  - vm_compute. reflexivity.
  - vm_compute. reflexivity.
Defined.

Lemma find_persists_study_uids_witness :
  let w := world_of store_spaced None in
  unique_accessions (store w)
  /\ unique_patients (store w)
  /\ exists recs w',
       find_worklist E0 any_query w = (Ok recs, w')
       /\ Forall (persisted (store w')) recs
       /\ NoDup (map AccessionNumber recs)
       /\ map (fun rec => (AccessionNumber rec, StudyInstanceUID rec)) recs
          = [("00000042", "1.9.1"); ("00000043", "1.2.826.0.1.0")]
       /\ map study_instance_uid (worklist_items (store w'))
          = [Some " 1.9.1 "; Some "1.2.826.0.1.0"].
Proof.
  intros w.
  assert (Hu : unique_accessions (store w)).
  { unfold unique_accessions. simpl.
    apply (bool_decide_unpack _). vm_compute. exact I. }
  assert (Hp : unique_patients (store w)).
  { unfold unique_patients. simpl. apply NoDup_singleton. }
  split; [exact Hu |]. split; [exact Hp |].
  destruct (find_persists_study_uids E0 any_query w Hu Hp)
    as (recs & w' & Hrun & H1 & H2).
  exists recs, w'. split; [exact Hrun |]. split; [exact H1 |].
  split; [exact H2 |].
  assert (Hr : recs = match fst (find_worklist E0 any_query w) with
                      | Ok l => l | Raise _ => [] end)
    by (rewrite Hrun; reflexivity).
  assert (Hw : w' = snd (find_worklist E0 any_query w))
    by (rewrite Hrun; reflexivity).
  rewrite Hr, Hw. split; vm_compute; reflexivity.
Defined.

Lemma find_reuses_stored_uids_witness :
  let w := world_of store_spaced None in
  unique_accessions (store w)
  /\ unique_patients (store w)
  /\ stored_uid "00000042" (store w) = Some " 1.9.1 "
  /\ exists recs w',
       find_worklist E0 any_query w = (Ok recs, w')
       /\ Forall (reuses (store w)) recs
       /\ forall rec, In rec recs -> AccessionNumber rec = "00000042" ->
                      StudyInstanceUID rec = "1.9.1".
Proof.
  intros w.
  assert (Hu : unique_accessions (store w)).
  { unfold unique_accessions. simpl.
    apply (bool_decide_unpack _). vm_compute. exact I. }
  assert (Hp : unique_patients (store w)).
  { unfold unique_patients. simpl. apply NoDup_singleton. }
  split; [exact Hu |]. split; [exact Hp |]. split; [reflexivity |].
  destruct (find_reuses_stored_uids E0 any_query w Hu Hp)
    as (recs & w' & Hrun & H).
  exists recs, w'. split; [exact Hrun |]. split; [exact H |].
  intros rec Hin Hacc.
  pose proof (proj1 (List.Forall_forall _ _) H rec Hin) as Hre.
  unfold reuses in Hre. rewrite Hacc in Hre.
  exact (Hre " 1.9.1 " eq_refl ltac:(discriminate)).
Defined.

Lemma find_twice_same_study_uid_witness :
  let w := world_of store2 None in
  unique_accessions (store w)
  /\ unique_patients (store w)
  /\ exists recs1 w1 recs2 w2,
       find_worklist E0 any_query w = (Ok recs1, w1)
       /\ find_worklist E0 any_query w1 = (Ok recs2, w2)
       /\ forall rec1 rec2,
            In rec1 recs1 -> In rec2 recs2 ->
            AccessionNumber rec2 = AccessionNumber rec1 ->
            StudyInstanceUID rec1 <> "" ->
            StudyInstanceUID rec2 = StudyInstanceUID rec1.
Proof.
  intros w.
  assert (Hu : unique_accessions (store w)).
  { unfold unique_accessions. simpl.
    apply (bool_decide_unpack _). vm_compute. exact I. }
  assert (Hp : unique_patients (store w)).
  { unfold unique_patients. simpl. apply NoDup_singleton. }
  split; [exact Hu |]. split; [exact Hp |].
  exact (find_twice_same_study_uid E0 any_query any_query w Hu Hp).
Defined.

Lemma find_cancelled_stops_witness :
  let w := world_of store2 None in
  exists recs w' g,
    run_query E0 any_query w = (Ok recs, w')
    /\ length recs = 2%nat
    /\ consume E0 (handle_find any_query) [false; true] w
       = (Ok (g, map pending (take 1 recs) ++ [(0xFE00, None)])%list, w').
Proof.
  intros w.
  destruct (find_cancelled_stops E0 any_query w) as (recs & w' & Hrun & H).
  assert (Hlen : length recs = 2%nat).
  { change (length recs)
      with (length (match fst (Ok recs : result (list WorklistDataset), w')
                    with Ok l => l | Raise _ => [] end)).
    rewrite <- Hrun. vm_compute. reflexivity. }
  destruct recs as [| r1 [| r2 [| r3 rest]]]; try discriminate Hlen.
  destruct (H [r1] [r2] [] eq_refl ltac:(discriminate)) as [g Hg].
  exists [r1; r2], w', g. split; [exact Hrun |]. split; [reflexivity |].
  exact Hg.
Defined.

Lemma variable_names_modality_witness :
  let w := world_of empty_store None in
  (String.length "CT" < String.length MODALITY_AET_)%nat
  /\ modality_aets
       (store (snd (load_modality_aets
                      [("MODALITY_AET_CT", " CT_SCANNER ,CT2")] w)))
     = [{| ma_modality := "CT"; ma_aet := "CT_SCANNER" |};
        {| ma_modality := "CT"; ma_aet := "CT2" |}].
Proof.
  intros w.
  assert (H : (String.length "CT" < String.length MODALITY_AET_)%nat)
    by (simpl; lia).
  split; [exact H |].
  exact (variable_names_modality "CT" " CT_SCANNER ,CT2" w H).
Defined.

Lemma translate_romanizes_separated_name_witness :
  let w := world_of empty_store None in
  let run := translate_korean_to_english_name E0 korean_name w in
  let run1 := translate_korean_to_english_name E1 korean_name w in
  has_korean korean_name = true
  /\ nonspace_ends korean_name
  /\ separated korean_name = [44608%N; 32%N; 52384%N]
  /\ (romanize E1 (separated korean_name)
      = Some [103; 105; 109; 32; 233; 223]%N
      /\ fst run1 = Ok [71; 73; 77; 32; 201; 83; 83]%N)
  /\ (romanize E0 (separated korean_name) = None
      /\ fst run = Ok korean_name
      /\ log (snd run) = [(Error, "Error translating Korean name")]).
Proof.
  intros w run run1.
  assert (Hends : nonspace_ends korean_name).
  { split; intros c [= <-]; reflexivity. }
  destruct (translate_romanizes_separated_name E0 korean_name w
              eq_refl Hends) as [H1 H2].
  destruct (translate_romanizes_separated_name E1 korean_name w
              eq_refl Hends) as [G1 _].
  split; [reflexivity |]. split; [exact Hends |]. split; [reflexivity |].
  split; [split; [reflexivity | exact G1] |].
  split; [reflexivity |]. split; [exact H1 | exact (H2 eq_refl)].
Defined.

Lemma update_study_instance_uid_writes_witness :
  let w := world_of store2 None in
  exists w',
    update_study_instance_uid "00000042" "1.2.3.4" w = (Ok true, w')
    /\ stored_uid "00000042" (store w') = Some "1.2.3.4"
    /\ first_item "00000043" (store w') = first_item "00000043" (store w).
Proof.
  intros w.
  destruct (update_study_instance_uid_writes "00000042" "1.2.3.4" w)
    as (b & w' & Hrun & Hiff & Htrue & _ & Hother & _).
  assert (Hb : b = true) by (apply Hiff; discriminate).
  subst b. exists w'. split; [exact Hrun |].
  split; [exact (Htrue eq_refl) |].
  apply Hother. discriminate.
Defined.
